(** * Rinku autolink: span detection for URLs, [www.] hosts and e-mail addresses

    A shallow embedding of [ext/rinku/autolink.c] and the properties its
    specification states about it.

    - Bytes ([uint8_t]) and offsets ([size_t]) are integers of [Z]; the
      arithmetic of [size_t] is taken modulo [2^64] and written [size_t (...)]
      wherever the C code adds or subtracts.
    - The buffer [data] is a list of bytes.  A read outside of it is undefined
      behaviour in C and is the outcome [Undefined] here; a failed [assert]
      is [Abort].
    - [struct autolink_pos *link] is passed by reference and mutated in C;
      here every function takes the struct and returns it next to its [bool].
    - The functions of [<ctype.h>] are those of the "C" locale. *)

From Stdlib Require Import ZArith List Bool Lia ZifyBool String Ascii.
Import ListNotations.
Local Open Scope Z_scope.

(* ================================================================= *)
(** ** Machine integers *)

Definition SIZE_MOD : Z := Eval vm_compute in 2 ^ 64.
Definition SIZE_MAX : Z := Eval vm_compute in 2 ^ 64 - 1.
Definition INT_MAX : Z := Eval vm_compute in 2 ^ 31 - 1.

(** Reduction of an integer to the range of [size_t]. *)
Definition size_t (x : Z) : Z := x mod SIZE_MOD.

(* ================================================================= *)
(** ** Bytes and string literals *)

Definition chr (a : ascii) : Z := Z.of_N (N_of_ascii a).
Arguments chr a%_char.

Definition bytes (s : string) : list Z := map chr (list_ascii_of_string s).
Arguments bytes s%_string.

Definition strlen (s : string) : Z := Z.of_nat (String.length s).
Arguments strlen s%_string.

(* ================================================================= *)
(** ** [<ctype.h>] and [<string.h>] in the "C" locale *)

Module Ctype.

Definition between (lo hi c : Z) : bool := (lo <=? c) && (c <=? hi).

Definition isupper (c : Z) : bool := between (chr "A") (chr "Z") c.
Definition islower (c : Z) : bool := between (chr "a") (chr "z") c.
Definition isdigit (c : Z) : bool := between (chr "0") (chr "9") c.
Definition isalpha (c : Z) : bool := isupper c || islower c.
Definition isalnum (c : Z) : bool := isalpha c || isdigit c.

(** space, and the controls [\t \n \v \f \r] *)
Definition isspace (c : Z) : bool := (c =? chr " ") || between 9 13 c.

(** printing characters that are neither space nor alphanumeric *)
Definition ispunct (c : Z) : bool :=
  between 33 47 c || between 58 64 c || between 91 96 c || between 123 126 c.

Definition tolower (c : Z) : Z := if isupper c then c + 32 else c.

(** [strchr(s, c) != NULL].  The terminating NUL of [s] is part of the
    string for [strchr], so the byte 0 is always found. *)
Definition strchr (s : string) (c : Z) : bool :=
  existsb (Z.eqb c) (bytes s) || (c =? 0).
Arguments strchr s%_string c.

End Ctype.
Import Ctype.

(* ================================================================= *)
(** ** Outcomes of a C computation *)

Inductive outcome (A : Type) : Type :=
| Ret (a : A)      (* the computation returns [a] *)
| Undefined        (* undefined behaviour: a read outside the buffer, signed overflow *)
| Abort            (* [assert] failed *)
| NoFuel.          (* the iteration bound of a loop was exhausted *)
Arguments Ret {A} a.
Arguments Undefined {A}.
Arguments Abort {A}.
Arguments NoFuel {A}.

Definition bind {A B : Type} (m : outcome A) (k : A -> outcome B) : outcome B :=
  match m with
  | Ret a => k a
  | Undefined => Undefined
  | Abort => Abort
  | NoFuel => NoFuel
  end.

Notation "x <- m ;; k" := (bind m (fun x => k))
  (at level 61, m at next level, right associativity).
Notation "' p <- m ;; k" := (bind m (fun x => match x with p => k end))
  (at level 61, p pattern, m at next level, right associativity).

(** A loop either goes round again with a new state or leaves with a result. *)
Inductive step (S R : Type) : Type :=
| Continue (s : S)
| Break (r : R).
Arguments Continue {S R} s.
Arguments Break {S R} r.

Fixpoint loop {S R : Type} (fuel : nat) (body : S -> outcome (step S R)) (s : S)
  : outcome R :=
  match fuel with
  | O => NoFuel
  | Datatypes.S fuel' =>
      r <- body s ;;
      match r with
      | Continue s' => loop fuel' body s'
      | Break r => Ret r
      end
  end.

(* ================================================================= *)
(** ** The buffer *)

Definition buffer := list Z.

Definition byte_at (data : buffer) (i : Z) : option Z :=
  if (0 <=? i) && (i <? Z.of_nat (List.length data))
  then nth_error data (Z.to_nat i)
  else None.

(** [data[i]] *)
Definition read (data : buffer) (i : Z) : outcome Z :=
  match byte_at data i with
  | Some c => Ret c
  | None => Undefined
  end.

(** Every loop of the file reads a byte of the buffer each time round, at an
    offset that only grows or only shrinks; none can go round more often
    than the buffer has bytes. *)
Definition bound (data : buffer) : nat := S (List.length data).

(** [struct autolink_pos { size_t start; size_t end; }] *)
Record autolink_pos : Type := mk_pos { start : Z; end_ : Z }.

Definition set_end (link : autolink_pos) (e : Z) : autolink_pos :=
  {| start := start link; end_ := e |}.

Definition set_start (link : autolink_pos) (s : Z) : autolink_pos :=
  {| start := s; end_ := end_ link |}.

(** [++] on an [int]: overflow is undefined. *)
Definition int_incr (n : Z) : outcome Z :=
  if n <? INT_MAX then Ret (n + 1) else Undefined.

(* ================================================================= *)
(** ** [autolink_issafe] *)

Definition valid_uris : list string :=
  ["/"; "http://"; "https://"; "ftp://"; "mailto:"]%string.

(** [strncasecmp(link + off, s2, strlen(s2)) == 0], [s2] the bytes of a
    literal that are still to compare. *)
Fixpoint strncasecmp_eq (link : buffer) (off : Z) (s2 : list Z) : outcome bool :=
  match s2 with
  | [] => Ret true
  | c2 :: s2' =>
      c1 <- read link off ;;
      if tolower c1 =? tolower c2
      then if c1 =? 0 then Ret true else strncasecmp_eq link (off + 1) s2'
      else Ret false
  end.

Fixpoint issafe_from (uris : list string) (link : buffer) (link_len : Z)
  : outcome bool :=
  match uris with
  | [] => Ret false
  | uri :: rest =>
      let len := strlen uri in
      if len <? link_len then
        same <- strncasecmp_eq link 0 (bytes uri) ;;
        if same then
          c <- read link len ;;
          if isalnum c then Ret true else issafe_from rest link link_len
        else issafe_from rest link link_len
      else issafe_from rest link link_len
  end.

Definition autolink_issafe (link : buffer) (link_len : Z) : outcome bool :=
  issafe_from valid_uris link link_len.

(* ================================================================= *)
(** ** [autolink_delim] *)

(** The [for] loop that cuts the span at its first ['<']. *)
Definition delim_truncate (data : buffer) (link : autolink_pos)
  : outcome autolink_pos :=
  loop (bound data)
    (fun i =>
       if i <? end_ link then
         c <- read data i ;;
         if c =? chr "<" then Ret (Break (set_end link i))
         else Ret (Continue (size_t (i + 1)))
       else Ret (Break link))
    (start link).

(** [while (new_end > 0 && isalpha(data[new_end])) new_end--;] *)
Definition walk_alpha (data : buffer) (new_end : Z) : outcome Z :=
  loop (bound data)
    (fun new_end =>
       if 0 <? new_end then
         c <- read data new_end ;;
         if isalpha c then Ret (Continue (size_t (new_end - 1)))
         else Ret (Break new_end)
       else Ret (Break new_end))
    new_end.

(** One turn of the [while (link->end > link->start)] loop. *)
Definition trim_step (data : buffer) (link : autolink_pos)
  : outcome (step autolink_pos autolink_pos) :=
  if start link <? end_ link then
    c <- read data (size_t (end_ link - 1)) ;;
    if strchr "?!.,:" c then
      Ret (Continue (set_end link (size_t (end_ link - 1))))
    else if c =? chr ";" then
      new_end <- walk_alpha data (size_t (end_ link - 2)) ;;
      amp <- (if new_end <? size_t (end_ link - 2)
              then c' <- read data new_end ;; Ret (c' =? chr "&")
              else Ret false) ;;
      if amp then Ret (Continue (set_end link new_end))
      else Ret (Continue (set_end link (size_t (end_ link - 1))))
    else Ret (Break link)
  else Ret (Break link).

Definition trim_loop (data : buffer) (link : autolink_pos) : outcome autolink_pos :=
  loop (bound data) (trim_step data) link.

(** The span as the two loops leave it, before the test for an empty span. *)
Definition delim_trim (data : buffer) (link : autolink_pos) : outcome autolink_pos :=
  link <- delim_truncate data link ;;
  trim_loop data link.

(** The [switch (cclose)]; [copen] stays 0 when no case applies. *)
Definition copen_of (cclose : Z) : Z :=
  if cclose =? chr "034" then chr "034"
  else if cclose =? chr "'" then chr "'"
  else if cclose =? chr ")" then chr "("
  else if cclose =? chr "]" then chr "["
  else if cclose =? chr "}" then chr "{"
  else 0.

(** The counting [while (i < link->end)]; returns [(opening, closing)]. *)
Definition count_brackets (data : buffer) (link : autolink_pos) (copen cclose : Z)
  : outcome (Z * Z) :=
  loop (bound data)
    (fun '(i, opening, closing) =>
       if i <? end_ link then
         c <- read data i ;;
         if c =? copen then
           Ret (Continue (size_t (i + 1), size_t (opening + 1), closing))
         else if c =? cclose then
           Ret (Continue (size_t (i + 1), opening, size_t (closing + 1)))
         else Ret (Continue (size_t (i + 1), opening, closing))
       else Ret (Break (opening, closing)))
    (start link, 0, 0).

(** Everything after the two loops. *)
Definition delim_balance (data : buffer) (link : autolink_pos)
  : outcome (bool * autolink_pos) :=
  if end_ link =? start link then Ret (false, link)
  else
    cclose <- read data (size_t (end_ link - 1)) ;;
    let copen := copen_of cclose in
    if negb (copen =? 0) then
      '(opening, closing) <- count_brackets data link copen cclose ;;
      if negb (closing =? opening)
      then Ret (true, set_end link (size_t (end_ link - 1)))
      else Ret (true, link)
    else Ret (true, link).

Definition autolink_delim (data : buffer) (link : autolink_pos)
  : outcome (bool * autolink_pos) :=
  link <- delim_trim data link ;;
  delim_balance data link.

(* ================================================================= *)
(** ** [check_domain] *)

Definition domain_scan (data : buffer) (size : Z) (link : autolink_pos)
  : outcome (Z * Z) :=
  loop (bound data)
    (fun '(i, np) =>
       if i <? size_t (size - 1) then
         c <- read data i ;;
         if c =? chr "." then Ret (Continue (size_t (i + 1), size_t (np + 1)))
         else if negb (isalnum c) && negb (c =? chr "-") then Ret (Break (i, np))
         else Ret (Continue (size_t (i + 1), np))
       else Ret (Break (i, np)))
    (size_t (start link + 1), 0).

Definition check_domain (data : buffer) (size : Z) (link : autolink_pos)
    (allow_short : bool) : outcome (bool * autolink_pos) :=
  c <- read data (start link) ;;
  if negb (isalnum c) then Ret (false, link)
  else
    '(i, np) <- domain_scan data size link ;;
    let link := set_end link i in
    if allow_short then Ret (true, link)
    else Ret (0 <? np, link).

(** [while (link->end < size && !isspace(data[link->end])) link->end++;] *)
Definition skip_nonspace (data : buffer) (size : Z) (link : autolink_pos)
  : outcome autolink_pos :=
  loop (bound data)
    (fun e =>
       if e <? size then
         c <- read data e ;;
         if negb (isspace c) then Ret (Continue (size_t (e + 1)))
         else Ret (Break (set_end link e))
       else Ret (Break (set_end link e)))
    (end_ link).

(* ================================================================= *)
(** ** [autolink__www] *)

(** [memcmp(data + off, s, strlen(s)) == 0] *)
Fixpoint memcmp_eq (data : buffer) (off : Z) (s : list Z) : outcome bool :=
  match s with
  | [] => Ret true
  | c :: s' =>
      d <- read data off ;;
      rest <- memcmp_eq data (off + 1) s' ;;
      Ret ((d =? c) && rest)
  end.

Definition autolink__www (link : autolink_pos) (data : buffer) (pos size : Z)
    (flags : Z) : outcome (bool * autolink_pos) :=
  glued <- (if 0 <? pos
            then c <- read data (size_t (pos - 1)) ;;
                 Ret (negb (ispunct c) && negb (isspace c))
            else Ret false) ;;
  if glued then Ret (false, link)
  else
    no_www <- (if size_t (size - pos) <? 4 then Ret true
               else same <- memcmp_eq data pos (bytes "www.") ;; Ret (negb same)) ;;
    if no_www then Ret (false, link)
    else
      let link := {| start := pos; end_ := 0 |} in
      '(ok, link) <- check_domain data size link false ;;
      if negb ok then Ret (false, link)
      else
        link <- skip_nonspace data size link ;;
        autolink_delim data link.

(* ================================================================= *)
(** ** [autolink__email] *)

(** The first [for], which moves [link->start] to the left. *)
Definition email_rewind (data : buffer) (pos : Z) : outcome Z :=
  loop (bound data)
    (fun s =>
       if 0 <? s then
         c <- read data (size_t (s - 1)) ;;
         if isalnum c then Ret (Continue (size_t (s - 1)))
         else if strchr ".+-_" c then Ret (Continue (size_t (s - 1)))
         else Ret (Break s)
       else Ret (Break s))
    pos.

(** The second [for], which moves [link->end] to the right and counts;
    returns [(end, nb, np)]. *)
Definition email_scan (data : buffer) (pos size : Z) : outcome (Z * Z * Z) :=
  loop (bound data)
    (fun '(e, nb, np) =>
       if e <? size then
         c <- read data e ;;
         if isalnum c then Ret (Continue (size_t (e + 1), nb, np))
         else if c =? chr "@" then
           nb' <- int_incr nb ;; Ret (Continue (size_t (e + 1), nb', np))
         else if (c =? chr ".") && (e <? size_t (size - 1)) then
           np' <- int_incr np ;; Ret (Continue (size_t (e + 1), nb, np'))
         else if negb (c =? chr "-") && negb (c =? chr "_") then
           Ret (Break (e, nb, np))
         else Ret (Continue (size_t (e + 1), nb, np))
       else Ret (Break (e, nb, np)))
    (pos, 0, 0).

Definition autolink__email (link : autolink_pos) (data : buffer) (pos size : Z)
    (flags : Z) : outcome (bool * autolink_pos) :=
  s <- email_rewind data pos ;;
  let link := {| start := s; end_ := pos |} in
  if start link =? pos then Ret (false, link)
  else
    '(e, nb, np) <- email_scan data pos size ;;
    let link := set_end link e in
    if (size_t (end_ link - pos) <? 2) || negb (nb =? 1) || (np =? 0)
    then Ret (false, link)
    else autolink_delim data link.

(* ================================================================= *)
(** ** [autolink__url] *)

(** [while (link->start && isalpha(data[link->start - 1])) link->start--;] *)
Definition url_rewind (data : buffer) (link : autolink_pos) : outcome autolink_pos :=
  loop (bound data)
    (fun s =>
       if negb (s =? 0) then
         c <- read data (size_t (s - 1)) ;;
         if isalpha c then Ret (Continue (size_t (s - 1)))
         else Ret (Break (set_start link s))
       else Ret (Break (set_start link s)))
    (start link).

Section Url.

(** The flag bit that allows a host name without a dot.  [autolink.h]
    defines it; its value is left open here. *)
Variable AUTOLINK_SHORT_DOMAINS : Z.

Definition autolink__url (link : autolink_pos) (data : buffer) (pos size : Z)
    (flags : Z) : outcome (bool * autolink_pos) :=
  c <- read data pos ;;
  if negb (c =? chr ":") then Abort
  else
    no_slashes <-
      (if size_t (size - pos) <? 4 then Ret true
       else
         c1 <- read data (size_t (pos + 1)) ;;
         if negb (c1 =? chr "/") then Ret true
         else c2 <- read data (size_t (pos + 2)) ;; Ret (negb (c2 =? chr "/"))) ;;
    if no_slashes then Ret (false, link)
    else
      let link := {| start := size_t (pos + 3); end_ := 0 |} in
      '(ok, link) <-
        check_domain data size link
          (negb (Z.land flags AUTOLINK_SHORT_DOMAINS =? 0)) ;;
      if negb ok then Ret (false, link)
      else
        link <- skip_nonspace data size link ;;
        link <- url_rewind data (set_start link pos) ;;
        safe <- autolink_issafe (skipn (Z.to_nat (start link)) data)
                  (size_t (size - start link)) ;;
        if negb safe then Ret (false, link)
        else autolink_delim data link.

End Url.

(** The buffer that holds a text. *)
Definition text (s : string) : buffer := bytes s.
Arguments text s%_string.

(** A span whose fields the caller has not set. *)
Definition no_link : autolink_pos := {| start := 0; end_ := 0 |}.

(* ================================================================= *)
(** * Basic facts *)

Lemma size_t_small (x : Z) : 0 <= x <= SIZE_MAX -> size_t x = x.
Proof. intros H. unfold size_t. apply Z.mod_small. unfold SIZE_MAX, SIZE_MOD in *. lia. Qed.

Lemma size_t_range (x : Z) : 0 <= size_t x <= SIZE_MAX.
Proof.
  unfold size_t. pose proof (Z.mod_pos_bound x SIZE_MOD). unfold SIZE_MAX, SIZE_MOD in *. lia.
Qed.

Lemma size_t_pred_zero : size_t (0 - 1) = SIZE_MAX.
Proof. reflexivity. Qed.

Lemma byte_at_Some (data : buffer) (i c : Z) :
  byte_at data i = Some c -> 0 <= i < Z.of_nat (List.length data).
Proof.
  unfold byte_at. destruct ((0 <=? i) && (i <? Z.of_nat (List.length data))) eqn:E.
  - intros _. lia.
  - discriminate.
Qed.

Lemma byte_at_inside (data : buffer) (i : Z) :
  0 <= i < Z.of_nat (List.length data) -> exists c, byte_at data i = Some c.
Proof.
  intros H. unfold byte_at.
  replace ((0 <=? i) && (i <? Z.of_nat (List.length data))) with true by lia.
  destruct (nth_error data (Z.to_nat i)) eqn:E.
  - eauto.
  - apply nth_error_None in E. lia.
Qed.

Lemma read_Ret (data : buffer) (i c : Z) : read data i = Ret c <-> byte_at data i = Some c.
Proof.
  unfold read. destruct (byte_at data i); split; intros H; inversion H; reflexivity.
Qed.

Lemma read_byte_at (data : buffer) (i c : Z) : byte_at data i = Some c -> read data i = Ret c.
Proof. apply read_Ret. Qed.

Lemma bind_Ret {A B : Type} (m : outcome A) (k : A -> outcome B) (b : B) :
  bind m k = Ret b -> exists a, m = Ret a /\ k a = Ret b.
Proof. destruct m; simpl; intros H; try discriminate. eauto. Qed.

(** Character constants and the character classes, as linear arithmetic. *)
Ltac chr_norm :=
  repeat match goal with
    | |- context [chr ?a] =>
        let v := eval vm_compute in (chr a) in change (chr a) with v
    | H : context [chr ?a] |- _ =>
        let v := eval vm_compute in (chr a) in change (chr a) with v in H
    end.

Ltac ctype_unfold :=
  unfold strchr, isalnum, isalpha, isupper, islower, isdigit, isspace, ispunct,
    tolower, between in *;
  cbn [bytes list_ascii_of_string map existsb] in *;
  chr_norm.

Ltac ctype := ctype_unfold; lia.

(* ================================================================= *)
(** * Reasoning about loops *)

Section LoopRules.

Context {S R : Type}.
Variable body : S -> outcome (step S R).
Variable Inv : S -> Prop.
Variable Q : R -> Prop.

(** Partial correctness: an invariant kept by every turn holds on leaving. *)
Lemma loop_partial :
  (forall s s', Inv s -> body s = Ret (Continue s') -> Inv s') ->
  (forall s r, Inv s -> body s = Ret (Break r) -> Q r) ->
  forall fuel s r, Inv s -> loop fuel body s = Ret r -> Q r.
Proof.
  intros Hc Hb. induction fuel as [|fuel IH]; intros s r Hs H; simpl in H.
  - discriminate.
  - apply bind_Ret in H. destruct H as [[s'|r'] [E H]].
    + eapply IH; [ eapply Hc; eassumption | exact H ].
    + inversion H; subst. eapply Hb; eassumption.
Qed.

(** Total correctness: with a measure that every turn lowers, the loop
    returns before its bound is used up. *)
Variable m : S -> nat.

Lemma loop_total :
  (forall s, Inv s ->
     (exists s', body s = Ret (Continue s') /\ Inv s' /\ (m s' < m s)%nat) \/
     (exists r, body s = Ret (Break r) /\ Q r)) ->
  forall fuel s, Inv s -> (m s < fuel)%nat ->
    exists r, loop fuel body s = Ret r /\ Q r.
Proof.
  intros Hbody. induction fuel as [|fuel IH]; intros s Hs Hm.
  - lia.
  - simpl. destruct (Hbody s Hs) as [[s' [E [Hs' Hlt]]] | [r [E Hr]]]; rewrite E; simpl.
    + apply IH; [ exact Hs' | lia ].
    + eauto.
Qed.

(** A loop whose turns lower the measure does not use up its bound. *)
Lemma loop_fuel :
  (forall s, Inv s -> body s <> NoFuel) ->
  (forall s s', Inv s -> body s = Ret (Continue s') -> Inv s' /\ (m s' < m s)%nat) ->
  forall fuel s, Inv s -> (m s < fuel)%nat -> loop fuel body s <> NoFuel.
Proof.
  intros Hnf Hc. induction fuel as [|fuel IH]; intros s Hs Hm.
  - lia.
  - simpl. specialize (Hnf s Hs). specialize (Hc s).
    destruct (body s) as [[s'|r] | | |]; simpl; try discriminate; try contradiction.
    destruct (Hc s' Hs eq_refl) as [Hs' Hlt]. apply IH; [exact Hs' | lia].
Qed.

End LoopRules.

(* ================================================================= *)
(** * The loops of [autolink_delim] *)

Definition len (data : buffer) : Z := Z.of_nat (List.length data).

(** A buffer whose length fits a [size_t]. *)
Definition buffer_ok (data : buffer) : Prop := len data <= SIZE_MAX.

(** A span that lies in the buffer. *)
Definition span_ok (data : buffer) (link : autolink_pos) : Prop :=
  0 <= start link /\ end_ link <= len data.

Lemma byte_at_len (data : buffer) (i c : Z) : byte_at data i = Some c -> 0 <= i < len data.
Proof. apply byte_at_Some. Qed.

Lemma byte_at_in (data : buffer) (i : Z) :
  0 <= i < len data -> exists c, byte_at data i = Some c.
Proof. apply byte_at_inside. Qed.

Lemma bound_len (data : buffer) (n : Z) : n <= len data -> (Z.to_nat n < bound data)%nat.
Proof. unfold bound, len. lia. Qed.

Lemma set_end_same (link : autolink_pos) : set_end link (end_ link) = link.
Proof. destruct link; reflexivity. Qed.

(** The cut at the first ['<']: the span keeps its start, and its new end
    is the offset of the first ['<'] of the span, or the old end. *)
Lemma delim_truncate_spec (data : buffer) (link : autolink_pos) :
  buffer_ok data -> span_ok data link ->
  exists e1,
    delim_truncate data link = Ret (set_end link e1) /\
    e1 <= end_ link /\
    (start link <= end_ link -> start link <= e1) /\
    (forall i c, start link <= i < e1 -> byte_at data i = Some c -> c <> chr "<") /\
    (e1 < end_ link -> start link <= e1 /\ byte_at data e1 = Some (chr "<")).
Proof.
  intros Hok [Hs He]. unfold buffer_ok in Hok. unfold delim_truncate.
  match goal with |- context [loop _ ?b _] => set (body := b) end.
  destruct (loop_total body
    (fun i => start link <= i /\ (i <= end_ link \/ i = start link) /\
              forall x c, start link <= x < i -> byte_at data x = Some c -> c <> chr "<")
    (fun r => exists e1, r = set_end link e1 /\ e1 <= end_ link /\
              (start link <= end_ link -> start link <= e1) /\
              (forall i c, start link <= i < e1 -> byte_at data i = Some c -> c <> chr "<") /\
              (e1 < end_ link -> start link <= e1 /\ byte_at data e1 = Some (chr "<")))
    (fun i => Z.to_nat (end_ link - i))) with (fuel := bound data) (s := start link)
    as [r [E [e1 [-> H]]]].
  - intros i [Hi [Hie Hno]]. unfold body.
    destruct (i <? end_ link) eqn:Elt.
    + destruct (byte_at_in data i) as [c Hc]; [lia|].
      rewrite (read_byte_at _ _ _ Hc). simpl.
      destruct (c =? chr "<") eqn:Ec.
      * right. eexists. split; [reflexivity|]. exists i.
        split; [reflexivity|]. split; [lia|]. split; [lia|]. split; [exact Hno|].
        intros _. split; [lia|]. rewrite Hc. f_equal. lia.
      * left. eexists. split; [reflexivity|].
        rewrite size_t_small by lia. repeat split; try lia.
        intros x c' Hx Hc'. destruct (Z.eq_dec x i) as [->|Hne].
        -- rewrite Hc in Hc'. inversion Hc'; subst. lia.
        -- apply (Hno x c'); [lia | exact Hc'].
    + right. eexists. split; [reflexivity|]. exists (end_ link).
      rewrite set_end_same.
      split; [reflexivity|]. split; [lia|]. split; [lia|]. split; [|lia].
      intros x c Hx. apply Hno. lia.
  - split; [lia | split; [lia | intros x c Hx; lia]].
  - apply bound_len. lia.
  - exists e1. split; [exact E | exact H].
Qed.

(** The walk to the left over letters stops at the first byte that is not a
    letter, or at offset 0. *)
Lemma walk_alpha_spec (data : buffer) (x : Z) :
  buffer_ok data -> 0 <= x < len data ->
  exists y,
    walk_alpha data x = Ret y /\
    0 <= y <= x /\
    (forall i c, y < i <= x -> byte_at data i = Some c -> isalpha c = true) /\
    (y = 0 \/ exists c, byte_at data y = Some c /\ isalpha c = false).
Proof.
  intros Hok Hx. unfold buffer_ok in Hok. unfold walk_alpha.
  match goal with |- context [loop _ ?b _] => set (body := b) end.
  destruct (loop_total body
    (fun y => 0 <= y <= x /\
              forall i c, y < i <= x -> byte_at data i = Some c -> isalpha c = true)
    (fun y => 0 <= y <= x /\
              (forall i c, y < i <= x -> byte_at data i = Some c -> isalpha c = true) /\
              (y = 0 \/ exists c, byte_at data y = Some c /\ isalpha c = false))
    (fun y => Z.to_nat y)) with (fuel := bound data) (s := x)
    as [r [E H]].
  - intros y [Hy Hal]. unfold body.
    destruct (0 <? y) eqn:Epos.
    + destruct (byte_at_in data y) as [c Hc]; [lia|].
      rewrite (read_byte_at _ _ _ Hc). simpl.
      destruct (isalpha c) eqn:Ea.
      * left. eexists. split; [reflexivity|].
        rewrite size_t_small by lia. repeat split; try lia.
        intros i c' Hi Hc'. destruct (Z.eq_dec i y) as [->|Hne].
        -- rewrite Hc in Hc'. inversion Hc'; subst. exact Ea.
        -- apply (Hal i c'); [lia | exact Hc'].
      * right. eexists. split; [reflexivity|].
        split; [lia | split; [exact Hal | right; eauto]].
    + right. eexists. split; [reflexivity|].
      split; [lia | split; [exact Hal | left; lia]].
  - split; [lia|]. intros i c Hi. lia.
  - apply bound_len. lia.
  - exists r. split; [exact E | exact H].
Qed.

(** The bytes of the buffer from offset [s] up to, not including, offset [e]. *)
Definition slice (data : buffer) (s e : Z) : list Z :=
  firstn (Z.to_nat (e - s)) (skipn (Z.to_nat s) data).

(** The bytes a span covers. *)
Definition span_bytes (data : buffer) (link : autolink_pos) : list Z :=
  slice data (start link) (end_ link).

(** How often the byte [c] occurs in [l]. *)
Definition occurrences (c : Z) (l : list Z) : Z := Z.of_nat (count_occ Z.eq_dec l c).

Lemma firstn_snoc {A : Type} (l : list A) (n : nat) (c : A) :
  nth_error l n = Some c -> firstn (S n) l = firstn n l ++ [c].
Proof.
  revert n. induction l as [|a l IH]; intros [|n] H; simpl in *; try discriminate.
  - inversion H; reflexivity.
  - f_equal. apply IH. exact H.
Qed.

Lemma nth_error_skipn_add {A : Type} (l : list A) (s n : nat) :
  nth_error (skipn s l) n = nth_error l (s + n).
Proof.
  revert l. induction s as [|s IH]; intros [|a l]; simpl; auto.
  destruct n; reflexivity.
Qed.

Lemma byte_at_nth (data : buffer) (i c : Z) :
  byte_at data i = Some c -> nth_error data (Z.to_nat i) = Some c.
Proof.
  unfold byte_at. destruct ((0 <=? i) && (i <? Z.of_nat (List.length data))); [auto | discriminate].
Qed.

Lemma slice_empty (data : buffer) (s e : Z) : e <= s -> slice data s e = [].
Proof. intros H. unfold slice. replace (Z.to_nat (e - s)) with O by lia. reflexivity. Qed.

Lemma slice_snoc (data : buffer) (s i c : Z) :
  0 <= s <= i -> byte_at data i = Some c ->
  slice data s (i + 1) = slice data s i ++ [c].
Proof.
  intros Hs Hc. unfold slice.
  replace (Z.to_nat (i + 1 - s)) with (S (Z.to_nat (i - s))) by lia.
  apply firstn_snoc. rewrite nth_error_skipn_add.
  replace (Z.to_nat s + Z.to_nat (i - s))%nat with (Z.to_nat i) by lia.
  apply byte_at_nth. exact Hc.
Qed.

Lemma slice_length (data : buffer) (s e : Z) :
  Z.of_nat (List.length (slice data s e)) <= Z.max 0 (e - s).
Proof.
  unfold slice. rewrite length_firstn. lia.
Qed.

Lemma occurrences_nil (c : Z) : occurrences c [] = 0.
Proof. reflexivity. Qed.

Lemma occurrences_snoc (c d : Z) (l : list Z) :
  occurrences c (l ++ [d]) = occurrences c l + (if d =? c then 1 else 0).
Proof.
  unfold occurrences. rewrite count_occ_app. simpl.
  destruct (Z.eq_dec d c) as [->|Hne].
  - rewrite Z.eqb_refl. lia.
  - replace (d =? c) with false by lia. lia.
Qed.

Lemma occurrences_bound (c : Z) (l : list Z) :
  0 <= occurrences c l <= Z.of_nat (List.length l).
Proof.
  unfold occurrences. pose proof (count_occ_bound Z.eq_dec c l). lia.
Qed.

(** The counting loop: [opening] is the number of bytes of the span equal
    to [copen]; [closing] the number of those equal to [cclose] among the
    others. *)
Lemma count_brackets_spec (data : buffer) (link : autolink_pos) (copen cclose : Z) :
  buffer_ok data -> span_ok data link ->
  count_brackets data link copen cclose =
    Ret (occurrences copen (span_bytes data link),
         if cclose =? copen then 0 else occurrences cclose (span_bytes data link)).
Proof.
  intros Hok [Hs He]. unfold buffer_ok in Hok. unfold count_brackets, span_bytes.
  match goal with |- context [loop _ ?b _] => set (body := b) end.
  set (cl := fun l => if cclose =? copen then 0 else occurrences cclose l).
  destruct (loop_total body
    (fun '(i, o, c) => start link <= i /\ (i <= end_ link \/ i = start link) /\
        o = occurrences copen (slice data (start link) i) /\
        c = cl (slice data (start link) i))
    (fun '(o, c) => o = occurrences copen (slice data (start link) (end_ link)) /\
        c = cl (slice data (start link) (end_ link)))
    (fun '(i, _, _) => Z.to_nat (end_ link - i))) with (fuel := bound data)
    (s := (start link, 0, 0)) as [[o c] [E [-> ->]]].
  - intros [[i o] c] [Hi [Hie [Ho Hc]]]. unfold body.
    destruct (i <? end_ link) eqn:Elt.
    + destruct (byte_at_in data i) as [d Hd]; [lia|].
      rewrite (read_byte_at _ _ _ Hd). simpl.
      pose proof (slice_snoc data (start link) i d ltac:(lia) Hd) as Hsn.
      pose proof (occurrences_bound copen (slice data (start link) i)) as Bo.
      pose proof (occurrences_bound cclose (slice data (start link) i)) as Bc.
      pose proof (slice_length data (start link) i) as Bl.
      assert (Hcl : 0 <= cl (slice data (start link) i) <= Z.of_nat (List.length (slice data (start link) i))).
      { unfold cl. destruct (cclose =? copen); lia. }
      assert (Hi1 : size_t (i + 1) = i + 1) by (apply size_t_small; lia).
      left. destruct (d =? copen) eqn:Edo; [| destruct (d =? cclose) eqn:Edc];
        (eexists; split; [reflexivity|]); cbv beta iota; rewrite Hi1, Hsn;
        unfold cl in *; rewrite !occurrences_snoc, ?Edo, ?Edc;
        subst o c.
      * rewrite size_t_small by lia.
        split; [|lia]. split; [lia|]. split; [lia|]. split; [lia|].
        destruct (cclose =? copen) eqn:Ecc; [reflexivity|].
        replace (d =? cclose) with false by lia. lia.
      * rewrite size_t_small by (replace (cclose =? copen) with false in * by lia; lia).
        split; [|lia]. split; [lia|]. split; [lia|]. split; [lia|].
        replace (cclose =? copen) with false by lia. lia.
      * split; [|lia]. split; [lia|]. split; [lia|]. split; [lia|].
        destruct (cclose =? copen); lia.
    + right. eexists. split; [reflexivity|]. simpl.
      assert (Hsl : slice data (start link) i = slice data (start link) (end_ link)).
      { destruct Hie as [Hie | ->].
        - replace i with (end_ link) by lia. reflexivity.
        - rewrite !slice_empty by lia. reflexivity. }
      rewrite <- Hsl. split; assumption.
  - rewrite slice_empty by lia. unfold cl. rewrite !occurrences_nil.
    split; [lia|]. split; [lia|]. split; [reflexivity|]. destruct (cclose =? copen); reflexivity.
  - apply bound_len. lia.
  - exact E.
Qed.

(** What the bytes ['?' '!' '.' ',' ':'] of the first test of the trimming
    loop are for [strchr]: these five and NUL. *)
Lemma strchr_punct (c : Z) :
  strchr "?!.,:" c = true <->
  c = chr "?" \/ c = chr "!" \/ c = chr "." \/ c = chr "," \/ c = chr ":" \/ c = 0.
Proof. ctype. Qed.

Lemma strchr_local (c : Z) :
  strchr ".+-_" c = true <->
  c = chr "." \/ c = chr "+" \/ c = chr "-" \/ c = chr "_" \/ c = 0.
Proof. ctype. Qed.

(** A turn of the trimming loop on a span whose last byte is one of
    [?!.,:] (or NUL) drops that byte. *)
Lemma trim_step_punct (data : buffer) (link : autolink_pos) (c : Z) :
  buffer_ok data -> 0 <= start link < end_ link ->
  byte_at data (end_ link - 1) = Some c ->
  strchr "?!.,:" c = true ->
  trim_step data link = Ret (Continue (set_end link (end_ link - 1))).
Proof.
  intros Hok Hs Hc Hp. unfold buffer_ok in Hok. pose proof (byte_at_len _ _ _ Hc) as Hl.
  unfold trim_step. replace (start link <? end_ link) with true by lia.
  rewrite size_t_small by lia. rewrite (read_byte_at _ _ _ Hc). simpl.
  rewrite Hp. reflexivity.
Qed.

(** A turn on a span that is empty, or whose last byte is neither of
    these nor [';'], leaves the loop. *)
Definition trim_done (data : buffer) (link : autolink_pos) : Prop :=
  end_ link <= start link \/
  exists c, byte_at data (end_ link - 1) = Some c /\
            strchr "?!.,:" c = false /\ c <> chr ";".

Lemma trim_step_done (data : buffer) (link : autolink_pos) :
  buffer_ok data -> trim_done data link ->
  trim_step data link = Ret (Break link).
Proof.
  intros Hok [Hle | [c [Hc [Hp Hsc]]]]; unfold trim_step.
  - replace (start link <? end_ link) with false by lia. reflexivity.
  - unfold buffer_ok in Hok. pose proof (byte_at_len _ _ _ Hc) as Hl.
    destruct (start link <? end_ link); [|reflexivity].
    rewrite size_t_small by lia. rewrite (read_byte_at _ _ _ Hc). simpl.
    rewrite Hp. replace (c =? chr ";") with false by lia. reflexivity.
Qed.

(** A turn on a span whose last byte is [';']. *)
Lemma trim_step_semicolon (data : buffer) (link : autolink_pos) :
  buffer_ok data -> 0 <= start link < end_ link -> 2 <= end_ link ->
  byte_at data (end_ link - 1) = Some (chr ";") ->
  exists y cy,
    0 <= y <= end_ link - 2 /\
    (forall i c, y < i <= end_ link - 2 -> byte_at data i = Some c -> isalpha c = true) /\
    (y = 0 \/ isalpha cy = false) /\
    byte_at data y = Some cy /\
    trim_step data link =
      Ret (Continue (set_end link
             (if (y <? end_ link - 2) && (cy =? chr "&") then y else end_ link - 1))).
Proof.
  intros Hok Hs H2 Hc. pose proof (byte_at_len _ _ _ Hc) as Hl.
  destruct (walk_alpha_spec data (end_ link - 2) Hok ltac:(lia)) as [y [Hw [Hy [Hal Hst]]]].
  destruct (byte_at_in data y ltac:(lia)) as [cy Hcy].
  exists y, cy. split; [exact Hy|]. split; [exact Hal|].
  split.
  { destruct Hst as [Hz | [c [Hc' Hna]]]; [left; exact Hz | right].
    rewrite Hcy in Hc'. inversion Hc'; subst. exact Hna. }
  split; [exact Hcy|].
  unfold buffer_ok in Hok. unfold trim_step.
  replace (start link <? end_ link) with true by lia.
  rewrite !size_t_small by lia. rewrite (read_byte_at _ _ _ Hc). simpl.
  rewrite Hw. simpl.
  destruct (y <? end_ link - 2); simpl.
  - rewrite (read_byte_at _ _ _ Hcy). simpl. destruct (cy =? chr "&"); reflexivity.
  - reflexivity.
Qed.

(** Leaving the loop is only possible through [trim_done]. *)
Lemma trim_step_Break (data : buffer) (link r : autolink_pos) :
  buffer_ok data -> span_ok data link ->
  trim_step data link = Ret (Break r) -> r = link /\ trim_done data link.
Proof.
  intros Hok [Hs He] H. unfold buffer_ok in Hok. unfold trim_step in H.
  destruct (start link <? end_ link) eqn:Elt.
  - rewrite size_t_small in H by lia.
    apply bind_Ret in H. destruct H as [c [Hc H]]. apply read_Ret in Hc.
    destruct (strchr "?!.,:" c) eqn:Ep; [discriminate|].
    destruct (c =? chr ";") eqn:Esc.
    + apply bind_Ret in H. destruct H as [y [_ H]].
      apply bind_Ret in H. destruct H as [amp [_ H]].
      destruct amp; discriminate.
    + inversion H; subst. split; [reflexivity|]. right. exists c.
      split; [exact Hc|]. split; [exact Ep|]. lia.
  - inversion H; subst. split; [reflexivity|]. left. lia.
Qed.

(** Going round moves the end of the span to the left and keeps its start. *)
Lemma trim_step_Continue (data : buffer) (link l' : autolink_pos) :
  buffer_ok data -> span_ok data link ->
  trim_step data link = Ret (Continue l') ->
  start l' = start link /\ 0 <= end_ l' < end_ link.
Proof.
  intros Hok [Hs He] H. pose proof Hok as Hok'. unfold buffer_ok in Hok'.
  unfold trim_step in H.
  destruct (start link <? end_ link) eqn:Elt; [|discriminate].
  rewrite size_t_small in H by lia.
  apply bind_Ret in H. destruct H as [c [Hc H]]. apply read_Ret in Hc.
  destruct (strchr "?!.,:" c) eqn:Ep.
  - inversion H; subst. simpl. lia.
  - destruct (c =? chr ";") eqn:Esc; [|discriminate].
    apply bind_Ret in H. destruct H as [y [Hy H]].
    apply bind_Ret in H. destruct H as [amp [Hamp H]].
    assert (H2 : 2 <= end_ link).
    { destruct (Z.eq_dec (end_ link) 1) as [E1|]; [|lia].
      rewrite E1 in Hy. change (size_t (1 - 2)) with SIZE_MAX in Hy.
      unfold walk_alpha, bound in Hy. simpl in Hy.
      apply bind_Ret in Hy. destruct Hy as [r [Hy _]].
      apply bind_Ret in Hy. destruct Hy as [d [Hd _]].
      apply read_Ret in Hd. apply byte_at_len in Hd. lia. }
    rewrite size_t_small in Hy, Hamp by lia.
    destruct (walk_alpha_spec data (end_ link - 2) Hok ltac:(lia)) as [y' [Hw [Hy' _]]].
    rewrite Hw in Hy. inversion Hy; subst y'.
    destruct amp; inversion H; subst; simpl; lia.
Qed.

(** The trimming loop as a whole, when it returns. *)
Lemma trim_loop_spec (data : buffer) (link r : autolink_pos) :
  buffer_ok data -> span_ok data link ->
  trim_loop data link = Ret r ->
  start r = start link /\ end_ r <= end_ link /\ trim_done data r.
Proof.
  intros Hok [Hs He] H. unfold trim_loop in H.
  apply (loop_partial (trim_step data)
           (fun l => start l = start link /\ end_ l <= end_ link)
           (fun r => start r = start link /\ end_ r <= end_ link /\ trim_done data r))
    with (fuel := bound data) (s := link).
  - intros l l' [Hl1 Hl2] Hstep.
    destruct (trim_step_Continue data l l' Hok) as [H1 H2]; [split; lia | exact Hstep |].
    lia.
  - intros l r' [Hl1 Hl2] Hstep.
    destruct (trim_step_Break data l r' Hok) as [-> Hd]; [split; lia | exact Hstep |].
    auto.
  - lia.
  - exact H.
Qed.

(** The two loops together, when they return: the start is kept, the end
    has not moved to the right, nothing is left to trim and no ['<'] is
    left in the span. *)
Lemma delim_trim_spec (data : buffer) (link r : autolink_pos) :
  buffer_ok data -> span_ok data link ->
  delim_trim data link = Ret r ->
  start r = start link /\ end_ r <= end_ link /\ trim_done data r /\
  (forall i c, start r <= i < end_ r -> byte_at data i = Some c -> c <> chr "<").
Proof.
  intros Hok Hspan H. unfold delim_trim in H.
  destruct (delim_truncate_spec data link Hok Hspan) as [e1 [Ht [He1 [_ [Hno _]]]]].
  rewrite Ht in H. simpl in H.
  destruct Hspan as [Hs He].
  destruct (trim_loop_spec data (set_end link e1) r Hok) as [H1 [H2 H3]];
    [split; simpl; lia | exact H |].
  simpl in H1, H2. split; [exact H1|]. split; [lia|]. split; [exact H3|].
  intros i c Hi. apply Hno. lia.
Qed.

(** Trimming what the two loops have left changes nothing. *)
Lemma delim_trim_idem (data : buffer) (link r : autolink_pos) :
  buffer_ok data -> span_ok data link ->
  delim_trim data link = Ret r -> delim_trim data r = Ret r.
Proof.
  intros Hok Hspan H.
  destruct (delim_trim_spec data link r Hok Hspan H) as [Hs [He [Hd Hno]]].
  assert (Hspan' : span_ok data r) by (destruct Hspan; split; lia).
  unfold delim_trim.
  destruct (delim_truncate_spec data r Hok Hspan') as [e1 [Ht [He1 [_ [_ Hlt]]]]].
  assert (e1 = end_ r).
  { destruct (Z.eq_dec e1 (end_ r)) as [|Hne]; [assumption|].
    destruct Hlt as [Hse Hb]; [lia|]. exfalso. apply (Hno e1 _ ltac:(lia) Hb). reflexivity. }
  subst e1. rewrite set_end_same in Ht. rewrite Ht. simpl.
  unfold trim_loop, bound. simpl. rewrite (trim_step_done data r Hok Hd). reflexivity.
Qed.

(** The end of [autolink_delim]: the test for an empty span and the
    balance of the closing byte. *)
Lemma delim_balance_spec (data : buffer) (link : autolink_pos) (cclose : Z) :
  buffer_ok data -> span_ok data link ->
  end_ link <> start link ->
  byte_at data (end_ link - 1) = Some cclose ->
  let copen := copen_of cclose in
  let opening := occurrences copen (span_bytes data link) in
  let closing := if cclose =? copen then 0 else occurrences cclose (span_bytes data link) in
  delim_balance data link =
    Ret (true, if negb (copen =? 0) && negb (closing =? opening)
               then set_end link (end_ link - 1) else link).
Proof.
  intros Hok Hspan Hne Hc copen opening closing.
  pose proof (byte_at_len _ _ _ Hc) as Hl. pose proof Hok as Hok'. unfold buffer_ok in Hok'.
  unfold delim_balance. replace (end_ link =? start link) with false by lia.
  rewrite size_t_small by lia. rewrite (read_byte_at _ _ _ Hc). cbn [bind].
  fold copen. destruct (copen =? 0) eqn:E0; cbn [negb andb].
  - reflexivity.
  - rewrite (count_brackets_spec data link copen cclose Hok Hspan). cbn [bind].
    fold opening. fold closing. destruct (closing =? opening); reflexivity.
Qed.

(** On a span of the buffer no loop of [autolink_delim] uses up its
    bound: the function returns, or reads outside the buffer. *)
Lemma read_fuel (data : buffer) (i : Z) : read data i <> NoFuel.
Proof. unfold read. destruct (byte_at data i); discriminate. Qed.

Lemma trim_step_fuel (data : buffer) (link : autolink_pos) :
  buffer_ok data -> span_ok data link -> trim_step data link <> NoFuel.
Proof.
  intros Hok [Hs He]. pose proof Hok as Hok'. unfold buffer_ok in Hok'.
  unfold trim_step. destruct (start link <? end_ link) eqn:Elt; [|discriminate].
  rewrite size_t_small by lia.
  destruct (byte_at_in data (end_ link - 1) ltac:(lia)) as [c Hc].
  rewrite (read_byte_at _ _ _ Hc). cbn [bind].
  destruct (strchr "?!.,:" c); [discriminate|].
  destruct (c =? chr ";") eqn:Esc; [|discriminate].
  destruct (Z.eq_dec (end_ link) 1) as [E1 | Hne].
  - rewrite E1. change (size_t (1 - 2)) with SIZE_MAX.
    unfold walk_alpha, bound. cbn [loop]. change (0 <? SIZE_MAX) with true. cbv beta iota.
    unfold read. destruct (byte_at data SIZE_MAX) eqn:Eb; [|discriminate].
    apply byte_at_len in Eb. lia.
  - rewrite size_t_small by lia.
    destruct (walk_alpha_spec data (end_ link - 2) Hok ltac:(lia)) as [y [Hw [Hy _]]].
    rewrite Hw. cbn [bind].
    destruct (y <? end_ link - 2).
    + destruct (byte_at_in data y ltac:(lia)) as [cy Hcy].
      rewrite (read_byte_at _ _ _ Hcy). cbn [bind]. destruct (cy =? chr "&"); discriminate.
    + cbn [bind]. discriminate.
Qed.

Lemma delim_fuel (data : buffer) (link : autolink_pos) :
  buffer_ok data -> span_ok data link -> autolink_delim data link <> NoFuel.
Proof.
  intros Hok Hspan. pose proof Hok as Hok'. unfold buffer_ok in Hok'.
  destruct (delim_truncate_spec data link Hok Hspan) as [e1 [Ht [He1 _]]].
  destruct Hspan as [Hs He].
  unfold autolink_delim, delim_trim. rewrite Ht. cbn [bind].
  assert (Hloop : trim_loop data (set_end link e1) <> NoFuel).
  { unfold trim_loop.
    apply (loop_fuel (trim_step data)
             (fun l => start l = start link /\ end_ l <= e1)
             (fun l => Z.to_nat (end_ l))).
    - intros l [Hl1 Hl2]. apply trim_step_fuel; [exact Hok | split; lia].
    - intros l l' [Hl1 Hl2] Hstep.
      destruct (trim_step_Continue data l l' Hok) as [H1 H2]; [split; lia | exact Hstep |].
      split; [split; lia | lia].
    - simpl. split; [reflexivity | lia].
    - simpl. apply bound_len. lia. }
  destruct (trim_loop data (set_end link e1)) as [l1 | | |] eqn:El; cbn [bind];
    try discriminate; [|contradiction].
  destruct (trim_loop_spec data (set_end link e1) l1 Hok) as [H1 [H2 _]];
    [split; simpl; lia | exact El |].
  simpl in H1, H2.
  unfold delim_balance. destruct (end_ l1 =? start l1); [discriminate|].
  destruct (read data (size_t (end_ l1 - 1))) as [c | | |] eqn:Er; cbn [bind];
    try discriminate; [|exfalso; exact (read_fuel _ _ Er)].
  destruct (negb (copen_of c =? 0)); [|discriminate].
  rewrite (count_brackets_spec data l1 (copen_of c) c Hok) by (split; lia).
  cbn [bind]. destruct (negb _); discriminate.
Qed.

Lemma trim_loop_nonneg (data : buffer) (link r : autolink_pos) :
  buffer_ok data -> span_ok data link -> 0 <= end_ link ->
  trim_loop data link = Ret r -> 0 <= end_ r.
Proof.
  intros Hok [Hs He] H0 H. unfold trim_loop in H.
  apply (loop_partial (trim_step data)
           (fun l => start l = start link /\ end_ l <= end_ link /\ 0 <= end_ l)
           (fun r => 0 <= end_ r))
    with (fuel := bound data) (s := link).
  - intros l l' [Hl1 [Hl2 Hl3]] Hstep.
    destruct (trim_step_Continue data l l' Hok) as [H1 H2]; [split; lia | exact Hstep |].
    lia.
  - intros l r' [Hl1 [Hl2 Hl3]] Hstep.
    destruct (trim_step_Break data l r' Hok) as [-> _]; [split; lia | exact Hstep |].
    exact Hl3.
  - lia.
  - exact H.
Qed.

(** What [delim_balance] returns, when it returns. *)
Lemma delim_balance_Ret (data : buffer) (l1 l : autolink_pos) (b : bool) :
  buffer_ok data -> span_ok data l1 -> 0 <= end_ l1 ->
  delim_balance data l1 = Ret (b, l) ->
  start l = start l1 /\
  (b = false -> l = l1 /\ end_ l1 = start l1) /\
  (b = true -> end_ l1 <> start l1 /\ 1 <= end_ l1 /\
               (end_ l = end_ l1 \/ end_ l = end_ l1 - 1)).
Proof.
  intros Hok [Hs He] H0 H. unfold buffer_ok in Hok. unfold delim_balance in H.
  destruct (end_ l1 =? start l1) eqn:Eemp.
  { inversion H; subst. split; [reflexivity|]. split; [intros _; split; [reflexivity | lia]|].
    discriminate. }
  apply bind_Ret in H. destruct H as [c [Hc H]]. apply read_Ret in Hc.
  assert (H1 : 1 <= end_ l1).
  { destruct (Z.eq_dec (end_ l1) 0) as [E0|]; [|lia].
    rewrite E0 in Hc. change (size_t (0 - 1)) with SIZE_MAX in Hc.
    apply byte_at_len in Hc. lia. }
  rewrite size_t_small in H by lia.
  assert (Hres : b = true /\ start l = start l1 /\
                 (end_ l = end_ l1 \/ end_ l = end_ l1 - 1)).
  { destruct (negb (copen_of c =? 0)).
    - apply bind_Ret in H. destruct H as [[o cl] [_ H]].
      destruct (negb (cl =? o)); inversion H; subst; simpl; auto.
    - inversion H; subst. auto. }
  destruct Hres as [-> [Hst Hen]].
  split; [exact Hst|]. split; [discriminate|]. intros _. split; [lia|]. split; [lia | exact Hen].
Qed.


(* ================================================================= *)
(** * Spans that [autolink_delim] cannot empty *)

(** A byte that neither loop nor the balance step removes from the end. *)
Definition solid (c : Z) : Prop :=
  strchr "?!.,:" c = false /\ c <> chr ";" /\ copen_of c = 0.

(** The three matchers hand [autolink_delim] a span whose first bytes it
    cannot trim away: up to offset [k] there is no ['<']; the byte before
    [k] is [solid]; and the walk to the left of a character reference is
    stopped at offset [j] before it could find a ['&'] below [k]. *)
Record anchored (data : buffer) (s k j : Z) : Prop := {
  anch_range : 0 <= s < k /\ 0 <= j <= k;
  anch_nolt : forall i c, s <= i < k -> byte_at data i = Some c -> c <> chr "<";
  anch_solid : exists c, byte_at data (k - 1) = Some c /\ solid c;
  anch_bar : exists c, byte_at data j = Some c /\ isalpha c = false;
  anch_noamp : forall i c, j <= i < k -> byte_at data i = Some c -> c <> chr "&";
  anch_nosemi : forall i c, k - 1 <= i <= j -> byte_at data i = Some c -> c <> chr ";"
}.

Lemma trim_loop_anchored (data : buffer) (s e k j : Z) :
  buffer_ok data -> anchored data s k j -> k <= e <= len data ->
  exists e', trim_loop data {| start := s; end_ := e |} = Ret {| start := s; end_ := e' |} /\
             k <= e' <= e.
Proof.
  intros Hok [[Hsk Hjk] Hnolt [ck [Hck [Hk1 [Hk2 Hk3]]]] [cj [Hcj Hja]] Hnoamp Hnosemi] He.
  pose proof Hok as Hok'. unfold buffer_ok in Hok'.
  unfold trim_loop.
  destruct (loop_total (trim_step data)
    (fun l => start l = s /\ k <= end_ l <= e)
    (fun l => start l = s /\ k <= end_ l <= e)
    (fun l => Z.to_nat (end_ l))) with (fuel := bound data)
    (s := {| start := s; end_ := e |}) as [[s' e'] [E [Hs' He']]].
  - intros l [Hl1 Hl2].
    destruct (byte_at_in data (end_ l - 1) ltac:(lia)) as [c Hc].
    assert (Hlast : end_ l - 1 = k - 1 -> c = ck).
    { intros Heq. rewrite Heq in Hc. rewrite Hck in Hc. inversion Hc; reflexivity. }
    destruct (strchr "?!.,:" c) eqn:Ep; [| destruct (Z.eq_dec c (chr ";")) as [Esc|Esc]].
    + left. eexists. split; [apply (trim_step_punct data l c); auto; lia|].
      simpl. assert (end_ l - 1 <> k - 1) by (intros Heq; apply Hlast in Heq; congruence).
      lia.
    + subst c.
      assert (end_ l - 1 <> k - 1) by (intros Heq; apply Hlast in Heq; congruence).
      assert (j < end_ l - 1).
      { destruct (Z_lt_le_dec j (end_ l - 1)); [assumption|].
        exfalso. apply (Hnosemi (end_ l - 1) _ ltac:(lia) Hc). reflexivity. }
      destruct (trim_step_semicolon data l Hok ltac:(lia) ltac:(lia) Hc)
        as [y [cy [Hy [Hal [_ [Hcy Hstep]]]]]].
      assert (j <= y).
      { destruct (Z_le_gt_dec j y); [assumption|].
        rewrite (Hal j cj ltac:(lia) Hcj) in Hja. discriminate. }
      left. eexists. split; [exact Hstep|]. simpl.
      destruct ((y <? end_ l - 2) && (cy =? chr "&")) eqn:Eamp; [|lia].
      assert (k <= y).
      { destruct (Z_le_gt_dec k y); [assumption|].
        exfalso. apply (Hnoamp y cy ltac:(lia) Hcy). lia. }
      lia.
    + right. eexists. split; [|split; [exact Hl1 | exact Hl2]].
      apply trim_step_done; [exact Hok|]. right. exists c. auto.
  - simpl. lia.
  - simpl. apply bound_len. lia.
  - simpl in Hs'. subst s'. exists e'. split; [exact E | exact He'].
Qed.

Lemma delim_anchored (data : buffer) (s e k j : Z) :
  buffer_ok data -> anchored data s k j -> k <= e <= len data ->
  exists e', autolink_delim data {| start := s; end_ := e |}
               = Ret (true, {| start := s; end_ := e' |}) /\
             k <= e' <= e.
Proof.
  intros Hok Hanch He. pose proof Hanch as Hanch'.
  destruct Hanch' as [[Hsk Hjk] Hnolt [ck [Hck [Hk1 [Hk2 Hk3]]]] _ _ _].
  unfold autolink_delim, delim_trim.
  destruct (delim_truncate_spec data {| start := s; end_ := e |} Hok)
    as [e1 [Ht [He1 [_ [_ Hlt]]]]]; [split; simpl; lia|].
  simpl in *. rewrite Ht. cbn [bind]. unfold set_end. simpl.
  assert (k <= e1).
  { destruct (Z_le_gt_dec k e1); [assumption|].
    destruct Hlt as [Hse Hb]; [lia|]. exfalso. apply (Hnolt e1 _ ltac:(lia) Hb). reflexivity. }
  destruct (trim_loop_anchored data s e1 k j Hok Hanch ltac:(lia)) as [e2 [Hloop He2]].
  rewrite Hloop. cbn [bind].
  destruct (byte_at_in data (e2 - 1) ltac:(lia)) as [c Hc].
  rewrite (delim_balance_spec data {| start := s; end_ := e2 |} c Hok);
    [| split; simpl; lia | simpl; lia | exact Hc].
  simpl.
  destruct (negb (copen_of c =? 0) &&
            negb ((if c =? copen_of c then 0
                   else occurrences c (span_bytes data {| start := s; end_ := e2 |})) =?
                  occurrences (copen_of c) (span_bytes data {| start := s; end_ := e2 |})))
    eqn:Edrop.
  - exists (e2 - 1). split; [reflexivity|].
    assert (e2 - 1 <> k - 1).
    { intros Heq. rewrite Heq in Hc. rewrite Hck in Hc. inversion Hc; subst.
      rewrite Hk3 in Edrop. discriminate. }
    lia.
  - exists e2. split; [reflexivity | lia].
Qed.

(* ================================================================= *)
(** * [check_domain] and the loops of the matchers *)

(** A byte of a host name: alphanumeric, ['-'] or ['.']. *)
Definition is_domain_byte (c : Z) : bool :=
  isalnum c || (c =? chr "-") || (c =? chr ".").

(** Where the scan of [check_domain] stops: at the first byte from
    [from] on that is no byte of a host name and lies before [size - 1];
    without such a byte, at [size - 1], or at [from] when that is larger. *)
Definition domain_stop (data : buffer) (size from e : Z) : Prop :=
  from <= e <= Z.max from (size - 1) /\
  (forall i c, from <= i < e -> byte_at data i = Some c -> is_domain_byte c = true) /\
  (e < size - 1 -> exists c, byte_at data e = Some c /\ is_domain_byte c = false).

Lemma domain_scan_spec (data : buffer) (size : Z) (link : autolink_pos) :
  buffer_ok data -> size <= len data -> 0 <= start link < size ->
  exists e,
    domain_scan data size link
      = Ret (e, occurrences (chr ".") (slice data (start link + 1) e)) /\
    domain_stop data size (start link + 1) e.
Proof.
  intros Hok Hsize Hs. unfold buffer_ok in Hok. unfold domain_scan, domain_stop.
  rewrite !size_t_small by lia.
  match goal with |- context [loop _ ?b _] => set (body := b) end.
  set (from := start link + 1).
  destruct (loop_total body
    (fun '(i, np) => from <= i <= Z.max from (size - 1) /\
        (forall x c, from <= x < i -> byte_at data x = Some c -> is_domain_byte c = true) /\
        np = occurrences (chr ".") (slice data from i))
    (fun '(e, np) => np = occurrences (chr ".") (slice data from e) /\
        from <= e <= Z.max from (size - 1) /\
        (forall x c, from <= x < e -> byte_at data x = Some c -> is_domain_byte c = true) /\
        (e < size - 1 -> exists c, byte_at data e = Some c /\ is_domain_byte c = false))
    (fun '(i, _) => Z.to_nat (size - i))) with (fuel := bound data)
    (s := (from, 0)) as [[e np] [E [-> H]]].
  - intros [i np] [Hi [Hdom Hnp]]. unfold body.
    destruct (i <? size - 1) eqn:Elt.
    + destruct (byte_at_in data i ltac:(lia)) as [c Hc].
      rewrite (read_byte_at _ _ _ Hc). cbn [bind].
      assert (Hi1 : size_t (i + 1) = i + 1) by (apply size_t_small; lia).
      pose proof (slice_snoc data from i c ltac:(lia) Hc) as Hsn.
      pose proof (occurrences_bound (chr ".") (slice data from i)) as Bo.
      pose proof (slice_length data from i) as Bl.
      assert (Hstep : forall x c', from <= x < i + 1 -> byte_at data x = Some c' ->
                 is_domain_byte c = true -> is_domain_byte c' = true).
      { intros x c' Hx Hc' Hd. destruct (Z.eq_dec x i) as [->|Hne].
        - rewrite Hc in Hc'. inversion Hc'; subst. exact Hd.
        - apply (Hdom x c'); [lia | exact Hc']. }
      destruct (c =? chr ".") eqn:Edot;
        [| destruct (negb (isalnum c) && negb (c =? chr "-")) eqn:Estop].
      * left. eexists. split; [reflexivity|]. cbv beta iota. rewrite Hi1, Hsn.
        rewrite occurrences_snoc, Edot. subst np. rewrite size_t_small by lia.
        split; [|lia]. split; [lia|]. split; [|reflexivity].
        intros x c' Hx Hc'. apply (Hstep x c' Hx Hc'). unfold is_domain_byte. lia.
      * right. eexists. split; [reflexivity|]. cbv beta iota.
        split; [exact Hnp|]. split; [lia|]. split; [exact Hdom|].
        intros _. exists c. split; [exact Hc|]. unfold is_domain_byte. lia.
      * left. eexists. split; [reflexivity|]. cbv beta iota. rewrite Hi1, Hsn.
        rewrite occurrences_snoc, Edot. subst np.
        split; [|lia]. split; [lia|]. split; [|lia].
        intros x c' Hx Hc'. apply (Hstep x c' Hx Hc'). unfold is_domain_byte. lia.
    + right. eexists. split; [reflexivity|]. cbv beta iota.
      split; [exact Hnp|]. split; [lia|]. split; [exact Hdom|]. lia.
  - cbv beta iota. split; [lia|]. split; [intros x c Hx; lia|].
    rewrite slice_empty by lia. reflexivity.
  - cbv beta iota. apply bound_len. lia.
  - exists e. split; [exact E | exact H].
Qed.

Lemma check_domain_reject (data : buffer) (size : Z) (link : autolink_pos)
    (allow_short : bool) (c : Z) :
  byte_at data (start link) = Some c -> isalnum c = false ->
  check_domain data size link allow_short = Ret (false, link).
Proof.
  intros Hc Hna. unfold check_domain. rewrite (read_byte_at _ _ _ Hc). cbn [bind].
  rewrite Hna. reflexivity.
Qed.

Lemma check_domain_scan (data : buffer) (size : Z) (link : autolink_pos)
    (allow_short : bool) (c : Z) :
  buffer_ok data -> size <= len data -> 0 <= start link < size ->
  byte_at data (start link) = Some c -> isalnum c = true ->
  exists e,
    domain_stop data size (start link + 1) e /\
    check_domain data size link allow_short
      = Ret (allow_short || (0 <? occurrences (chr ".") (slice data (start link + 1) e)),
             set_end link e).
Proof.
  intros Hok Hsize Hs Hc Ha.
  destruct (domain_scan_spec data size link Hok Hsize Hs) as [e [Hscan Hstop]].
  exists e. split; [exact Hstop|].
  unfold check_domain. rewrite (read_byte_at _ _ _ Hc). cbn [bind].
  rewrite Ha. cbn [negb]. rewrite Hscan. cbn [bind].
  destruct allow_short; reflexivity.
Qed.

(** The walk of the end of the span to the right, up to the next white
    space or the end of the buffer. *)
Definition nonspace_stop (data : buffer) (size from e : Z) : Prop :=
  from <= e <= size /\
  (forall i c, from <= i < e -> byte_at data i = Some c -> isspace c = false) /\
  (e < size -> exists c, byte_at data e = Some c /\ isspace c = true).

Lemma skip_nonspace_spec (data : buffer) (size : Z) (link : autolink_pos) :
  buffer_ok data -> size <= len data -> 0 <= end_ link <= size ->
  exists e,
    skip_nonspace data size link = Ret (set_end link e) /\
    nonspace_stop data size (end_ link) e.
Proof.
  intros Hok Hsize He. unfold buffer_ok in Hok. unfold skip_nonspace, nonspace_stop.
  match goal with |- context [loop _ ?b _] => set (body := b) end.
  destruct (loop_total body
    (fun e => end_ link <= e <= size /\
        forall x c, end_ link <= x < e -> byte_at data x = Some c -> isspace c = false)
    (fun r => exists e, r = set_end link e /\ end_ link <= e <= size /\
        (forall x c, end_ link <= x < e -> byte_at data x = Some c -> isspace c = false) /\
        (e < size -> exists c, byte_at data e = Some c /\ isspace c = true))
    (fun e => Z.to_nat (size - e))) with (fuel := bound data)
    (s := end_ link) as [r [E [e [-> H]]]].
  - intros e [Hi Hns]. unfold body.
    destruct (e <? size) eqn:Elt.
    + destruct (byte_at_in data e ltac:(lia)) as [c Hc].
      rewrite (read_byte_at _ _ _ Hc). cbn [bind].
      destruct (isspace c) eqn:Esp; cbn [negb].
      * right. eexists. split; [reflexivity|]. exists e.
        split; [reflexivity|]. split; [lia|]. split; [exact Hns|].
        intros _. eauto.
      * left. eexists. split; [reflexivity|]. rewrite size_t_small by lia.
        split; [|lia]. split; [lia|].
        intros x c' Hx Hc'. destruct (Z.eq_dec x e) as [->|Hne].
        -- rewrite Hc in Hc'. inversion Hc'; subst. exact Esp.
        -- apply (Hns x c'); [lia | exact Hc'].
    + right. eexists. split; [reflexivity|]. exists e.
      split; [reflexivity|]. split; [lia|]. split; [exact Hns|]. lia.
  - split; [lia|]. intros x c Hx; lia.
  - apply bound_len. lia.
  - exists e. split; [exact E | exact H].
Qed.

(** The walk of the start of the span to the left over the letters of a
    scheme. *)
Definition scheme_start (data : buffer) (pos s : Z) : Prop :=
  0 <= s <= pos /\
  (forall i c, s <= i < pos -> byte_at data i = Some c -> isalpha c = true) /\
  (s = 0 \/ exists c, byte_at data (s - 1) = Some c /\ isalpha c = false).

Lemma url_rewind_spec (data : buffer) (link : autolink_pos) :
  buffer_ok data -> 0 <= start link <= len data ->
  exists s,
    url_rewind data link = Ret (set_start link s) /\
    scheme_start data (start link) s.
Proof.
  intros Hok Hs. unfold buffer_ok in Hok. unfold url_rewind, scheme_start.
  match goal with |- context [loop _ ?b _] => set (body := b) end.
  destruct (loop_total body
    (fun s => 0 <= s <= start link /\
        forall x c, s <= x < start link -> byte_at data x = Some c -> isalpha c = true)
    (fun r => exists s, r = set_start link s /\ 0 <= s <= start link /\
        (forall x c, s <= x < start link -> byte_at data x = Some c -> isalpha c = true) /\
        (s = 0 \/ exists c, byte_at data (s - 1) = Some c /\ isalpha c = false))
    (fun s => Z.to_nat s)) with (fuel := bound data)
    (s := start link) as [r [E [s [-> H]]]].
  - intros s [Hi Hal]. unfold body.
    destruct (s =? 0) eqn:Ez; cbn [negb].
    + right. eexists. split; [reflexivity|]. exists s.
      split; [reflexivity|]. split; [lia|]. split; [exact Hal|]. left. lia.
    + destruct (byte_at_in data (s - 1) ltac:(lia)) as [c Hc].
      rewrite size_t_small by lia.
      rewrite (read_byte_at _ _ _ Hc). cbn [bind].
      destruct (isalpha c) eqn:Ea.
      * left. eexists. split; [reflexivity|].
        split; [|lia]. split; [lia|].
        intros x c' Hx Hc'. destruct (Z.eq_dec x (s - 1)) as [->|Hne].
        -- rewrite Hc in Hc'. inversion Hc'; subst. exact Ea.
        -- apply (Hal x c'); [lia | exact Hc'].
      * right. eexists. split; [reflexivity|]. exists s.
        split; [reflexivity|]. split; [lia|]. split; [exact Hal|]. right. eauto.
  - split; [lia|]. intros x c Hx; lia.
  - apply bound_len. lia.
  - exists s. split; [exact E | exact H].
Qed.

(* ================================================================= *)
(** * [autolink_issafe] *)

(** [link] begins with [uri], letters compared without regard to case. *)
Definition begins_nocase (link : buffer) (uri : string) : Prop :=
  map tolower (firstn (String.length uri) link) = map tolower (bytes uri).

(** The three conditions of the specification for one prefix of the
    whitelist: the slice begins with it, is longer than it, and the byte
    after it is alphanumeric. *)
Definition safe_with (link : buffer) (link_len : Z) (uri : string) : Prop :=
  begins_nocase link uri /\
  strlen uri < link_len /\
  exists c, byte_at link (strlen uri) = Some c /\ isalnum c = true.

Lemma bytes_length (s : string) : List.length (bytes s) = String.length s.
Proof.
  unfold bytes. rewrite length_map. induction s as [|a s IH]; simpl; congruence.
Qed.

Lemma skipn_nth_error {A : Type} (l : list A) (n : nat) (c : A) :
  nth_error l n = Some c -> skipn n l = c :: skipn (S n) l.
Proof.
  revert n. induction l as [|a l IH]; intros [|n] H; simpl in *; try discriminate.
  - inversion H; reflexivity.
  - apply IH. exact H.
Qed.

Lemma skipn_byte_at (data : buffer) (i c : Z) :
  byte_at data i = Some c ->
  skipn (Z.to_nat i) data = c :: skipn (Z.to_nat (i + 1)) data.
Proof.
  intros H. pose proof (byte_at_len _ _ _ H).
  replace (Z.to_nat (i + 1)) with (S (Z.to_nat i)) by lia.
  apply skipn_nth_error. apply byte_at_nth. exact H.
Qed.

Lemma tolower_zero (c : Z) : tolower c = 0 -> c = 0.
Proof. unfold tolower. destruct (isupper c) eqn:E; ctype. Qed.

Lemma strncasecmp_eq_spec (s2 : list Z) :
  Forall (fun c => c <> 0) s2 ->
  forall (link : buffer) (off : Z),
    0 <= off -> off + Z.of_nat (List.length s2) <= len link ->
    exists b,
      strncasecmp_eq link off s2 = Ret b /\
      (b = true <->
       map tolower (firstn (List.length s2) (skipn (Z.to_nat off) link)) = map tolower s2).
Proof.
  induction 1 as [|c2 s2 Hc2 Hs2 IH]; intros link off Hoff Hlen.
  - exists true. simpl. tauto.
  - simpl in Hlen. destruct (byte_at_in link off ltac:(simpl; lia)) as [c1 Hc1].
    cbn [strncasecmp_eq]. rewrite (read_byte_at _ _ _ Hc1). cbn [bind].
    rewrite (skipn_byte_at _ _ _ Hc1). cbn [List.length firstn map].
    destruct (tolower c1 =? tolower c2) eqn:Eq.
    + assert ((c1 =? 0) = false) as ->.
      { destruct (Z.eq_dec c1 0) as [->|]; [|lia].
        exfalso. apply Hc2. apply tolower_zero. change (tolower 0) with 0 in Eq. lia. }
      destruct (IH link (off + 1) ltac:(lia) ltac:(lia)) as [b [Hb Hiff]].
      exists b. split; [exact Hb|]. rewrite Hiff. split.
      * intros ->. f_equal. lia.
      * intros H. inversion H. reflexivity.
    + exists false. split; [reflexivity|]. split; [discriminate|].
      intros H. inversion H. lia.
Qed.

Lemma issafe_from_spec (uris : list string) :
  Forall (fun uri => Forall (fun c => c <> 0) (bytes uri)) uris ->
  forall (link : buffer) (link_len : Z),
    link_len <= len link ->
    exists b,
      issafe_from uris link link_len = Ret b /\
      (b = true <-> exists uri, In uri uris /\ safe_with link link_len uri).
Proof.
  induction 1 as [|uri rest Huri Hrest IH]; intros link link_len Hlen.
  - exists false. split; [reflexivity|]. split; [discriminate|].
    intros [uri [[] _]].
  - destruct (IH link link_len Hlen) as [b [Hb Hiff]].
    assert (Hskip : ~ safe_with link link_len uri ->
             (b = true <-> exists u, In u (uri :: rest) /\ safe_with link link_len u)).
    { intros Hno. rewrite Hiff. split.
      - intros [u [Hin Hu]]. exists u. split; [right; exact Hin | exact Hu].
      - intros [u [[<-|Hin] Hu]]; [contradiction | eauto]. }
    cbn [issafe_from]. cbv zeta.
    destruct (strlen uri <? link_len) eqn:Elt.
    + destruct (strncasecmp_eq_spec (bytes uri) Huri link 0 ltac:(lia)) as [same [Hsame Hbeg]].
      { rewrite bytes_length. unfold strlen in Elt. lia. }
      rewrite bytes_length in Hbeg. change (Z.to_nat 0) with O in Hbeg. cbn [skipn] in Hbeg.
      rewrite Hsame. cbn [bind].
      destruct same.
      * destruct (byte_at_in link (strlen uri)) as [c Hc]; [unfold strlen in *; lia|].
        rewrite (read_byte_at _ _ _ Hc). cbn [bind].
        destruct (isalnum c) eqn:Ea.
        -- exists true. split; [reflexivity|]. split; [|reflexivity].
           intros _. exists uri. split; [left; reflexivity|].
           split; [apply Hbeg; reflexivity|]. split; [lia|]. eauto.
        -- exists b. split; [exact Hb|]. apply Hskip.
           intros [_ [_ [c' [Hc' Ha']]]]. rewrite Hc in Hc'. inversion Hc'; subst. congruence.
      * exists b. split; [exact Hb|]. apply Hskip.
        intros [Hbg _]. apply Hbeg in Hbg. discriminate.
    + exists b. split; [exact Hb|]. apply Hskip.
      intros [_ [Hl _]]. lia.
Qed.

Lemma valid_uris_no_nul : Forall (fun uri => Forall (fun c => c <> 0) (bytes uri)) valid_uris.
Proof. repeat constructor; vm_compute; discriminate. Qed.

Lemma autolink_issafe_total (link : buffer) (link_len : Z) :
  link_len <= len link -> exists b, autolink_issafe link link_len = Ret b.
Proof.
  intros H. destruct (issafe_from_spec valid_uris valid_uris_no_nul link link_len H) as [b [Hb _]].
  exists b. exact Hb.
Qed.

(* ================================================================= *)
(** * The loops of [autolink__email] *)

(** A byte the first loop of [autolink__email] walks over. *)
Definition is_local_byte (c : Z) : bool := isalnum c || strchr ".+-_" c.

(** A byte the second loop walks over. *)
Definition is_address_byte (c : Z) : bool :=
  isalnum c || (c =? chr "@") || (c =? chr ".") || (c =? chr "-") || (c =? chr "_").

Lemma email_rewind_spec (data : buffer) (pos : Z) :
  buffer_ok data -> 0 <= pos <= len data ->
  exists s,
    email_rewind data pos = Ret s /\
    0 <= s <= pos /\
    (forall i c, s <= i < pos -> byte_at data i = Some c -> is_local_byte c = true) /\
    (s = 0 \/ exists c, byte_at data (s - 1) = Some c /\ is_local_byte c = false).
Proof.
  intros Hok Hpos. unfold buffer_ok in Hok. unfold email_rewind.
  match goal with |- context [loop _ ?b _] => set (body := b) end.
  destruct (loop_total body
    (fun s => 0 <= s <= pos /\
        forall x c, s <= x < pos -> byte_at data x = Some c -> is_local_byte c = true)
    (fun s => 0 <= s <= pos /\
        (forall x c, s <= x < pos -> byte_at data x = Some c -> is_local_byte c = true) /\
        (s = 0 \/ exists c, byte_at data (s - 1) = Some c /\ is_local_byte c = false))
    (fun s => Z.to_nat s)) with (fuel := bound data) (s := pos) as [s [E H]].
  - intros s [Hi Hloc]. unfold body.
    destruct (0 <? s) eqn:Ez.
    + destruct (byte_at_in data (s - 1) ltac:(lia)) as [c Hc].
      rewrite size_t_small by lia.
      rewrite (read_byte_at _ _ _ Hc). cbn [bind].
      assert (Hstep : is_local_byte c = true ->
                forall x c', s - 1 <= x < pos -> byte_at data x = Some c' ->
                             is_local_byte c' = true).
      { intros Hl x c' Hx Hc'. destruct (Z.eq_dec x (s - 1)) as [->|Hne].
        - rewrite Hc in Hc'. inversion Hc'; subst. exact Hl.
        - apply (Hloc x c'); [lia | exact Hc']. }
      destruct (isalnum c) eqn:Ea; [| destruct (strchr ".+-_" c) eqn:Es].
      * left. eexists. split; [reflexivity|]. split; [|lia]. split; [lia|].
        apply Hstep. unfold is_local_byte. rewrite Ea. reflexivity.
      * left. eexists. split; [reflexivity|]. split; [|lia]. split; [lia|].
        apply Hstep. unfold is_local_byte. rewrite Ea, Es. reflexivity.
      * right. eexists. split; [reflexivity|]. split; [lia|]. split; [exact Hloc|].
        right. exists c. split; [exact Hc|]. unfold is_local_byte. rewrite Ea, Es. reflexivity.
    + right. eexists. split; [reflexivity|]. split; [lia|]. split; [exact Hloc|]. left. lia.
  - split; [lia|]. intros x c Hx; lia.
  - apply bound_len. lia.
  - exists s. split; [exact E | exact H].
Qed.

Lemma int_incr_Ret (n n' : Z) : int_incr n = Ret n' -> n' = n + 1.
Proof. unfold int_incr. destruct (n <? INT_MAX); intros H; inversion H; reflexivity. Qed.

Lemma email_scan_spec (data : buffer) (pos size e nb np : Z) :
  buffer_ok data -> 0 <= pos <= size -> size <= len data ->
  email_scan data pos size = Ret (e, nb, np) ->
  pos <= e <= size /\
  (forall i c, pos <= i < e -> byte_at data i = Some c -> is_address_byte c = true) /\
  (0 < nb -> exists q, pos <= q < e /\ byte_at data q = Some (chr "@")).
Proof.
  intros Hok Hpos Hsize H. unfold buffer_ok in Hok. unfold email_scan in H.
  revert H. match goal with |- context [loop _ ?b _] => set (body := b) end. intros H.
  set (P := fun st : Z * Z * Z =>
     let '(e, nb, _) := st in
     pos <= e <= size /\
     (forall i c, pos <= i < e -> byte_at data i = Some c -> is_address_byte c = true) /\
     (0 < nb -> exists q, pos <= q < e /\ byte_at data q = Some (chr "@"))).
  change (P (e, nb, np)).
  apply (loop_partial body (fun st => P st /\ 0 <= snd (fst st)) P)
    with (fuel := bound data) (s := (pos, 0, 0)); [| | | exact H].
  - intros [[e0 nb0] np0] [[e1 nb1] np1] [[He0 [Hadr Hat]] Hnb] Hstep. unfold body in Hstep.
    cbn [fst snd] in *.
    destruct (e0 <? size) eqn:Elt; [|discriminate].
    apply bind_Ret in Hstep. destruct Hstep as [c [Hc Hstep]]. apply read_Ret in Hc.
    assert (He1 : size_t (e0 + 1) = e0 + 1) by (apply size_t_small; lia).
    rewrite He1 in Hstep.
    assert (Hgrow : is_address_byte c = true ->
              forall i c', pos <= i < e0 + 1 -> byte_at data i = Some c' ->
                           is_address_byte c' = true).
    { intros Hl x c' Hx Hc'. destruct (Z.eq_dec x e0) as [->|Hne].
      - rewrite Hc in Hc'. inversion Hc'; subst. exact Hl.
      - apply (Hadr x c'); [lia | exact Hc']. }
    assert (Hkeep : 0 < nb0 -> exists q, pos <= q < e0 + 1 /\ byte_at data q = Some (chr "@")).
    { intros Hp. destruct (Hat Hp) as [q [Hq Hqa]]. exists q. split; [lia | exact Hqa]. }
    destruct (isalnum c) eqn:Ea.
    { inversion Hstep; subst. split; [|exact Hnb].
      split; [lia|]. split; [|exact Hkeep].
      apply Hgrow. unfold is_address_byte. rewrite Ea. reflexivity. }
    destruct (c =? chr "@") eqn:Eat.
    { apply bind_Ret in Hstep. destruct Hstep as [nb' [Hnb' Hstep]].
      apply int_incr_Ret in Hnb'. inversion Hstep; subst. split; [|lia].
      split; [lia|]. split.
      - apply Hgrow. unfold is_address_byte. rewrite Eat. rewrite !orb_true_r. reflexivity.
      - intros _. exists e0. split; [lia|]. rewrite Hc. f_equal. lia. }
    destruct ((c =? chr ".") && (e0 <? size_t (size - 1))) eqn:Edot.
    { apply bind_Ret in Hstep. destruct Hstep as [np' [_ Hstep]].
      inversion Hstep; subst. split; [|exact Hnb].
      split; [lia|]. split; [|exact Hkeep].
      apply Hgrow. unfold is_address_byte. apply andb_prop in Edot. destruct Edot as [-> _].
      rewrite !orb_true_r. reflexivity. }
    destruct (negb (c =? chr "-") && negb (c =? chr "_")) eqn:Estop; [discriminate|].
    inversion Hstep; subst. split; [|exact Hnb].
    split; [lia|]. split; [|exact Hkeep].
    apply Hgrow. unfold is_address_byte. lia.
  - intros [[e0 nb0] np0] [[e1 nb1] np1] [[He0 [Hadr Hat]] Hnb] Hstep. unfold body in Hstep.
    destruct (e0 <? size) eqn:Elt.
    + apply bind_Ret in Hstep. destruct Hstep as [c [Hc Hstep]].
      destruct (isalnum c); [discriminate|].
      destruct (c =? chr "@").
      { apply bind_Ret in Hstep. destruct Hstep as [? [_ Hstep]]. discriminate. }
      destruct ((c =? chr ".") && (e0 <? size_t (size - 1))).
      { apply bind_Ret in Hstep. destruct Hstep as [? [_ Hstep]]. discriminate. }
      destruct (negb (c =? chr "-") && negb (c =? chr "_")); [|discriminate].
      inversion Hstep; subst. split; [lia|]. split; assumption.
    + inversion Hstep; subst. split; [lia|]. split; assumption.
  - cbn [fst snd]. split; [|lia]. split; [lia|]. split; [intros i c Hi; lia | lia].
Qed.

(* ================================================================= *)
(** * [autolink__www] *)

Lemma memcmp_eq_spec (s : list Z) :
  forall (data : buffer) (off : Z),
    0 <= off -> off + Z.of_nat (List.length s) <= len data ->
    exists b,
      memcmp_eq data off s = Ret b /\
      (b = true <-> slice data off (off + Z.of_nat (List.length s)) = s).
Proof.
  unfold slice. induction s as [|c s IH]; intros data off Hoff Hlen.
  - exists true. simpl. replace (Z.to_nat (off + 0 - off)) with O by lia. simpl. tauto.
  - cbn [List.length] in *.
    destruct (byte_at_in data off ltac:(lia)) as [d Hd].
    destruct (IH data (off + 1) ltac:(lia) ltac:(lia)) as [b [Hb Hiff]].
    cbn [memcmp_eq]. rewrite (read_byte_at _ _ _ Hd). cbn [bind]. rewrite Hb. cbn [bind].
    exists ((d =? c) && b). split; [reflexivity|].
    replace (Z.to_nat (off + Z.of_nat (S (List.length s)) - off)) with (S (List.length s)) by lia.
    replace (Z.to_nat (off + 1 + Z.of_nat (List.length s) - (off + 1))) with (List.length s)
      in Hiff by lia.
    rewrite (skipn_byte_at _ _ _ Hd). cbn [firstn].
    rewrite andb_true_iff, Hiff. split.
    + intros [Hdc ->]. f_equal. lia.
    + intros H. injection H as Hdc Hrest. split; [lia | exact Hrest].
Qed.

Lemma slice_cons (data : buffer) (s e c : Z) (l : list Z) :
  0 <= s -> slice data s e = c :: l ->
  byte_at data s = Some c /\ slice data (s + 1) e = l.
Proof.
  intros Hs H. unfold slice in *.
  destruct (Z_lt_le_dec s (len data)) as [Hin | Hout].
  - destruct (byte_at_in data s ltac:(lia)) as [d Hd].
    rewrite (skipn_byte_at _ _ _ Hd) in H.
    destruct (Z.to_nat (e - s)) as [|n] eqn:En; [discriminate|].
    cbn [firstn] in H. inversion H; subst.
    split; [exact Hd|]. f_equal. lia.
  - rewrite skipn_all2 in H by (unfold len in Hout; lia).
    rewrite firstn_nil in H. discriminate.
Qed.

(** The bytes of a buffer that holds ["www."] at [pos]. *)
Lemma slice_www (data : buffer) (pos : Z) :
  0 <= pos -> slice data pos (pos + 4) = bytes "www." ->
  byte_at data pos = Some (chr "w") /\ byte_at data (pos + 1) = Some (chr "w") /\
  byte_at data (pos + 2) = Some (chr "w") /\ byte_at data (pos + 3) = Some (chr ".").
Proof.
  intros Hpos H. change (bytes "www.") with [chr "w"; chr "w"; chr "w"; chr "."] in H.
  apply slice_cons in H; [|lia]. destruct H as [H0 H].
  apply slice_cons in H; [|lia]. destruct H as [H1 H].
  apply slice_cons in H; [|lia]. destruct H as [H2 H].
  apply slice_cons in H; [|lia]. destruct H as [H3 _].
  replace (pos + 1 + 1) with (pos + 2) in * by lia.
  replace (pos + 2 + 1) with (pos + 3) in * by lia.
  auto.
Qed.

(** A [www.] that follows a byte which is neither punctuation nor white
    space is no link. *)
Lemma www_glued (link : autolink_pos) (data : buffer) (pos size flags c : Z) :
  buffer_ok data -> 0 < pos ->
  byte_at data (pos - 1) = Some c -> ispunct c = false -> isspace c = false ->
  autolink__www link data pos size flags = Ret (false, link).
Proof.
  intros Hok Hpos Hc Hp Hs. unfold buffer_ok in Hok. pose proof (byte_at_len _ _ _ Hc).
  unfold autolink__www. replace (0 <? pos) with true by lia.
  rewrite size_t_small by lia. rewrite (read_byte_at _ _ _ Hc). cbn [bind].
  rewrite Hp, Hs. reflexivity.
Qed.

(** Without the four bytes ["www."] at [pos] there is no link. *)
Lemma www_no_prefix (link : autolink_pos) (data : buffer) (pos size flags : Z) :
  buffer_ok data -> 0 <= pos <= size -> size <= len data ->
  size - pos < 4 \/ slice data pos (pos + 4) <> bytes "www." ->
  autolink__www link data pos size flags = Ret (false, link).
Proof.
  intros Hok Hpos Hsize Hno. pose proof Hok as Hok'. unfold buffer_ok in Hok'.
  unfold autolink__www.
  assert (Hg : exists glued,
    (if 0 <? pos
     then c <- read data (size_t (pos - 1));; Ret (negb (ispunct c) && negb (isspace c))
     else Ret false) = Ret glued).
  { destruct (0 <? pos) eqn:E0; [|eauto].
    rewrite size_t_small by lia.
    destruct (byte_at_in data (pos - 1) ltac:(lia)) as [c Hc].
    rewrite (read_byte_at _ _ _ Hc). cbn [bind]. eauto. }
  destruct Hg as [glued ->]. cbn [bind]. destruct glued; [reflexivity|].
  rewrite size_t_small by lia.
  destruct (size - pos <? 4) eqn:E4; [reflexivity|].
  destruct (memcmp_eq_spec (bytes "www.") data pos ltac:(lia)) as [same [Hsame Hiff]].
  { change (Z.of_nat (List.length (bytes "www."))) with 4. lia. }
  change (Z.of_nat (List.length (bytes "www."))) with 4 in Hiff.
  rewrite Hsame. cbn [bind].
  destruct same; [|reflexivity].
  destruct Hno as [Hno|Hno]; [lia|]. exfalso. apply Hno. apply Hiff. reflexivity.
Qed.

(** The span of a [www.] link: it starts at [pos], keeps at least the
    three letters [www] and ends in the buffer. *)
Lemma www_span (link l : autolink_pos) (data : buffer) (pos size flags : Z) :
  buffer_ok data -> 0 <= pos < size -> size <= len data ->
  autolink__www link data pos size flags = Ret (true, l) ->
  start l = pos /\ pos + 3 <= end_ l <= size.
Proof.
  intros Hok Hpos Hsize H. pose proof Hok as Hok'. unfold buffer_ok in Hok'.
  unfold autolink__www in H.
  apply bind_Ret in H. destruct H as [glued [_ H]]. destruct glued; [discriminate|].
  apply bind_Ret in H. destruct H as [no_www [Hn H]]. destruct no_www; [discriminate|].
  rewrite size_t_small in Hn by lia.
  destruct (size - pos <? 4) eqn:E4; [discriminate|].
  destruct (memcmp_eq_spec (bytes "www.") data pos ltac:(lia)) as [same [Hsame Hiff]].
  { change (Z.of_nat (List.length (bytes "www."))) with 4. lia. }
  change (Z.of_nat (List.length (bytes "www."))) with 4 in Hiff.
  rewrite Hsame in Hn. cbn [bind] in Hn. destruct same; [|discriminate].
  destruct (slice_www data pos ltac:(lia) (proj1 Hiff eq_refl)) as [H0 [H1 [H2 H3]]].
  destruct (check_domain_scan data size {| start := pos; end_ := 0 |} false (chr "w") Hok Hsize)
    as [e [[He [Hdom Hstop]] Hcd]]; [simpl; lia | exact H0 | reflexivity |].
  cbn [start] in *. rewrite Hcd in H. cbn [bind orb] in H.
  destruct (0 <? occurrences (chr ".") (slice data (pos + 1) e)); [|discriminate].
  cbn [negb] in H. unfold set_end in H. cbn [start end_] in H.
  assert (He3 : pos + 3 <= e).
  { destruct (Z_le_gt_dec (pos + 3) e); [assumption|]. exfalso.
    destruct Hstop as [c [Hc Hnd]]; [lia|].
    assert (e = pos + 1 \/ e = pos + 2) as [-> | ->] by lia;
      rewrite Hc in *; [inversion H1 | inversion H2]; subst; discriminate. }
  destruct (skip_nonspace_spec data size {| start := pos; end_ := e |} Hok Hsize)
    as [e2 [Hskip [He2 _]]]; [simpl; lia|].
  cbn [start end_] in *. rewrite Hskip in H. cbn [bind] in H.
  unfold set_end in H. cbn [start end_] in H.
  destruct (delim_anchored data pos e2 (pos + 3) (pos + 3) Hok) as [e' [Hdelim He']];
    [| lia |].
  { constructor.
    - lia.
    - intros i c Hi Hc.
      assert (i = pos \/ i = pos + 1 \/ i = pos + 2) as [-> | [-> | ->]] by lia;
        rewrite Hc in *; [inversion H0 | inversion H1 | inversion H2]; subst; discriminate.
    - exists (chr "w"). replace (pos + 3 - 1) with (pos + 2) by lia.
      split; [exact H2|]. repeat split; discriminate.
    - exists (chr "."). split; [exact H3 | reflexivity].
    - intros i c Hi. lia.
    - intros i c Hi Hc.
      assert (i = pos + 2 \/ i = pos + 3) as [-> | ->] by lia;
        rewrite Hc in *; [inversion H2 | inversion H3]; subst; discriminate. }
  rewrite Hdelim in H. inversion H; subst. simpl. lia.
Qed.

(* ================================================================= *)
(** * [autolink__email] *)

Lemma is_local_byte_not_lt (c : Z) : is_local_byte c = true -> c <> chr "<".
Proof. unfold is_local_byte. ctype. Qed.

Lemma is_address_byte_not_lt (c : Z) : is_address_byte c = true -> c <> chr "<".
Proof. unfold is_address_byte. ctype. Qed.

Lemma solid_at : solid (chr "@").
Proof. repeat split; discriminate. Qed.

(** The span of an address is anchored at its ['@']. *)
Lemma email_anchored (data : buffer) (pos s e q : Z) :
  0 <= s < pos ->
  (forall i c, s <= i < pos -> byte_at data i = Some c -> is_local_byte c = true) ->
  (forall i c, pos <= i < e -> byte_at data i = Some c -> is_address_byte c = true) ->
  pos <= q < e -> byte_at data q = Some (chr "@") ->
  anchored data s (q + 1) q.
Proof.
  intros Hs Hloc Hadr Hq Hqa. constructor.
  - lia.
  - intros i c Hi Hc. destruct (Z_lt_le_dec i pos).
    + apply is_local_byte_not_lt. apply (Hloc i c); [lia | exact Hc].
    + apply is_address_byte_not_lt. apply (Hadr i c); [lia | exact Hc].
  - exists (chr "@"). replace (q + 1 - 1) with q by lia. split; [exact Hqa | exact solid_at].
  - exists (chr "@"). split; [exact Hqa | reflexivity].
  - intros i c Hi Hc. replace i with q in Hc by lia. rewrite Hqa in Hc.
    inversion Hc; subst. discriminate.
  - intros i c Hi Hc. replace i with q in Hc by lia. rewrite Hqa in Hc.
    inversion Hc; subst. discriminate.
Qed.

(** The span of an address: it starts before [pos], and ends after an
    ['@'] that lies at [pos] or to its right, in the buffer. *)
Lemma email_span (link l : autolink_pos) (data : buffer) (pos size flags : Z) :
  buffer_ok data -> 0 <= pos <= size -> size <= len data ->
  autolink__email link data pos size flags = Ret (true, l) ->
  0 <= start l < pos /\ pos < end_ l <= size.
Proof.
  intros Hok Hpos Hsize H. pose proof Hok as Hok'. unfold buffer_ok in Hok'.
  unfold autolink__email in H.
  destruct (email_rewind_spec data pos Hok ltac:(lia)) as [s [Hrw [Hs [Hloc _]]]].
  rewrite Hrw in H. cbn [bind start] in H.
  destruct (s =? pos) eqn:Esp; [discriminate|].
  apply bind_Ret in H. destruct H as [[[e nb] np] [Hscan H]].
  destruct (email_scan_spec data pos size e nb np Hok Hpos Hsize Hscan) as [He [Hadr Hat]].
  unfold set_end in H. cbn [start end_] in H.
  destruct ((size_t (e - pos) <? 2) || negb (nb =? 1) || (np =? 0)) eqn:Ebad; [discriminate|].
  destruct (Hat ltac:(lia)) as [q [Hq Hqa]].
  destruct (delim_anchored data s e (q + 1) q Hok) as [e' [Hdelim He']];
    [apply (email_anchored data pos s e q); auto; lia | lia |].
  rewrite Hdelim in H. inversion H; subst. simpl. lia.
Qed.

(* ================================================================= *)
(** * [autolink__url] *)

Lemma isalnum_solid (c : Z) : isalnum c = true -> solid c.
Proof.
  intros H. unfold solid, copen_of. repeat split; [ctype | ctype |].
  replace (c =? chr "034") with false by ctype.
  replace (c =? chr "'") with false by ctype.
  replace (c =? chr ")") with false by ctype.
  replace (c =? chr "]") with false by ctype.
  replace (c =? chr "}") with false by ctype.
  reflexivity.
Qed.

Lemma isalpha_not_lt (c : Z) : isalpha c = true -> c <> chr "<".
Proof. ctype. Qed.

Lemma isalnum_not_lt (c : Z) : isalnum c = true -> c <> chr "<".
Proof. ctype. Qed.

Lemma isalnum_not_amp (c : Z) : isalnum c = true -> c <> chr "&".
Proof. ctype. Qed.

Section UrlFacts.

Variable AUTOLINK_SHORT_DOMAINS : Z.

(** Without ["//"] after the colon, or with less than four bytes left,
    there is no link. *)
Lemma url_no_slashes (link : autolink_pos) (data : buffer) (pos size flags : Z) :
  buffer_ok data -> 0 <= pos < size -> size <= len data ->
  byte_at data pos = Some (chr ":") ->
  size - pos < 4 \/
    byte_at data (pos + 1) <> Some (chr "/") \/ byte_at data (pos + 2) <> Some (chr "/") ->
  autolink__url AUTOLINK_SHORT_DOMAINS link data pos size flags = Ret (false, link).
Proof.
  intros Hok Hpos Hsize Hcolon Hno. unfold buffer_ok in Hok.
  unfold autolink__url. rewrite (read_byte_at _ _ _ Hcolon). cbn [bind].
  rewrite Z.eqb_refl. cbn [negb]. rewrite size_t_small by lia.
  destruct (size - pos <? 4) eqn:E4; [reflexivity|].
  rewrite !size_t_small by lia.
  destruct (byte_at_in data (pos + 1) ltac:(lia)) as [c1 Hc1].
  destruct (byte_at_in data (pos + 2) ltac:(lia)) as [c2 Hc2].
  rewrite (read_byte_at _ _ _ Hc1). cbn [bind].
  destruct (c1 =? chr "/") eqn:E1; cbn [negb]; [|reflexivity].
  rewrite (read_byte_at _ _ _ Hc2). cbn [bind].
  destruct (c2 =? chr "/") eqn:E2; cbn [negb]; [|reflexivity].
  exfalso. destruct Hno as [Hno | [Hno | Hno]]; [lia | apply Hno | apply Hno].
  - rewrite Hc1. f_equal. lia.
  - rewrite Hc2. f_equal. lia.
Qed.

(** What [autolink__url] does once [check_domain] has accepted the host. *)
Lemma url_after_domain (link l1 : autolink_pos) (data : buffer) (pos size flags : Z) :
  buffer_ok data -> 0 <= pos < size -> size <= len data ->
  byte_at data pos = Some (chr ":") ->
  4 <= size - pos ->
  byte_at data (pos + 1) = Some (chr "/") ->
  byte_at data (pos + 2) = Some (chr "/") ->
  check_domain data size {| start := pos + 3; end_ := 0 |}
    (negb (Z.land flags AUTOLINK_SHORT_DOMAINS =? 0)) = Ret (true, l1) ->
  exists e2 s safe l,
    nonspace_stop data size (end_ l1) e2 /\
    scheme_start data pos s /\
    autolink_issafe (skipn (Z.to_nat s) data) (size - s) = Ret safe /\
    autolink__url AUTOLINK_SHORT_DOMAINS link data pos size flags = Ret (safe, l) /\
    start l = s /\ pos + 4 <= end_ l <= e2 /\ (safe = false -> end_ l = e2).
Proof.
  intros Hok Hpos Hsize Hcolon H4 Hs1 Hs2 Hcd. pose proof Hok as Hok'. unfold buffer_ok in Hok'.
  destruct (byte_at_in data (pos + 3) ltac:(lia)) as [c3 Hc3].
  destruct (isalnum c3) eqn:Ea3.
  2:{ rewrite (check_domain_reject data size {| start := pos + 3; end_ := 0 |} _ c3 Hc3 Ea3)
        in Hcd. discriminate. }
  destruct (check_domain_scan data size {| start := pos + 3; end_ := 0 |}
              (negb (Z.land flags AUTOLINK_SHORT_DOMAINS =? 0)) c3 Hok Hsize)
    as [e [[He _] Hcd']]; [simpl; lia | exact Hc3 | exact Ea3 |].
  cbn [start] in *. rewrite Hcd' in Hcd. inversion Hcd as [[Hok1 Hl1]].
  unfold set_end. cbn [start end_].
  destruct (skip_nonspace_spec data size {| start := pos + 3; end_ := e |} Hok Hsize)
    as [e2 [Hskip Hns]]; [simpl; lia|].
  cbn [start end_] in *. unfold set_end in Hskip. cbn [start end_] in Hskip.
  destruct (url_rewind_spec data {| start := pos; end_ := e2 |} Hok)
    as [s [Hrw Hsch]]; [simpl; lia|].
  cbn [start end_] in *. unfold set_start in Hrw. cbn [start end_] in Hrw.
  pose proof Hns as [He2 _]. pose proof Hsch as [Hs [Hal _]].
  destruct (autolink_issafe_total (skipn (Z.to_nat s) data) (size - s)) as [safe Hsafe].
  { unfold len in *. rewrite length_skipn. lia. }
  assert (Hrun : autolink__url AUTOLINK_SHORT_DOMAINS link data pos size flags
                 = (if negb safe then Ret (false, {| start := s; end_ := e2 |})
                    else autolink_delim data {| start := s; end_ := e2 |})).
  { unfold autolink__url. rewrite (read_byte_at _ _ _ Hcolon). cbn [bind].
    rewrite Z.eqb_refl. cbn [negb]. rewrite !size_t_small by lia.
    replace (size - pos <? 4) with false by lia.
    rewrite (read_byte_at _ _ _ Hs1). cbn [bind]. rewrite Z.eqb_refl. cbn [negb].
    rewrite (read_byte_at _ _ _ Hs2). cbn [bind]. rewrite Z.eqb_refl. cbn [negb].
    rewrite Hcd', Hok1. cbn [bind negb]. unfold set_end. cbn [start end_].
    rewrite Hskip. cbn [bind]. unfold set_start. cbn [start end_].
    rewrite Hrw. cbn [bind start]. rewrite size_t_small by lia.
    rewrite Hsafe. cbn [bind]. reflexivity. }
  exists e2, s, safe.
  destruct safe; cbn [negb] in Hrun.
  - destruct (delim_anchored data s e2 (pos + 4) (pos + 2) Hok) as [e' [Hdelim He']];
      [| lia |].
    { constructor.
      - lia.
      - intros i c Hi Hc. destruct (Z_lt_le_dec i pos).
        + apply isalpha_not_lt. apply (Hal i c); [lia | exact Hc].
        + assert (i = pos \/ i = pos + 1 \/ i = pos + 2 \/ i = pos + 3)
            as [-> | [-> | [-> | ->]]] by lia; rewrite Hc in *.
          * inversion Hcolon; subst; discriminate.
          * inversion Hs1; subst; discriminate.
          * inversion Hs2; subst; discriminate.
          * inversion Hc3; subst. apply isalnum_not_lt. exact Ea3.
      - exists c3. replace (pos + 4 - 1) with (pos + 3) by lia.
        split; [exact Hc3 | apply isalnum_solid; exact Ea3].
      - exists (chr "/"). split; [exact Hs2 | reflexivity].
      - intros i c Hi Hc.
        assert (i = pos + 2 \/ i = pos + 3) as [-> | ->] by lia; rewrite Hc in *.
        + inversion Hs2; subst; discriminate.
        + inversion Hc3; subst. apply isalnum_not_amp. exact Ea3.
      - intros i c Hi. lia. }
    exists {| start := s; end_ := e' |}. rewrite Hrun. cbn [start end_].
    split; [exact Hns|]. split; [exact Hsch|]. split; [exact Hsafe|].
    split; [exact Hdelim|]. split; [reflexivity|]. split; [lia | discriminate].
  - exists {| start := s; end_ := e2 |}. cbn [start end_].
    split; [exact Hns|]. split; [exact Hsch|]. split; [exact Hsafe|].
    split; [exact Hrun|]. split; [reflexivity|]. split; [lia | reflexivity].
Qed.

(** The span of a URL: it starts at the scheme, at or before the colon,
    holds at least the first byte of the host, and ends in the buffer. *)
Lemma url_span (link l : autolink_pos) (data : buffer) (pos size flags : Z) :
  buffer_ok data -> 0 <= pos < size -> size <= len data ->
  autolink__url AUTOLINK_SHORT_DOMAINS link data pos size flags = Ret (true, l) ->
  0 <= start l <= pos /\ pos + 4 <= end_ l <= size.
Proof.
  intros Hok Hpos Hsize H. pose proof Hok as Hok'. unfold buffer_ok in Hok'.
  pose proof H as Hrun. unfold autolink__url in H.
  apply bind_Ret in H. destruct H as [c [Hc H]]. apply read_Ret in Hc.
  destruct (c =? chr ":") eqn:Ecolon; cbn [negb] in H; [|discriminate].
  assert (c = chr ":") by lia. subst c.
  apply bind_Ret in H. destruct H as [no_slashes [Hn H]].
  destruct no_slashes; [discriminate|].
  rewrite size_t_small in Hn by lia.
  destruct (size - pos <? 4) eqn:E4; [discriminate|].
  rewrite !size_t_small in Hn by lia.
  apply bind_Ret in Hn. destruct Hn as [c1 [Hc1 Hn]]. apply read_Ret in Hc1.
  destruct (c1 =? chr "/") eqn:E1; cbn [negb] in Hn; [|discriminate].
  apply bind_Ret in Hn. destruct Hn as [c2 [Hc2 Hn]]. apply read_Ret in Hc2.
  destruct (c2 =? chr "/") eqn:E2; cbn [negb] in Hn; [|discriminate].
  assert (c1 = chr "/") by lia. assert (c2 = chr "/") by lia. subst c1 c2.
  rewrite size_t_small in H by lia.
  apply bind_Ret in H. destruct H as [[ok l1] [Hcd H]].
  destruct ok; cbn [negb] in H; [|discriminate].
  destruct (url_after_domain link l1 data pos size flags Hok Hpos Hsize Hc ltac:(lia)
              Hc1 Hc2 Hcd)
    as [e2 [s [safe [l' [[He2 _] [[Hs _] [_ [Hrun' [Hst [Hen _]]]]]]]]]].
  rewrite Hrun in Hrun'. inversion Hrun'; subst. lia.
Qed.

End UrlFacts.

(* ================================================================= *)
(** * The matchers return *)

(** On a trigger position in the buffer no matcher reads outside of the
    buffer, and no loop uses up its bound: the outcome is a [Ret]. *)

Lemma www_returns (link : autolink_pos) (data : buffer) (pos size flags : Z) :
  buffer_ok data -> 0 <= pos < size -> size <= len data ->
  exists b l, autolink__www link data pos size flags = Ret (b, l).
Proof.
  intros Hok Hpos Hsize. pose proof Hok as Hok'. unfold buffer_ok in Hok'.
  destruct (Z_lt_le_dec (size - pos) 4) as [Hshort | H4].
  { exists false, link. apply www_no_prefix; auto; lia. }
  destruct (list_eq_dec Z.eq_dec (slice data pos (pos + 4)) (bytes "www.")) as [Hwww | Hno].
  2:{ exists false, link. apply www_no_prefix; auto; lia. }
  destruct (slice_www data pos ltac:(lia) Hwww) as [H0 [H1 [H2 H3]]].
  unfold autolink__www.
  assert (Hg : exists glued,
    (if 0 <? pos
     then c <- read data (size_t (pos - 1));; Ret (negb (ispunct c) && negb (isspace c))
     else Ret false) = Ret glued).
  { destruct (0 <? pos) eqn:E0; [|eauto].
    rewrite size_t_small by lia.
    destruct (byte_at_in data (pos - 1) ltac:(lia)) as [c Hc].
    rewrite (read_byte_at _ _ _ Hc). cbn [bind]. eauto. }
  destruct Hg as [glued ->]. cbn [bind]. destruct glued; [eauto|].
  rewrite size_t_small by lia. replace (size - pos <? 4) with false by lia.
  destruct (memcmp_eq_spec (bytes "www.") data pos ltac:(lia)) as [same [Hsame _]].
  { change (Z.of_nat (List.length (bytes "www."))) with 4. lia. }
  rewrite Hsame. cbn [bind]. destruct same; cbn [negb]; [|eauto].
  destruct (check_domain_scan data size {| start := pos; end_ := 0 |} false (chr "w") Hok Hsize)
    as [e [[He [Hdom Hstop]] Hcd]]; [simpl; lia | exact H0 | reflexivity |].
  cbn [start] in *. rewrite Hcd. cbn [bind orb].
  destruct (0 <? occurrences (chr ".") (slice data (pos + 1) e)); cbn [negb]; [|eauto].
  unfold set_end. cbn [start end_].
  assert (He3 : pos + 3 <= e).
  { destruct (Z_le_gt_dec (pos + 3) e); [assumption|]. exfalso.
    destruct Hstop as [c [Hc Hnd]]; [lia|].
    assert (e = pos + 1 \/ e = pos + 2) as [-> | ->] by lia;
      rewrite Hc in *; [inversion H1 | inversion H2]; subst; discriminate. }
  destruct (skip_nonspace_spec data size {| start := pos; end_ := e |} Hok Hsize)
    as [e2 [Hskip [He2 _]]]; [simpl; lia|].
  cbn [start end_] in *. rewrite Hskip. cbn [bind].
  unfold set_end. cbn [start end_].
  assert (Hanch : anchored data pos (pos + 3) (pos + 3)).
  { constructor.
    - lia.
    - intros i c Hi Hc.
      assert (i = pos \/ i = pos + 1 \/ i = pos + 2) as [-> | [-> | ->]] by lia;
        rewrite Hc in *; [inversion H0 | inversion H1 | inversion H2]; subst; discriminate.
    - exists (chr "w"). replace (pos + 3 - 1) with (pos + 2) by lia.
      split; [exact H2|]. repeat split; discriminate.
    - exists (chr "."). split; [exact H3 | reflexivity].
    - intros i c Hi. lia.
    - intros i c Hi Hc.
      assert (i = pos + 2 \/ i = pos + 3) as [-> | ->] by lia;
        rewrite Hc in *; [inversion H2 | inversion H3]; subst; discriminate. }
  destruct (delim_anchored data pos e2 (pos + 3) (pos + 3) Hok Hanch ltac:(lia))
    as [e' [Hdelim _]].
  rewrite Hdelim. eauto.
Qed.

Lemma email_scan_returns (data : buffer) (pos size : Z) :
  buffer_ok data -> 0 <= pos <= size -> size <= len data -> len data <= INT_MAX ->
  exists r, email_scan data pos size = Ret r.
Proof.
  intros Hok Hpos Hsize Hint. unfold buffer_ok in Hok. unfold email_scan.
  match goal with |- context [loop _ ?b _] => set (body := b) end.
  destruct (loop_total body
    (fun st : Z * Z * Z =>
       let '(e, nb, np) := st in
       pos <= e <= size /\ 0 <= nb <= e - pos /\ 0 <= np <= e - pos)
    (fun _ => True)
    (fun st : Z * Z * Z => Z.to_nat (size - fst (fst st)))) with (fuel := bound data)
    (s := (pos, 0, 0)) as [r [E _]].
  - intros [[e nb] np] [He [Hnb Hnp]]. unfold body. cbn [fst snd].
    destruct (e <? size) eqn:Elt; [|right; eauto].
    destruct (byte_at_in data e ltac:(lia)) as [c Hc].
    rewrite (read_byte_at _ _ _ Hc). cbn [bind].
    rewrite size_t_small by lia.
    assert (Hnb' : int_incr nb = Ret (nb + 1)).
    { unfold int_incr. replace (nb <? INT_MAX) with true by lia. reflexivity. }
    assert (Hnp' : int_incr np = Ret (np + 1)).
    { unfold int_incr. replace (np <? INT_MAX) with true by lia. reflexivity. }
    destruct (isalnum c).
    { left. eexists. split; [reflexivity|]. cbn [fst snd]. lia. }
    destruct (c =? chr "@").
    { left. rewrite Hnb'. cbn [bind]. eexists. split; [reflexivity|]. cbn [fst snd]. lia. }
    destruct ((c =? chr ".") && (e <? size_t (size - 1))).
    { left. rewrite Hnp'. cbn [bind]. eexists. split; [reflexivity|]. cbn [fst snd]. lia. }
    destruct (negb (c =? chr "-") && negb (c =? chr "_")).
    { right. eauto. }
    left. eexists. split; [reflexivity|]. cbn [fst snd]. lia.
  - lia.
  - cbn [fst]. apply bound_len. lia.
  - eauto.
Qed.

Lemma email_returns (link : autolink_pos) (data : buffer) (pos size flags : Z) :
  buffer_ok data -> 0 <= pos <= size -> size <= len data -> len data <= INT_MAX ->
  exists b l, autolink__email link data pos size flags = Ret (b, l).
Proof.
  intros Hok Hpos Hsize Hint. pose proof Hok as Hok'. unfold buffer_ok in Hok'.
  unfold autolink__email.
  destruct (email_rewind_spec data pos Hok ltac:(lia)) as [s [Hrw [Hs [Hloc _]]]].
  rewrite Hrw. cbn [bind start].
  destruct (s =? pos) eqn:Esp; [eauto|].
  destruct (email_scan_returns data pos size Hok Hpos Hsize Hint) as [[[e nb] np] Hscan].
  destruct (email_scan_spec data pos size e nb np Hok Hpos Hsize Hscan) as [He [Hadr Hat]].
  rewrite Hscan. cbn [bind]. unfold set_end. cbn [start end_].
  destruct ((size_t (e - pos) <? 2) || negb (nb =? 1) || (np =? 0)) eqn:Ebad; [eauto|].
  destruct (Hat ltac:(lia)) as [q [Hq Hqa]].
  destruct (delim_anchored data s e (q + 1) q Hok) as [e' [Hdelim He']];
    [apply (email_anchored data pos s e q); auto; lia | lia |].
  rewrite Hdelim. eauto.
Qed.

Lemma url_returns
    (short_domains : Z) (link : autolink_pos) (data : buffer) (pos size flags : Z) :
  buffer_ok data -> 0 <= pos < size -> size <= len data ->
  byte_at data pos = Some (chr ":") ->
  exists b l, autolink__url short_domains link data pos size flags = Ret (b, l).
Proof.
  intros Hok Hpos Hsize Hcolon. pose proof Hok as Hok'. unfold buffer_ok in Hok'.
  destruct (Z_lt_le_dec (size - pos) 4) as [Hshort | H4].
  { exists false, link. apply url_no_slashes; auto. }
  destruct (byte_at_in data (pos + 1) ltac:(lia)) as [c1 Hc1].
  destruct (byte_at_in data (pos + 2) ltac:(lia)) as [c2 Hc2].
  destruct (byte_at_in data (pos + 3) ltac:(lia)) as [c3 Hc3].
  destruct (Z.eq_dec c1 (chr "/")) as [-> | Hn1].
  2:{ exists false, link. apply url_no_slashes; auto. right. left.
      rewrite Hc1. intros E. inversion E. contradiction. }
  destruct (Z.eq_dec c2 (chr "/")) as [-> | Hn2].
  2:{ exists false, link. apply url_no_slashes; auto. right. right.
      rewrite Hc2. intros E. inversion E. contradiction. }
  set (allow := negb (Z.land flags short_domains =? 0)).
  assert (Hcd : exists ok l1,
             check_domain data size {| start := pos + 3; end_ := 0 |} allow = Ret (ok, l1)).
  { destruct (isalnum c3) eqn:Ea3.
    - destruct (check_domain_scan data size {| start := pos + 3; end_ := 0 |} allow c3
                  Hok Hsize) as [e [_ Hcd]]; [simpl; lia | exact Hc3 | exact Ea3 |].
      eauto.
    - rewrite (check_domain_reject data size {| start := pos + 3; end_ := 0 |} allow c3 Hc3 Ea3).
      eauto. }
  destruct Hcd as [ok [l1 Hcd]]. destruct ok.
  - destruct (url_after_domain short_domains link l1 data pos size flags Hok Hpos Hsize
                Hcolon H4 Hc1 Hc2 Hcd) as [e2 [s [safe [l [_ [_ [_ [Hrun _]]]]]]]].
    eauto.
  - exists false, l1. unfold autolink__url.
    rewrite (read_byte_at _ _ _ Hcolon). cbn [bind].
    rewrite Z.eqb_refl. cbn [negb]. rewrite !size_t_small by lia.
    replace (size - pos <? 4) with false by lia.
    rewrite (read_byte_at _ _ _ Hc1). cbn [bind]. rewrite Z.eqb_refl. cbn [negb].
    rewrite (read_byte_at _ _ _ Hc2). cbn [bind]. rewrite Z.eqb_refl. cbn [negb].
    fold allow. rewrite Hcd. cbn [bind negb]. reflexivity.
Qed.

(* ================================================================= *)
(** * Texts, as a caller passes them *)

Lemma text_ok (s : string) :
  (Z.of_nat (List.length (text s)) <=? SIZE_MAX) = true -> buffer_ok (text s).
Proof. unfold buffer_ok, len. lia. Qed.

(* ================================================================= *)
(** * The properties of the specification *)

(** C1.  For every buffer and every trigger position in it, a span that
    [autolink__www], [autolink__email] or [autolink__url] returns with
    success satisfies [0 <= start < end <= size]: neither the cut at
    ['<'], nor the trimming loop, nor the balance step empties it. *)
Theorem successful_span_in_bounds
    (short_domains : Z) (link l : autolink_pos) (data : buffer) (pos size flags : Z) :
  buffer_ok data -> size <= len data -> 0 <= pos < size ->
  autolink__www link data pos size flags = Ret (true, l) \/
  autolink__email link data pos size flags = Ret (true, l) \/
  autolink__url short_domains link data pos size flags = Ret (true, l) ->
  0 <= start l < end_ l /\ end_ l <= size.
Proof.
  intros Hok Hsize Hpos [H | [H | H]].
  - destruct (www_span link l data pos size flags Hok Hpos Hsize H). lia.
  - destruct (email_span link l data pos size flags Hok ltac:(lia) Hsize H). lia.
  - destruct (url_span short_domains link l data pos size flags Hok Hpos Hsize H). lia.
Qed.

Lemma successful_span_in_bounds_witness : 0 <= 14 < 29 /\ 29 <= 30.
Proof.
  apply (successful_span_in_bounds 1 no_link {| start := 14; end_ := 29 |}
           (text "contact me at a.b@example.com.") 17 30 0).
  - apply text_ok. reflexivity.
  - vm_compute. discriminate.
  - lia.
  - right. left. vm_compute. reflexivity.
Defined.

(** The closing bytes whose balance [autolink_delim] tests by counting,
    each with its opening byte. *)
Definition brackets : list (Z * Z) :=
  [(chr ")", chr "("); (chr "]", chr "["); (chr "}", chr "{")].

(** X16.  When the span that the two loops leave ends in [')'],
    [']'] or ['}'], [autolink_delim] moves the end one byte to the left if
    the opening byte occurs in the span another number of times than the
    closing byte, and leaves it where it is if they occur equally often;
    it does so once.  So the URL of ["(http://example.com/foo)"] loses its
    [')'] and that of ["http://example.com/foo_(bar)"] keeps it. *)
Theorem bracket_balance :
  (forall (data : buffer) (link l1 : autolink_pos) (cclose copen : Z),
     buffer_ok data -> span_ok data link ->
     delim_trim data link = Ret l1 ->
     end_ l1 <> start l1 ->
     byte_at data (end_ l1 - 1) = Some cclose ->
     In (cclose, copen) brackets ->
     autolink_delim data link =
       Ret (true,
            set_end l1
              (if occurrences copen (span_bytes data l1)
                  =? occurrences cclose (span_bytes data l1)
               then end_ l1 else end_ l1 - 1))) /\
  (forall short_domains link flags,
     autolink__url short_domains link (text "(http://example.com/foo)") 5 24 flags
     = Ret (true, {| start := 1; end_ := 23 |})) /\
  (forall short_domains link flags,
     autolink__url short_domains link (text "http://example.com/foo_(bar)") 4 28 flags
     = Ret (true, {| start := 0; end_ := 28 |})).
Proof.
  split; [|split].
  - intros data link l1 cclose copen Hok Hspan Htrim Hne Hc Hin.
    destruct (delim_trim_spec data link l1 Hok Hspan Htrim) as [Hs [He _]].
    assert (Hspan1 : span_ok data l1) by (destruct Hspan; split; lia).
    unfold autolink_delim. rewrite Htrim. cbn [bind].
    rewrite (delim_balance_spec data l1 cclose Hok Hspan1 Hne Hc). cbv zeta.
    assert (Hpair : copen_of cclose = copen /\ (copen =? 0) = false /\
                    (cclose =? copen) = false).
    { unfold brackets in Hin. simpl in Hin.
      destruct Hin as [Hp | [Hp | [Hp | []]]]; inversion Hp; subst;
        repeat split; reflexivity. }
    destruct Hpair as [-> [-> ->]]. cbn [negb andb].
    rewrite (Z.eqb_sym (occurrences cclose _)).
    destruct (occurrences copen (span_bytes data l1)
              =? occurrences cclose (span_bytes data l1)); cbn [negb].
    + rewrite set_end_same. reflexivity.
    + reflexivity.
  - intros short_domains link flags. unfold autolink__url.
    generalize (negb (Z.land flags short_domains =? 0)). intros [|]; vm_compute; reflexivity.
  - intros short_domains link flags. unfold autolink__url.
    generalize (negb (Z.land flags short_domains =? 0)). intros [|]; vm_compute; reflexivity.
Qed.

Lemma bracket_balance_witness :
  autolink_delim (text "(see http://a.b/c)") {| start := 5; end_ := 18 |}
  = Ret (true, {| start := 5; end_ := 17 |}).
Proof.
  apply (proj1 bracket_balance (text "(see http://a.b/c)")
           {| start := 5; end_ := 18 |} {| start := 5; end_ := 18 |} (chr ")") (chr "(")).
  - apply text_ok. reflexivity.
  - split; vm_compute; discriminate.
  - vm_compute. reflexivity.
  - vm_compute. discriminate.
  - vm_compute. reflexivity.
  - left. reflexivity.
Defined.

(** C2.  The balance step is to keep a closing byte that is as frequent
    in the span as its opening byte, for the quotes as for the brackets.
    For the quotes the code does not: the counting loop takes every quote
    for an opening byte and none for a closing one.  On
    ["http://a.b/'x'"] the two loops leave the span [0, 14); it ends in a
    single quote, which stands twice in it, once to open and once to
    close; and [autolink_delim] drops it and returns [0, 13). *)
Lemma bracket_balance_fails_for_quotes :
  let data := text "http://a.b/'x'" in
  let link := {| start := 0; end_ := 14 |} in
  delim_trim data link = Ret link /\
  byte_at data (end_ link - 1) = Some (chr "'") /\
  copen_of (chr "'") = chr "'" /\
  occurrences (chr "'") (span_bytes data link) = 2 /\
  autolink_delim data link = Ret (true, {| start := 0; end_ := 13 |}) /\
  autolink_delim data link <> Ret (true, link) /\
  autolink__url 1 no_link data 4 14 0 = Ret (true, {| start := 0; end_ := 13 |}).
Proof.
  vm_compute. repeat split; try reflexivity. discriminate.
Qed.

(** A span that the two loops leave with a quote at its end always loses
    that quote: the counting loop takes every quote of the span, the last
    one too, for an opening byte. *)
Lemma quote_always_dropped (data : buffer) (link l1 : autolink_pos) (q : Z) :
  buffer_ok data -> span_ok data link ->
  delim_trim data link = Ret l1 ->
  start l1 < end_ l1 ->
  byte_at data (end_ l1 - 1) = Some q ->
  q = chr "034" \/ q = chr "'" ->
  autolink_delim data link = Ret (true, set_end l1 (end_ l1 - 1)).
Proof.
  intros Hok Hspan Htrim Hlt Hq Hquote.
  destruct (delim_trim_spec data link l1 Hok Hspan Htrim) as [Hs [He _]].
  assert (Hspan1 : span_ok data l1) by (destruct Hspan; split; lia).
  unfold autolink_delim. rewrite Htrim. cbn [bind].
  rewrite (delim_balance_spec data l1 q Hok Hspan1 ltac:(lia) Hq). cbv zeta.
  assert (Hopen : copen_of q = q) by (destruct Hquote; subst; reflexivity).
  rewrite Hopen, Z.eqb_refl.
  assert (1 <= occurrences q (span_bytes data l1)).
  { unfold span_bytes. destruct Hspan1 as [Hs1 _].
    pose proof (slice_snoc data (start l1) (end_ l1 - 1) q ltac:(lia) Hq) as Hsn.
    replace (end_ l1 - 1 + 1) with (end_ l1) in Hsn by lia.
    rewrite Hsn, occurrences_snoc, Z.eqb_refl.
    pose proof (occurrences_bound q (slice data (start l1) (end_ l1 - 1))). lia. }
  replace (q =? 0) with false by (destruct Hquote; subst; reflexivity).
  replace (0 =? occurrences q (span_bytes data l1)) with false by lia.
  reflexivity.
Qed.






(** C4, as amended.  A turn of the trimming loop on a span that ends in
    [';'] at offset 1 or later, so that [end] is 2 at least.  Let
    [p] be where the walk to the left over letters stops that begins at
    [end - 2]: every byte after [p] up to [end - 2] is a letter, and [p]
    is 0 or the byte at [p] is no letter; there is such a [p].  If [p]
    lies before [end - 2] and the byte at [p] is ['&'], the end of the
    span becomes [p], else [end - 1]; and the loop goes round again.  So
    the URL of
    ["http://example.com&amp;"] is ["http://example.com"]. *)
Theorem character_reference_trim :
  (forall (data : buffer) (link : autolink_pos) (p cp : Z),
     buffer_ok data -> 0 <= start link < end_ link ->
     byte_at data (end_ link - 1) = Some (chr ";") ->
     0 <= p <= end_ link - 2 ->
     (forall i c, p < i <= end_ link - 2 -> byte_at data i = Some c -> isalpha c = true) ->
     byte_at data p = Some cp ->
     p = 0 \/ isalpha cp = false ->
     trim_step data link =
       Ret (Continue
              (set_end link
                 (if (p <? end_ link - 2) && (cp =? chr "&") then p else end_ link - 1)))) /\
  (forall (data : buffer) (link : autolink_pos),
     buffer_ok data -> 0 <= start link < end_ link -> 2 <= end_ link ->
     byte_at data (end_ link - 1) = Some (chr ";") ->
     exists p cp,
       0 <= p <= end_ link - 2 /\
       (forall i c, p < i <= end_ link - 2 -> byte_at data i = Some c -> isalpha c = true) /\
       byte_at data p = Some cp /\
       (p = 0 \/ isalpha cp = false)) /\
  (forall short_domains link flags,
     autolink__url short_domains link (text "http://example.com&amp;") 4 23 flags
     = Ret (true, {| start := 0; end_ := 18 |})) /\
  slice (text "http://example.com&amp;") 0 18 = bytes "http://example.com".
Proof.
  split; [|split; [|split]].
  - intros data link p cp Hok Hs Hc Hp Hal Hcp Hstop.
    destruct (trim_step_semicolon data link Hok Hs ltac:(lia) Hc)
      as [y [cy [Hy [Hyal [Hystop [Hcy Hstep]]]]]].
    assert (y = p).
    { destruct (Z.lt_trichotomy y p) as [Hlt | [Heq | Hgt]]; [exfalso | exact Heq | exfalso].
      - rewrite (Hyal p cp ltac:(lia) Hcp) in Hstop. destruct Hstop; [lia | discriminate].
      - rewrite (Hal y cy ltac:(lia) Hcy) in Hystop. destruct Hystop; [lia | discriminate]. }
    subst y. rewrite Hcp in Hcy. inversion Hcy; subst cy. exact Hstep.
  - intros data link Hok Hs H2 Hc.
    destruct (trim_step_semicolon data link Hok Hs H2 Hc)
      as [y [cy [Hy [Hyal [Hystop [Hcy _]]]]]].
    exists y, cy. split; [exact Hy|]. split; [exact Hyal|]. split; [exact Hcy | exact Hystop].
  - intros short_domains link flags. unfold autolink__url.
    generalize (negb (Z.land flags short_domains =? 0)). intros [|]; vm_compute; reflexivity.
  - vm_compute. reflexivity.
Qed.

Lemma character_reference_trim_witness :
  trim_step (text "http://example.com&amp;") {| start := 0; end_ := 23 |}
  = Ret (Continue {| start := 0; end_ := 18 |}).
Proof.
  apply (proj1 character_reference_trim (text "http://example.com&amp;")
           {| start := 0; end_ := 23 |} 18 (chr "&")).
  - apply text_ok. reflexivity.
  - simpl. lia.
  - vm_compute. reflexivity.
  - simpl. lia.
  - intros i c Hi Hc. simpl in Hi.
    assert (i = 19 \/ i = 20 \/ i = 21) as [-> | [-> | ->]] by lia;
      vm_compute in Hc; inversion Hc; reflexivity.
  - vm_compute. reflexivity.
  - right. reflexivity.
Defined.

(** C4 as first stated fails for the one span that ends at offset 1: on
    the span [0, 1) of [";"] the walk begins at [end - 2], which is no
    offset of the buffer, and the turn of the loop reads outside the
    buffer instead of moving the end to [end - 1]. *)
Lemma character_reference_walk_outside_buffer :
  let data := text ";" in
  let link := {| start := 0; end_ := 1 |} in
  byte_at data (end_ link - 1) = Some (chr ";") /\
  trim_step data link = Undefined /\
  trim_step data link <> Ret (Continue (set_end link (end_ link - 1))).
Proof.
  vm_compute. repeat split; try reflexivity. discriminate.
Qed.

(** The end that [check_domain] gives the span: the offset [e], not before
    [from], of the first byte that lies before [size - 1] and is no byte
    of a host name; or, when there is none, the larger of [from] and
    [size - 1]. *)
Definition domain_end (data : buffer) (size from e : Z) : Prop :=
  from <= e /\
  (forall i d, from <= i < e -> byte_at data i = Some d -> is_domain_byte d = true) /\
  ((e < size - 1 /\ exists d, byte_at data e = Some d /\ is_domain_byte d = false) \/
   e = Z.max from (size - 1)).

Lemma domain_stop_end (data : buffer) (size from e : Z) :
  domain_stop data size from e -> domain_end data size from e.
Proof.
  intros [He [Hdom Hstop]]. split; [lia|]. split; [exact Hdom|].
  destruct (Z_lt_le_dec e (size - 1)) as [Hlt | Hge].
  - left. split; [exact Hlt | exact (Hstop Hlt)].
  - right. lia.
Qed.

(** There is one such offset only. *)
Lemma domain_end_unique (data : buffer) (size from e e' : Z) :
  0 <= from <= size -> size <= len data ->
  domain_end data size from e -> domain_end data size from e' -> e = e'.
Proof.
  assert (Hlt : forall a b, 0 <= from <= size -> size <= len data ->
            domain_end data size from a -> domain_end data size from b -> ~ a < b).
  { intros a b Hfrom Hsize [Ha [_ Hsa]] [Hb [Hdb Hsb]] Hab.
    destruct Hsa as [[Ha1 [d [Hd Hnd]]] | Hamax].
    - rewrite (Hdb a d ltac:(lia) Hd) in Hnd. discriminate.
    - destruct Hsb as [[Hb1 _] | Hbmax]; lia. }
  intros Hfrom Hsize He He'.
  pose proof (Hlt e e' Hfrom Hsize He He'). pose proof (Hlt e' e Hfrom Hsize He' He). lia.
Qed.

(** C5, as amended.  [check_domain] fails, and leaves the span alone, if
    the byte at [start] is not alphanumeric.  Otherwise it sets [end] to
    the offset [e], at or after [start + 1], of the first byte that lies
    before [size - 1] and is neither alphanumeric nor ['-'] nor ['.'];
    without such a byte [e] is [size - 1], or [start + 1] when [start] is
    the last offset of the buffer.  There is such an offset, and one only.
    [check_domain] then succeeds if short domains are allowed, and else
    exactly if one of the bytes from [start + 1] up to [e] is a ['.']. *)
Theorem check_domain_correct
    (data : buffer) (size : Z) (link : autolink_pos) (allow_short : bool) (c : Z) :
  buffer_ok data -> size <= len data -> 0 <= start link < size ->
  byte_at data (start link) = Some c ->
  (isalnum c = false -> check_domain data size link allow_short = Ret (false, link)) /\
  (isalnum c = true ->
   (exists e, domain_end data size (start link + 1) e) /\
   (forall e,
      domain_end data size (start link + 1) e ->
      check_domain data size link allow_short
        = Ret (allow_short || (0 <? occurrences (chr ".") (slice data (start link + 1) e)),
               set_end link e))).
Proof.
  intros Hok Hsize Hs Hc. split; intros Ha.
  - apply (check_domain_reject data size link allow_short c Hc Ha).
  - destruct (check_domain_scan data size link allow_short c Hok Hsize Hs Hc Ha)
      as [e0 [Hstop Hcd]].
    pose proof (domain_stop_end data size (start link + 1) e0 Hstop) as Hend0.
    split; [exists e0; exact Hend0|].
    intros e He.
    rewrite (domain_end_unique data size (start link + 1) e e0 ltac:(lia) Hsize He Hend0).
    exact Hcd.
Qed.

Lemma check_domain_correct_witness :
  check_domain (text "http://foo.bar/x") 16 {| start := 7; end_ := 0 |} false
  = Ret (true, {| start := 7; end_ := 14 |}).
Proof.
  apply (proj2 (proj2 (check_domain_correct (text "http://foo.bar/x") 16
                         {| start := 7; end_ := 0 |} false (chr "f")
                         (text_ok "http://foo.bar/x" eq_refl)
                         ltac:(vm_compute; discriminate)
                         ltac:(simpl; lia)
                         eq_refl)
                      eq_refl) 14).
  split; [simpl; lia|]. split.
  - intros i d Hi Hd. simpl in Hi.
    assert (i = 8 \/ i = 9 \/ i = 10 \/ i = 11 \/ i = 12 \/ i = 13)
      as [-> | [-> | [-> | [-> | [-> | ->]]]]] by lia;
      vm_compute in Hd; injection Hd as <-; reflexivity.
  - left. split; [lia|]. exists (chr "/"). split; reflexivity.
Defined.

(** The end that C5 as first stated gives: the offset of the first byte
    from [from] on that is no byte of a host name, or [size - 1]. *)
Definition claimed_domain_end (data : buffer) (size from e : Z) : Prop :=
  (from <= e /\ exists d, byte_at data e = Some d /\ is_domain_byte d = false) \/
  e = size - 1.

(** C5 as first stated fails when [start] is the last offset of the
    buffer, as for the host of ["http://a"]: no byte is scanned, and [end]
    is [start + 1], the size of the buffer, not [size - 1]. *)
Lemma check_domain_end_past_last_byte :
  let data := text "http://a" in
  check_domain data 8 {| start := 7; end_ := 0 |} true
    = Ret (true, {| start := 7; end_ := 8 |}) /\
  ~ claimed_domain_end data 8 (7 + 1) 8 /\
  autolink__url 1 no_link data 4 8 1 = Ret (true, {| start := 0; end_ := 8 |}).
Proof.
  split; [vm_compute; reflexivity | split; [| vm_compute; reflexivity]].
  intros [[_ [d [Hd _]]] | H]; [vm_compute in Hd; discriminate | lia].
Qed.

(** C6.  [autolink__www] fails if [pos > 0] and the byte before [pos] is
    neither punctuation nor white space; it fails if less than four bytes
    are left at [pos] or the four bytes there are not ["www."].  In
    ["see www.example.com."] it finds ["www.example.com"], without the
    last ['.']; in ["xwww.example.com"] it finds nothing. *)
Theorem www_match :
  (forall link data pos size flags c,
     buffer_ok data -> 0 < pos ->
     byte_at data (pos - 1) = Some c -> ispunct c = false -> isspace c = false ->
     autolink__www link data pos size flags = Ret (false, link)) /\
  (forall link data pos size flags,
     buffer_ok data -> 0 <= pos <= size -> size <= len data ->
     size - pos < 4 \/ slice data pos (pos + 4) <> bytes "www." ->
     autolink__www link data pos size flags = Ret (false, link)) /\
  (forall link flags,
     autolink__www link (text "see www.example.com.") 4 20 flags
     = Ret (true, {| start := 4; end_ := 19 |})) /\
  slice (text "see www.example.com.") 4 19 = bytes "www.example.com" /\
  (forall link flags,
     autolink__www link (text "xwww.example.com") 1 16 flags = Ret (false, link)).
Proof.
  split; [|split; [|split; [|split]]].
  - intros link data pos size flags c. apply www_glued.
  - intros link data pos size flags. apply www_no_prefix.
  - intros link flags. vm_compute. reflexivity.
  - vm_compute. reflexivity.
  - intros link flags. vm_compute. reflexivity.
Qed.

Lemma www_match_witness :
  autolink__www no_link (text "awww.b.c") 1 8 0 = Ret (false, no_link) /\
  autolink__www no_link (text "(WWW.b.c") 1 8 0 = Ret (false, no_link).
Proof.
  split.
  - apply (proj1 www_match no_link (text "awww.b.c") 1 8 0 (chr "a")).
    + apply text_ok. reflexivity.
    + lia.
    + reflexivity.
    + reflexivity.
    + reflexivity.
  - apply (proj1 (proj2 www_match) no_link (text "(WWW.b.c") 1 8 0).
    + apply text_ok. reflexivity.
    + lia.
    + vm_compute. discriminate.
    + right. vm_compute. discriminate.
Defined.

(** C7.  [autolink__email] is to fail when no byte before the ['@'] is
    alphanumeric or one of ['.' '+' '-' '_'].  On a buffer with a NUL
    before the ['@'] it does not: NUL is none of these bytes, yet [strchr]
    finds it in [".+-_"], the first loop walks over it and the span
    [0, 6) is returned. *)
Theorem email_walks_over_nul :
  let data := [0; chr "@"; chr "a"; chr "."; chr "b"; chr "c"] in
  byte_at data 0 = Some 0 /\
  isalnum 0 = false /\
  ~ In 0 (bytes ".+-_") /\
  strchr ".+-_" 0 = true /\
  forall link flags,
    autolink__email link data 1 6 flags = Ret (true, {| start := 0; end_ := 6 |}).
Proof.
  cbv zeta. split; [reflexivity|]. split; [reflexivity|]. split; [|split].
  - vm_compute. intuition discriminate.
  - reflexivity.
  - intros link flags. vm_compute. reflexivity.
Qed.

(** Apart from that, [autolink__email] does fail when no byte before
    [pos] belongs to a local part; and the examples of the specification
    run as it says. *)
Lemma email_no_local_part (link : autolink_pos) (data : buffer) (pos size flags : Z) :
  buffer_ok data -> 0 <= pos <= len data ->
  (pos = 0 \/ exists c, byte_at data (pos - 1) = Some c /\ is_local_byte c = false) ->
  autolink__email link data pos size flags = Ret (false, {| start := pos; end_ := pos |}).
Proof.
  intros Hok Hpos Hno. pose proof Hok as Hok'. unfold buffer_ok in Hok'.
  unfold autolink__email, email_rewind, bound. cbn [loop].
  destruct Hno as [-> | [c [Hc Hl]]].
  - cbn. reflexivity.
  - pose proof (byte_at_len _ _ _ Hc).
    replace (0 <? pos) with true by lia. rewrite size_t_small by lia.
    rewrite (read_byte_at _ _ _ Hc). cbn [bind].
    unfold is_local_byte in Hl. apply orb_false_elim in Hl. destruct Hl as [-> ->].
    cbn [bind start]. rewrite Z.eqb_refl. reflexivity.
Qed.

Lemma email_examples :
  (forall link flags,
     autolink__email link (text "contact me at a.b@example.com.") 17 30 flags
     = Ret (true, {| start := 14; end_ := 29 |})) /\
  slice (text "contact me at a.b@example.com.") 14 29 = bytes "a.b@example.com" /\
  (forall link flags,
     autolink__email link (text "@example.com") 0 12 flags
     = Ret (false, {| start := 0; end_ := 0 |})).
Proof.
  split; [|split].
  - intros link flags. vm_compute. reflexivity.
  - vm_compute. reflexivity.
  - intros link flags. vm_compute. reflexivity.
Qed.



(** C9.  [autolink_issafe] returns true if and only if the slice begins,
    letters compared without regard to case, with one of ["/"],
    ["http://"], ["https://"], ["ftp://"], ["mailto:"], is longer than that
    prefix, and has an alphanumeric byte right after it.  ["HTTP://x"] is
    safe; ["http://"] and ["httpx"] are not. *)
Theorem issafe_correct :
  (forall (link : buffer) (link_len : Z),
     link_len <= len link ->
     exists b,
       autolink_issafe link link_len = Ret b /\
       (b = true <->
        exists uri,
          In uri ["/"; "http://"; "https://"; "ftp://"; "mailto:"]%string /\
          begins_nocase link uri /\
          strlen uri < link_len /\
          exists c, byte_at link (strlen uri) = Some c /\ isalnum c = true)) /\
  autolink_issafe (text "HTTP://x") 8 = Ret true /\
  autolink_issafe (text "http://") 7 = Ret false /\
  autolink_issafe (text "httpx") 5 = Ret false.
Proof.
  split; [|repeat split; vm_compute; reflexivity].
  intros link link_len Hlen.
  exact (issafe_from_spec valid_uris valid_uris_no_nul link link_len Hlen).
Qed.

Lemma issafe_correct_witness :
  exists b,
    autolink_issafe (text "FTP://host/file") 15 = Ret b /\
    (b = true <->
     exists uri,
       In uri ["/"; "http://"; "https://"; "ftp://"; "mailto:"]%string /\
       begins_nocase (text "FTP://host/file") uri /\
       strlen uri < 15 /\
       exists c, byte_at (text "FTP://host/file") (strlen uri) = Some c /\ isalnum c = true).
Proof.
  apply (proj1 issafe_correct (text "FTP://host/file") 15).
  vm_compute. discriminate.
Defined.

(** C10.  [autolink__www] takes ["www.foo"] as a link, the span [0, 7),
    though no ['.'] follows the ["www."]: [check_domain] begins at the
    first ['w'], and the one ['.'] it counts is that of ["www."]. *)
Theorem www_single_label :
  let data := text "www.foo" in
  (forall link flags,
     autolink__www link data 0 7 flags = Ret (true, {| start := 0; end_ := 7 |})) /\
  occurrences (chr ".") (slice data 4 7) = 0 /\
  check_domain data 7 {| start := 0; end_ := 0 |} false
    = Ret (true, {| start := 0; end_ := 6 |}) /\
  occurrences (chr ".") (slice data 1 6) = 1 /\
  byte_at data 3 = Some (chr ".").
Proof.
  cbv zeta. split; [intros link flags; vm_compute; reflexivity|].
  repeat split; vm_compute; reflexivity.
Qed.

(* ================================================================= *)
(** * Further properties of [autolink_delim] *)

Lemma slice_app (data : buffer) (s m e : Z) :
  0 <= s <= m -> m <= e <= len data ->
  slice data s e = slice data s m ++ slice data m e.
Proof.
  intros Hs He.
  replace e with (m + Z.of_nat (Z.to_nat (e - m))) by lia.
  assert (Hn : m + Z.of_nat (Z.to_nat (e - m)) <= len data) by lia.
  revert Hn. generalize (Z.to_nat (e - m)) as n. clear He e.
  induction n as [|n IH]; intros Hn.
  - replace (m + Z.of_nat 0) with m by lia.
    rewrite (slice_empty data m m) by lia. rewrite app_nil_r. reflexivity.
  - replace (m + Z.of_nat (S n)) with (m + Z.of_nat n + 1) in * by lia.
    destruct (byte_at_in data (m + Z.of_nat n) ltac:(lia)) as [c Hc].
    rewrite (slice_snoc data s (m + Z.of_nat n) c ltac:(lia) Hc).
    rewrite (slice_snoc data m (m + Z.of_nat n) c ltac:(lia) Hc).
    rewrite IH by lia. rewrite app_assoc. reflexivity.
Qed.

Lemma occurrences_app (c : Z) (l1 l2 : list Z) :
  occurrences c (l1 ++ l2) = occurrences c l1 + occurrences c l2.
Proof. unfold occurrences. rewrite count_occ_app. lia. Qed.

(** A byte occurs in a slice exactly if it stands at one of its offsets. *)
Lemma occurrences_slice_pos (data : buffer) (x s e : Z) :
  0 <= s -> e <= len data ->
  (0 < occurrences x (slice data s e) <->
   exists d, s <= d < e /\ byte_at data d = Some x).
Proof.
  intros Hs He. destruct (Z_le_gt_dec e s) as [Hle | Hgt].
  { rewrite slice_empty by lia. rewrite occurrences_nil. split; [lia|].
    intros [d [Hd _]]. lia. }
  replace e with (s + Z.of_nat (Z.to_nat (e - s))) in * by lia.
  revert He. generalize (Z.to_nat (e - s)) as n. clear Hgt e.
  induction n as [|n IH]; intros He.
  - replace (s + Z.of_nat 0) with s by lia. rewrite slice_empty by lia.
    rewrite occurrences_nil. split; [lia|]. intros [d [Hd _]]. lia.
  - replace (s + Z.of_nat (S n)) with (s + Z.of_nat n + 1) in * by lia.
    destruct (byte_at_in data (s + Z.of_nat n) ltac:(lia)) as [c Hc].
    rewrite (slice_snoc data s (s + Z.of_nat n) c ltac:(lia) Hc), occurrences_snoc.
    pose proof (occurrences_bound x (slice data s (s + Z.of_nat n))) as Hb.
    specialize (IH ltac:(lia)). split.
    + intros Hpos. destruct (c =? x) eqn:Ecx.
      * exists (s + Z.of_nat n). split; [lia|]. rewrite Hc. f_equal. lia.
      * destruct (proj1 IH ltac:(lia)) as [d [Hd Hdx]]. exists d. split; [lia | exact Hdx].
    + intros [d [Hd Hdx]]. destruct (Z.eq_dec d (s + Z.of_nat n)) as [-> | Hne].
      * rewrite Hc in Hdx. inversion Hdx; subst. rewrite Z.eqb_refl. lia.
      * assert (0 < occurrences x (slice data s (s + Z.of_nat n))).
        { apply IH. exists d. split; [lia | exact Hdx]. }
        destruct (c =? x); lia.
Qed.

(** X1.  [autolink_delim] never grows a span: it keeps its start and
    moves its end to the left or not at all; no ['<'] is left in the span
    it returns; and it fails only with an empty span. *)
Theorem delim_only_shrinks (data : buffer) (link l : autolink_pos) (b : bool) :
  buffer_ok data -> span_ok data link -> 0 <= end_ link ->
  autolink_delim data link = Ret (b, l) ->
  start l = start link /\ end_ l <= end_ link /\
  (forall i c, start l <= i < end_ l -> byte_at data i = Some c -> c <> chr "<") /\
  (b = false -> end_ l = start l).
Proof.
  intros Hok Hspan H0 H. unfold autolink_delim in H.
  apply bind_Ret in H. destruct H as [l1 [Htrim H]].
  destruct (delim_trim_spec data link l1 Hok Hspan Htrim) as [Hs [He [_ Hno]]].
  assert (H01 : 0 <= end_ l1).
  { unfold delim_trim in Htrim.
    destruct (delim_truncate_spec data link Hok Hspan) as [e1 [Ht [He1 [Hse [_ Hlt]]]]].
    rewrite Ht in Htrim. cbn [bind] in Htrim. destruct Hspan as [Hs0 He0].
    apply (trim_loop_nonneg data (set_end link e1) l1 Hok); [split; simpl; lia | | exact Htrim].
    simpl. destruct (Z.eq_dec e1 (end_ link)); [lia|]. destruct Hlt; lia. }
  destruct Hspan as [Hs0 He0].
  destruct (delim_balance_Ret data l1 l b Hok ltac:(split; lia) H01 H) as [Hst [Hf Ht]].
  destruct b.
  - destruct (Ht eq_refl) as [_ [_ Hen]].
    split; [lia|]. split; [lia|]. split; [|discriminate].
    intros i c Hi. apply Hno. lia.
  - destruct (Hf eq_refl) as [-> Hemp].
    split; [lia|]. split; [lia|]. split; [|intros _; exact Hemp].
    intros i c Hi. lia.
Qed.

Lemma delim_only_shrinks_witness :
  start {| start := 4; end_ := 20 |} = start {| start := 4; end_ := 26 |} /\
  end_ {| start := 4; end_ := 20 |} <= end_ {| start := 4; end_ := 26 |} /\
  (forall i c, start {| start := 4; end_ := 20 |} <= i < end_ {| start := 4; end_ := 20 |} ->
     byte_at (text "see http://a.b/c?x=1<br>..") i = Some c -> c <> chr "<") /\
  (true = false -> end_ {| start := 4; end_ := 20 |} = start {| start := 4; end_ := 20 |}).
Proof.
  apply (delim_only_shrinks (text "see http://a.b/c?x=1<br>..")
           {| start := 4; end_ := 26 |} {| start := 4; end_ := 20 |} true).
  - apply text_ok. reflexivity.
  - split; vm_compute; discriminate.
  - simpl. lia.
  - vm_compute. reflexivity.
Defined.

Lemma strchr_punct_not_lt (c : Z) : strchr "?!.,:" c = true -> c <> chr "<".
Proof. ctype. Qed.

(** X2.  A span that holds nothing but bytes of the first test of the
    trimming loop (['?' '!' '.' ',' ':'], or NUL) is trimmed away
    entirely, the empty span too: [autolink_delim] fails and leaves
    [end = start]. *)
Theorem delim_punctuation_only_fails (data : buffer) (link : autolink_pos) :
  buffer_ok data -> 0 <= start link <= end_ link -> end_ link <= len data ->
  (forall i c, start link <= i < end_ link -> byte_at data i = Some c ->
               strchr "?!.,:" c = true) ->
  autolink_delim data link = Ret (false, set_end link (start link)).
Proof.
  intros Hok Hs He Hp. pose proof Hok as Hok'. unfold buffer_ok in Hok'.
  unfold autolink_delim, delim_trim.
  destruct (delim_truncate_spec data link Hok ltac:(split; lia)) as [e1 [Ht [He1 [_ [_ Hlt]]]]].
  assert (e1 = end_ link).
  { destruct (Z.eq_dec e1 (end_ link)) as [|Hne]; [assumption|]. exfalso.
    destruct Hlt as [Hse Hb]; [lia|].
    apply (strchr_punct_not_lt (chr "<")); [|reflexivity].
    apply (Hp e1); [lia | exact Hb]. }
  subst e1. rewrite set_end_same in Ht. rewrite Ht. cbn [bind].
  unfold trim_loop.
  destruct (loop_total (trim_step data)
    (fun l => start l = start link /\ start link <= end_ l <= end_ link)
    (fun l => l = set_end link (start link))
    (fun l => Z.to_nat (end_ l))) with (fuel := bound data) (s := link) as [r [E ->]].
  - intros l [Hl1 Hl2]. destruct (Z_lt_le_dec (start link) (end_ l)) as [Hlt' | Hge].
    + destruct (byte_at_in data (end_ l - 1) ltac:(lia)) as [c Hc].
      left. eexists. split.
      * apply (trim_step_punct data l c Hok ltac:(lia) Hc).
        apply (Hp (end_ l - 1)); [lia | exact Hc].
      * simpl. lia.
    + right. eexists. split; [apply trim_step_done; [exact Hok | left; lia]|].
      destruct l as [s e]. unfold set_end. simpl in *. f_equal; lia.
  - split; [reflexivity | lia].
  - apply bound_len. lia.
  - rewrite E. cbn [bind]. unfold delim_balance. simpl. rewrite Z.eqb_refl. reflexivity.
Qed.

Lemma delim_punctuation_only_fails_witness :
  autolink_delim (text "wait ...?!") {| start := 5; end_ := 10 |}
  = Ret (false, {| start := 5; end_ := 5 |}).
Proof.
  apply (delim_punctuation_only_fails (text "wait ...?!") {| start := 5; end_ := 10 |}).
  - apply text_ok. reflexivity.
  - simpl. lia.
  - vm_compute. discriminate.
  - intros i c Hi Hc. simpl in Hi.
    assert (i = 5 \/ i = 6 \/ i = 7 \/ i = 8 \/ i = 9) as [-> | [-> | [-> | [-> | ->]]]] by lia;
      vm_compute in Hc; inversion Hc; reflexivity.
Defined.

(** X3.  On a span of the buffer that holds no [';'], [autolink_delim]
    returns without a read outside the buffer, and the span it returns is
    not inverted: [start <= end]. *)
Theorem delim_without_semicolon (data : buffer) (link : autolink_pos) :
  buffer_ok data -> 0 <= start link <= end_ link -> end_ link <= len data ->
  (forall i c, start link <= i < end_ link -> byte_at data i = Some c -> c <> chr ";") ->
  exists b e,
    autolink_delim data link = Ret (b, set_end link e) /\
    start link <= e <= end_ link.
Proof.
  intros Hok Hs He Hsc. pose proof Hok as Hok'. unfold buffer_ok in Hok'.
  unfold autolink_delim, delim_trim.
  destruct (delim_truncate_spec data link Hok ltac:(split; lia))
    as [e1 [Ht [He1 [Hse _]]]].
  specialize (Hse ltac:(lia)). rewrite Ht. cbn [bind].
  unfold trim_loop.
  destruct (loop_total (trim_step data)
    (fun l => start l = start link /\ start link <= end_ l <= e1)
    (fun l => start l = start link /\ start link <= end_ l <= e1)
    (fun l => Z.to_nat (end_ l))) with (fuel := bound data) (s := set_end link e1)
    as [[s2 e2] [E [Hs2 He2]]].
  - intros l [Hl1 Hl2]. destruct (Z_lt_le_dec (start link) (end_ l)) as [Hlt' | Hge].
    + destruct (byte_at_in data (end_ l - 1) ltac:(lia)) as [c Hc].
      destruct (strchr "?!.,:" c) eqn:Ep.
      * left. eexists. split; [apply (trim_step_punct data l c Hok ltac:(lia) Hc Ep)|].
        simpl. lia.
      * right. eexists. split; [|split; [exact Hl1 | exact Hl2]].
        apply trim_step_done; [exact Hok|]. right. exists c.
        split; [exact Hc|]. split; [exact Ep|]. apply (Hsc (end_ l - 1)); [lia | exact Hc].
    + right. eexists. split; [|split; [exact Hl1 | exact Hl2]].
      apply trim_step_done; [exact Hok | left; lia].
  - simpl. lia.
  - simpl. apply bound_len. lia.
  - simpl in Hs2, He2. subst s2. rewrite E. cbn [bind].
    destruct (Z.eq_dec e2 (start link)) as [-> | Hne].
    + exists false, (start link). split; [|lia].
      unfold delim_balance. simpl. rewrite Z.eqb_refl. reflexivity.
    + destruct (byte_at_in data (e2 - 1) ltac:(lia)) as [c Hc].
      rewrite (delim_balance_spec data {| start := start link; end_ := e2 |} c Hok);
        [| split; simpl; lia | simpl; lia | exact Hc].
      simpl. match goal with |- context [if ?t then _ else _] => destruct t end.
      * exists true, (e2 - 1). split; [reflexivity | lia].
      * exists true, e2. split; [reflexivity | lia].
Qed.

Lemma delim_without_semicolon_witness :
  exists b e,
    autolink_delim (text "(www.a.b)).") {| start := 1; end_ := 11 |}
      = Ret (b, set_end {| start := 1; end_ := 11 |} e) /\
    start {| start := 1; end_ := 11 |} <= e <= end_ {| start := 1; end_ := 11 |}.
Proof.
  apply (delim_without_semicolon (text "(www.a.b)).") {| start := 1; end_ := 11 |}).
  - apply text_ok. reflexivity.
  - simpl. lia.
  - vm_compute. discriminate.
  - intros i c Hi Hc. simpl in Hi.
    assert (i = 1 \/ i = 2 \/ i = 3 \/ i = 4 \/ i = 5 \/ i = 6 \/ i = 7 \/ i = 8 \/
            i = 9 \/ i = 10)
      as [-> | [-> | [-> | [-> | [-> | [-> | [-> | [-> | [-> | ->]]]]]]]]] by lia;
      vm_compute in Hc; inversion Hc; discriminate.
Defined.

Lemma trim_step_lone_semicolon (data : buffer) :
  buffer_ok data -> byte_at data 0 = Some (chr ";") ->
  trim_step data {| start := 0; end_ := 1 |} = Undefined.
Proof.
  intros Hok H0. unfold buffer_ok in Hok. unfold trim_step. cbn [start end_].
  change (0 <? 1) with true. change (size_t (1 - 1)) with 0. cbv iota.
  rewrite (read_byte_at _ _ _ H0). cbn [bind].
  change (strchr "?!.,:" (chr ";")) with false. rewrite Z.eqb_refl. cbv iota.
  change (size_t (1 - 2)) with SIZE_MAX.
  unfold walk_alpha, bound. cbn [loop]. change (0 <? SIZE_MAX) with true. cbv beta iota.
  unfold read. destruct (byte_at data SIZE_MAX) eqn:Eb; [|reflexivity].
  apply byte_at_len in Eb. lia.
Qed.

Lemma trim_loop_down_to_semicolon (data : buffer) :
  buffer_ok data -> byte_at data 0 = Some (chr ";") ->
  forall (n fuel : nat), (n < fuel)%nat ->
    1 + Z.of_nat n <= len data ->
    (forall i c, 1 <= i < 1 + Z.of_nat n -> byte_at data i = Some c ->
                 strchr "?!.,:" c = true) ->
    loop fuel (trim_step data) {| start := 0; end_ := 1 + Z.of_nat n |} = Undefined.
Proof.
  intros Hok H0. induction n as [|n IH]; intros fuel Hf Hlen Hp.
  - destruct fuel as [|fuel]; [lia|]. cbn [loop]. change (1 + Z.of_nat 0) with 1.
    rewrite (trim_step_lone_semicolon data Hok H0). reflexivity.
  - destruct fuel as [|fuel]; [lia|]. cbn [loop].
    destruct (byte_at_in data (1 + Z.of_nat n) ltac:(lia)) as [c Hc].
    rewrite (trim_step_punct data {| start := 0; end_ := 1 + Z.of_nat (S n) |} c Hok).
    + cbn [bind]. unfold set_end. cbn [start end_].
      replace (1 + Z.of_nat (S n) - 1) with (1 + Z.of_nat n) by lia.
      apply IH; [lia | lia |]. intros i c' Hi. apply Hp. lia.
    + simpl. lia.
    + cbn [end_]. replace (1 + Z.of_nat (S n) - 1) with (1 + Z.of_nat n) by lia. exact Hc.
    + apply (Hp (1 + Z.of_nat n)); [lia | exact Hc].
Qed.

(** X4.  On a span that starts the buffer with [';'], followed by nothing
    but bytes that the loop trims, [autolink_delim] reads outside the
    buffer: the loop comes down to [end = 1], and the walk to the left of
    the [';'] begins at [end - 2], which is no offset of the buffer. *)
Theorem delim_reads_before_buffer (data : buffer) (e : Z) :
  buffer_ok data -> 1 <= e <= len data ->
  byte_at data 0 = Some (chr ";") ->
  (forall i c, 1 <= i < e -> byte_at data i = Some c -> strchr "?!.,:" c = true) ->
  autolink_delim data {| start := 0; end_ := e |} = Undefined.
Proof.
  intros Hok He H0 Hp. unfold autolink_delim, delim_trim.
  destruct (delim_truncate_spec data {| start := 0; end_ := e |} Hok ltac:(split; simpl; lia))
    as [e1 [Ht [He1 [_ [_ Hlt]]]]].
  cbn [start end_] in *.
  assert (e1 = e).
  { destruct (Z.eq_dec e1 e) as [|Hne]; [assumption|]. exfalso.
    destruct Hlt as [Hse Hb]; [lia|].
    destruct (Z.eq_dec e1 0) as [-> | Hnz].
    - rewrite H0 in Hb. discriminate.
    - apply (strchr_punct_not_lt (chr "<")); [|reflexivity].
      apply (Hp e1); [lia | exact Hb]. }
  subst e1. rewrite Ht. cbn [bind]. unfold set_end. cbn [start end_].
  unfold trim_loop.
  replace e with (1 + Z.of_nat (Z.to_nat (e - 1))) by lia.
  rewrite (trim_loop_down_to_semicolon data Hok H0 (Z.to_nat (e - 1)) (bound data)).
  - reflexivity.
  - unfold bound, len in *. lia.
  - lia.
  - intros i c Hi. apply Hp. lia.
Qed.

Lemma delim_reads_before_buffer_witness :
  autolink_delim (text ";.. and") {| start := 0; end_ := 3 |} = Undefined.
Proof.
  apply (delim_reads_before_buffer (text ";.. and") 3).
  - apply text_ok. reflexivity.
  - split; vm_compute; discriminate.
  - reflexivity.
  - intros i c Hi Hc.
    assert (i = 1 \/ i = 2) as [-> | ->] by lia; vm_compute in Hc; inversion Hc; reflexivity.
Defined.

(* ================================================================= *)
(** * Further properties of [autolink__www] *)

(** The byte before [pos] allows a link to begin at [pos]. *)
Definition free_standing (data : buffer) (pos : Z) : Prop :=
  pos = 0 \/ exists c, byte_at data (pos - 1) = Some c /\ (ispunct c || isspace c) = true.

Lemma www_unfold (link : autolink_pos) (data : buffer) (pos size flags : Z) :
  buffer_ok data -> 0 <= pos < size -> size <= len data ->
  free_standing data pos -> 4 <= size - pos ->
  slice data pos (pos + 4) = bytes "www." ->
  autolink__www link data pos size flags =
    ('(ok, l) <- check_domain data size {| start := pos; end_ := 0 |} false ;;
     if negb ok then Ret (false, l)
     else l <- skip_nonspace data size l ;; autolink_delim data l).
Proof.
  intros Hok Hpos Hsize Hfree H4 Hwww. pose proof Hok as Hok'. unfold buffer_ok in Hok'.
  unfold autolink__www.
  assert (Hg : (if 0 <? pos
                then c <- read data (size_t (pos - 1));;
                     Ret (negb (ispunct c) && negb (isspace c))
                else Ret false) = Ret false).
  { destruct Hfree as [-> | [c [Hc Hps]]]; [reflexivity|].
    pose proof (byte_at_len _ _ _ Hc).
    replace (0 <? pos) with true by lia. rewrite size_t_small by lia.
    rewrite (read_byte_at _ _ _ Hc). cbn [bind]. f_equal.
    destruct (ispunct c), (isspace c); try reflexivity; discriminate. }
  rewrite Hg. cbn [bind]. rewrite size_t_small by lia.
  replace (size - pos <? 4) with false by lia.
  destruct (memcmp_eq_spec (bytes "www.") data pos ltac:(lia)) as [same [Hsame Hiff]].
  { change (Z.of_nat (List.length (bytes "www."))) with 4. lia. }
  change (Z.of_nat (List.length (bytes "www."))) with 4 in Hiff.
  rewrite Hsame. cbn [bind]. rewrite (proj2 Hiff Hwww). reflexivity.
Qed.

(** With five bytes or more left, a free-standing ["www."] is always a
    link. *)
Lemma www_run (link : autolink_pos) (data : buffer) (pos size flags : Z) :
  buffer_ok data -> 0 <= pos < size -> size <= len data ->
  free_standing data pos -> 5 <= size - pos ->
  slice data pos (pos + 4) = bytes "www." ->
  exists e e2 e',
    domain_stop data size (pos + 1) e /\
    nonspace_stop data size e e2 /\
    autolink__www link data pos size flags = Ret (true, {| start := pos; end_ := e' |}) /\
    pos + 3 <= e' <= e2.
Proof.
  intros Hok Hpos Hsize Hfree H5 Hwww. pose proof Hok as Hok'. unfold buffer_ok in Hok'.
  rewrite (www_unfold link data pos size flags Hok Hpos Hsize Hfree ltac:(lia) Hwww).
  destruct (slice_www data pos ltac:(lia) Hwww) as [H0 [H1 [H2 H3]]].
  destruct (check_domain_scan data size {| start := pos; end_ := 0 |} false (chr "w") Hok Hsize)
    as [e [Hstop Hcd]]; [simpl; lia | exact H0 | reflexivity |].
  cbn [start] in *. pose proof Hstop as [He [Hdom Hnd]].
  assert (He4 : pos + 4 <= e).
  { destruct (Z_le_gt_dec (pos + 4) e); [assumption|]. exfalso.
    destruct Hnd as [c [Hc Hndc]]; [lia|].
    assert (e = pos + 1 \/ e = pos + 2 \/ e = pos + 3) as [-> | [-> | ->]] by lia;
      rewrite Hc in *; [inversion H1 | inversion H2 | inversion H3]; subst; discriminate. }
  assert (Hnp : (0 <? occurrences (chr ".") (slice data (pos + 1) e)) = true).
  { apply Z.ltb_lt. apply occurrences_slice_pos; [lia | lia |].
    exists (pos + 3). split; [lia | exact H3]. }
  rewrite Hcd, Hnp. cbn [bind orb negb]. unfold set_end. cbn [start end_].
  destruct (skip_nonspace_spec data size {| start := pos; end_ := e |} Hok Hsize)
    as [e2 [Hskip Hns]]; [simpl; lia|].
  cbn [start end_] in *. rewrite Hskip. cbn [bind]. unfold set_end. cbn [start end_].
  pose proof Hns as [He2 _].
  assert (Hanch : anchored data pos (pos + 3) (pos + 3)).
  { constructor.
    - lia.
    - intros i c Hi Hc.
      assert (i = pos \/ i = pos + 1 \/ i = pos + 2) as [-> | [-> | ->]] by lia;
        rewrite Hc in *; [inversion H0 | inversion H1 | inversion H2]; subst; discriminate.
    - exists (chr "w"). replace (pos + 3 - 1) with (pos + 2) by lia.
      split; [exact H2|]. repeat split; discriminate.
    - exists (chr "."). split; [exact H3 | reflexivity].
    - intros i c Hi. lia.
    - intros i c Hi Hc.
      assert (i = pos + 2 \/ i = pos + 3) as [-> | ->] by lia;
        rewrite Hc in *; [inversion H2 | inversion H3]; subst; discriminate. }
  destruct (delim_anchored data pos e2 (pos + 3) (pos + 3) Hok Hanch ltac:(lia))
    as [e' [Hdelim He']].
  exists e, e2, e'. rewrite Hdelim.
  split; [exact Hstop|]. split; [exact Hns|]. split; [reflexivity | lia].
Qed.

(** A ["www."] that ends the buffer is no link: [check_domain] does not
    come to its ['.']. *)
Lemma www_at_buffer_end (link : autolink_pos) (data : buffer) (pos size flags : Z) :
  buffer_ok data -> 0 <= pos < size -> size <= len data ->
  free_standing data pos -> size - pos = 4 ->
  slice data pos (pos + 4) = bytes "www." ->
  autolink__www link data pos size flags = Ret (false, {| start := pos; end_ := pos + 3 |}).
Proof.
  intros Hok Hpos Hsize Hfree H4 Hwww. pose proof Hok as Hok'. unfold buffer_ok in Hok'.
  rewrite (www_unfold link data pos size flags Hok Hpos Hsize Hfree ltac:(lia) Hwww).
  destruct (slice_www data pos ltac:(lia) Hwww) as [H0 [H1 [H2 H3]]].
  destruct (check_domain_scan data size {| start := pos; end_ := 0 |} false (chr "w") Hok Hsize)
    as [e [Hstop Hcd]]; [simpl; lia | exact H0 | reflexivity |].
  cbn [start] in *. destruct Hstop as [He [Hdom Hnd]].
  assert (e = pos + 3).
  { destruct (Z.eq_dec e (pos + 3)); [assumption|]. exfalso.
    destruct Hnd as [c [Hc Hndc]]; [lia|].
    assert (e = pos + 1 \/ e = pos + 2) as [-> | ->] by lia;
      rewrite Hc in *; [inversion H1 | inversion H2]; subst; discriminate. }
  subst e.
  assert (Hnp : (0 <? occurrences (chr ".") (slice data (pos + 1) (pos + 3))) = false).
  { apply Z.ltb_ge.
    destruct (Z_lt_le_dec 0 (occurrences (chr ".") (slice data (pos + 1) (pos + 3))))
      as [Hlt | Hle]; [exfalso | exact Hle].
    apply occurrences_slice_pos in Hlt; [| lia | lia].
    destruct Hlt as [d [Hd Hdd]].
    assert (d = pos + 1 \/ d = pos + 2) as [-> | ->] by lia;
      rewrite Hdd in *; [inversion H1 | inversion H2]. }
  rewrite Hcd, Hnp. reflexivity.
Qed.

Lemma free_standing_dec (data : buffer) (pos : Z) :
  buffer_ok data -> 0 <= pos <= len data ->
  free_standing data pos \/
  (0 < pos /\ exists c, byte_at data (pos - 1) = Some c /\
                        ispunct c = false /\ isspace c = false).
Proof.
  intros Hok Hpos. destruct (Z.eq_dec pos 0) as [-> | Hnz]; [left; left; reflexivity|].
  destruct (byte_at_in data (pos - 1) ltac:(lia)) as [c Hc].
  destruct (ispunct c || isspace c) eqn:E.
  - left. right. eauto.
  - right. split; [lia|]. exists c. apply orb_false_elim in E. tauto.
Qed.

(** X5.  [autolink__www] finds a link at a position of the buffer if and
    only if [pos] is 0 or the byte before [pos] is punctuation or white
    space, the four bytes at [pos] are ["www."], and five bytes or more are
    left at [pos]: whatever follows, and a ["www."] that ends the buffer is
    no link. *)
Theorem www_succeeds_iff (link : autolink_pos) (data : buffer) (pos size flags : Z) :
  buffer_ok data -> 0 <= pos < size -> size <= len data ->
  ((exists l, autolink__www link data pos size flags = Ret (true, l)) <->
   free_standing data pos /\ 5 <= size - pos /\
   slice data pos (pos + 4) = bytes "www.").
Proof.
  intros Hok Hpos Hsize. split.
  - intros [l H].
    destruct (free_standing_dec data pos Hok ltac:(lia)) as [Hfree | [H0 [c [Hc [Hp Hs]]]]].
    2:{ rewrite (www_glued link data pos size flags c Hok H0 Hc Hp Hs) in H. discriminate. }
    destruct (list_eq_dec Z.eq_dec (slice data pos (pos + 4)) (bytes "www.")) as [Hwww | Hno].
    2:{ rewrite (www_no_prefix link data pos size flags Hok ltac:(lia) Hsize) in H;
          [discriminate | right; exact Hno]. }
    destruct (Z_lt_le_dec (size - pos) 4) as [Hlt | Hge].
    { rewrite (www_no_prefix link data pos size flags Hok ltac:(lia) Hsize) in H;
        [discriminate | left; exact Hlt]. }
    destruct (Z.eq_dec (size - pos) 4) as [H4 | Hne].
    { rewrite (www_at_buffer_end link data pos size flags Hok Hpos Hsize Hfree H4 Hwww) in H.
      discriminate. }
    split; [exact Hfree|]. split; [lia | exact Hwww].
  - intros [Hfree [H5 Hwww]].
    destruct (www_run link data pos size flags Hok Hpos Hsize Hfree H5 Hwww)
      as [e [e2 [e' [_ [_ [Hrun _]]]]]].
    eauto.
Qed.

Lemma www_succeeds_iff_witness :
  (exists l, autolink__www no_link (text "at www.") 3 7 0 = Ret (true, l)) <->
  free_standing (text "at www.") 3 /\ 5 <= 7 - 3 /\
  slice (text "at www.") 3 (3 + 4) = bytes "www.".
Proof.
  apply (www_succeeds_iff no_link (text "at www.") 3 7 0).
  - apply text_ok. reflexivity.
  - lia.
  - vm_compute. discriminate.
Defined.

(* ================================================================= *)
(** * Further properties of [autolink__url] *)

(** All that a successful [autolink__url] has found. *)
Lemma url_success_facts
    (short_domains : Z) (link l : autolink_pos) (data : buffer) (pos size flags : Z) :
  buffer_ok data -> 0 <= pos < size -> size <= len data ->
  autolink__url short_domains link data pos size flags = Ret (true, l) ->
  byte_at data pos = Some (chr ":") /\ 4 <= size - pos /\
  byte_at data (pos + 1) = Some (chr "/") /\ byte_at data (pos + 2) = Some (chr "/") /\
  exists c3 e e2,
    byte_at data (pos + 3) = Some c3 /\ isalnum c3 = true /\
    domain_stop data size (pos + 4) e /\
    (negb (Z.land flags short_domains =? 0)
     || (0 <? occurrences (chr ".") (slice data (pos + 4) e))) = true /\
    nonspace_stop data size e e2 /\
    scheme_start data pos (start l) /\
    autolink_issafe (skipn (Z.to_nat (start l)) data) (size - start l) = Ret true /\
    pos + 4 <= end_ l <= e2.
Proof.
  intros Hok Hpos Hsize H. pose proof Hok as Hok'. unfold buffer_ok in Hok'.
  pose proof H as Hrun. unfold autolink__url in H.
  apply bind_Ret in H. destruct H as [c [Hc H]]. apply read_Ret in Hc.
  destruct (c =? chr ":") eqn:Ecolon; cbn [negb] in H; [|discriminate].
  assert (c = chr ":") by lia. subst c.
  apply bind_Ret in H. destruct H as [no_slashes [Hn H]].
  destruct no_slashes; [discriminate|].
  rewrite size_t_small in Hn by lia.
  destruct (size - pos <? 4) eqn:E4; [discriminate|].
  rewrite !size_t_small in Hn by lia.
  apply bind_Ret in Hn. destruct Hn as [c1 [Hc1 Hn]]. apply read_Ret in Hc1.
  destruct (c1 =? chr "/") eqn:E1; cbn [negb] in Hn; [|discriminate].
  apply bind_Ret in Hn. destruct Hn as [c2 [Hc2 Hn]]. apply read_Ret in Hc2.
  destruct (c2 =? chr "/") eqn:E2; cbn [negb] in Hn; [|discriminate].
  assert (c1 = chr "/") by lia. assert (c2 = chr "/") by lia. subst c1 c2.
  rewrite size_t_small in H by lia.
  apply bind_Ret in H. destruct H as [[ok l1] [Hcd H]].
  destruct ok; cbn [negb] in H; [|discriminate].
  split; [exact Hc|]. split; [lia|]. split; [exact Hc1|]. split; [exact Hc2|].
  destruct (byte_at_in data (pos + 3) ltac:(lia)) as [c3 Hc3].
  destruct (isalnum c3) eqn:Ea3.
  2:{ rewrite (check_domain_reject data size {| start := pos + 3; end_ := 0 |} _ c3 Hc3 Ea3)
        in Hcd. discriminate. }
  destruct (check_domain_scan data size {| start := pos + 3; end_ := 0 |}
              (negb (Z.land flags short_domains =? 0)) c3 Hok Hsize)
    as [e [Hstop Hcd']]; [simpl; lia | exact Hc3 | exact Ea3 |].
  cbn [start] in *. replace (pos + 3 + 1) with (pos + 4) in * by lia.
  pose proof Hcd as Hcd0. rewrite Hcd' in Hcd. injection Hcd as Hok1 Hl1.
  destruct (url_after_domain short_domains link l1 data pos size flags Hok Hpos Hsize Hc
              ltac:(lia) Hc1 Hc2 Hcd0)
    as [e2 [s [safe [l' [Hns [Hsch [Hsafe [Hrun' [Hst [Hen _]]]]]]]]]].
  rewrite Hrun in Hrun'. injection Hrun' as Hsf Hl. subst safe l' s.
  rewrite <- Hl1 in Hns. unfold set_end in Hns. cbn [end_] in Hns.
  exists c3, e, e2.
  split; [exact Hc3|]. split; [exact Ea3|]. split; [exact Hstop|]. split; [exact Hok1|].
  split; [exact Hns|]. split; [exact Hsch|]. split; [exact Hsafe | exact Hen].
Qed.

Lemma map_firstn_nth {A B : Type} (f : A -> B) (d : B) (l2 : list B) :
  forall (l : list A),
    map f (firstn (List.length l2) l) = l2 ->
    forall k, (k < List.length l2)%nat ->
      exists c, nth_error l k = Some c /\ f c = nth k l2 d.
Proof.
  induction l2 as [|y l2 IH]; intros l H k Hk; simpl in Hk.
  - lia.
  - destruct l as [|c l]; simpl in H; [discriminate|].
    injection H as Hc Hrest. destruct k as [|k]; simpl.
    + exists c. split; [reflexivity | exact Hc].
    + apply IH; [exact Hrest | lia].
Qed.

Lemma nth_error_byte_at (data : buffer) (n : nat) (c : Z) :
  nth_error data n = Some c -> byte_at data (Z.of_nat n) = Some c.
Proof.
  intros H. unfold byte_at.
  assert (n < List.length data)%nat by (apply nth_error_Some; congruence).
  replace ((0 <=? Z.of_nat n) && (Z.of_nat n <? Z.of_nat (List.length data))) with true by lia.
  rewrite Nat2Z.id. exact H.
Qed.

(** The bytes of a slice that begins with [uri], letters compared
    without regard to case. *)
Lemma begins_nocase_byte (data : buffer) (s : Z) (uri : string) (k : Z) :
  0 <= s -> begins_nocase (skipn (Z.to_nat s) data) uri ->
  0 <= k < strlen uri ->
  exists c, byte_at data (s + k) = Some c /\
            tolower c = tolower (nth (Z.to_nat k) (bytes uri) 0).
Proof.
  intros Hs Hb Hk. unfold begins_nocase in Hb. unfold strlen in Hk.
  rewrite <- (bytes_length uri) in Hb, Hk.
  rewrite <- (length_map tolower (bytes uri)) in Hb.
  destruct (map_firstn_nth tolower (tolower 0) (map tolower (bytes uri)) _ Hb (Z.to_nat k))
    as [c [Hc Hl]]; [rewrite length_map; lia|].
  rewrite nth_error_skipn_add in Hc. apply nth_error_byte_at in Hc.
  exists c. split.
  - replace (s + k) with (Z.of_nat (Z.to_nat s + Z.to_nat k)) by lia. exact Hc.
  - rewrite Hl. apply map_nth.
Qed.

Lemma tolower_letter (c x : Z) : islower x = true -> tolower c = tolower x -> isalpha c = true.
Proof. unfold tolower at 1 2. destruct (isupper c) eqn:E1, (isupper x) eqn:E2; ctype. Qed.

Lemma tolower_other (c x : Z) : isalpha x = false -> tolower c = tolower x -> c = x.
Proof. unfold tolower at 1 2. destruct (isupper c) eqn:E1, (isupper x) eqn:E2; ctype. Qed.

(** The colon of a scheme is where the letters before it end. *)
Lemma scheme_colon (data : buffer) (pos s n : Z) :
  scheme_start data pos s -> byte_at data pos = Some (chr ":") ->
  0 <= n ->
  (forall k, 0 <= k < n -> exists c, byte_at data (s + k) = Some c /\ isalpha c = true) ->
  (exists c, byte_at data (s + n) = Some c /\ isalpha c = false) ->
  pos = s + n.
Proof.
  intros [Hs [Hal _]] Hcolon Hn Hletters [c [Hc Hna]].
  destruct (Z.lt_trichotomy pos (s + n)) as [Hlt | [Heq | Hgt]]; [exfalso | exact Heq | exfalso].
  - destruct (Hletters (pos - s) ltac:(lia)) as [c' [Hc' Ha']].
    replace (s + (pos - s)) with pos in Hc' by lia.
    rewrite Hcolon in Hc'. inversion Hc'; subst. discriminate.
  - rewrite (Hal (s + n) c ltac:(lia) Hc) in Hna. discriminate.
Qed.

Lemma byte_at_skipn (data : buffer) (s k : Z) :
  0 <= s -> 0 <= k ->
  byte_at (skipn (Z.to_nat s) data) k = byte_at data (s + k).
Proof.
  intros Hs Hk. unfold byte_at. rewrite length_skipn, nth_error_skipn_add.
  replace (Z.to_nat (s + k)) with (Z.to_nat s + Z.to_nat k)%nat by lia.
  destruct (Z_lt_le_dec (s + k) (Z.of_nat (List.length data))).
  - replace ((0 <=? k) && (k <? Z.of_nat (List.length data - Z.to_nat s))) with true by lia.
    replace ((0 <=? s + k) && (s + k <? Z.of_nat (List.length data))) with true by lia.
    reflexivity.
  - replace ((0 <=? k) && (k <? Z.of_nat (List.length data - Z.to_nat s))) with false by lia.
    replace ((0 <=? s + k) && (s + k <? Z.of_nat (List.length data))) with false by lia.
    reflexivity.
Qed.

Lemma scheme_position (data : buffer) (pos s : Z) (uri : string) (n : Z) :
  0 <= n < strlen uri ->
  forallb islower (firstn (Z.to_nat n) (bytes uri)) = true ->
  nth (Z.to_nat n) (bytes uri) 0 = chr ":" ->
  0 <= s -> begins_nocase (skipn (Z.to_nat s) data) uri ->
  scheme_start data pos s -> byte_at data pos = Some (chr ":") ->
  pos = s + n.
Proof.
  intros Hn Hlow Hcol Hs Hb Hsch Hcolon.
  apply (scheme_colon data pos s n Hsch Hcolon); [lia | |].
  - intros k Hk.
    destruct (begins_nocase_byte data s uri k Hs Hb ltac:(lia)) as [c [Hc Hl]].
    exists c. split; [exact Hc|].
    apply (tolower_letter c (nth (Z.to_nat k) (bytes uri) 0)); [|exact Hl].
    rewrite forallb_forall in Hlow. apply Hlow.
    assert (Hlen : (Z.to_nat k < List.length (firstn (Z.to_nat n) (bytes uri)))%nat).
    { rewrite length_firstn, bytes_length. unfold strlen in Hn. lia. }
    rewrite <- (firstn_skipn (Z.to_nat n) (bytes uri)) at 1.
    rewrite app_nth1 by exact Hlen. apply nth_In. exact Hlen.
  - destruct (begins_nocase_byte data s uri n Hs Hb Hn) as [c [Hc Hl]].
    exists c. split; [exact Hc|]. rewrite Hcol in Hl.
    rewrite (tolower_other c (chr ":") eq_refl Hl). reflexivity.
Qed.

(** X6.  [autolink__url] links no other schemes than [http], [https] and
    [ftp], in letters of either case: the span it returns begins with one
    of ["http://"], ["https://"], ["ftp://"], whose colon is the one at
    [pos].  The entries ["/"] and ["mailto:"] of the whitelist of
    [autolink_issafe] never let a URL pass. *)
Theorem url_scheme
    (short_domains : Z) (link l : autolink_pos) (data : buffer) (pos size flags : Z) :
  buffer_ok data -> 0 <= pos < size -> size <= len data ->
  autolink__url short_domains link data pos size flags = Ret (true, l) ->
  exists uri,
    In uri ["http://"; "https://"; "ftp://"]%string /\
    begins_nocase (skipn (Z.to_nat (start l)) data) uri /\
    start l + strlen uri = pos + 3.
Proof.
  intros Hok Hpos Hsize H.
  destruct (url_success_facts short_domains link l data pos size flags Hok Hpos Hsize H)
    as [Hcolon [H4 [Hs1 [Hs2 [c3 [e [e2 [Hc3 [Ha3 [_ [_ [_ [Hsch [Hsafe _]]]]]]]]]]]]]].
  pose proof Hsch as [Hs [Hal _]].
  destruct (issafe_from_spec valid_uris valid_uris_no_nul
              (skipn (Z.to_nat (start l)) data) (size - start l)) as [b [Hb Hiff]].
  { unfold len in *. rewrite length_skipn. lia. }
  unfold autolink_issafe in Hsafe. rewrite Hsafe in Hb. injection Hb as <-.
  destruct (proj1 Hiff eq_refl) as [uri [Hin [Hbeg [Hlen [c [Hc Hca]]]]]].
  assert (Hpos_of : forall n, 0 <= n < strlen uri ->
            forallb islower (firstn (Z.to_nat n) (bytes uri)) = true ->
            nth (Z.to_nat n) (bytes uri) 0 = chr ":" -> pos = start l + n).
  { intros n Hn Hl Hcl.
    apply (scheme_position data pos (start l) uri n Hn Hl Hcl ltac:(lia) Hbeg Hsch Hcolon). }
  unfold valid_uris in Hin. simpl in Hin.
  destruct Hin as [<- | [<- | [<- | [<- | [<- | []]]]]].
  - exfalso.
    destruct (begins_nocase_byte data (start l) "/" 0 ltac:(lia) Hbeg ltac:(vm_compute; split; congruence))
      as [c0 [Hc0 Hl0]].
    replace (start l + 0) with (start l) in Hc0 by lia.
    assert (c0 = chr "/") by (apply (tolower_other c0 (chr "/") eq_refl Hl0)). subst c0.
    destruct (Z.eq_dec (start l) pos) as [Heq | Hne].
    + rewrite Heq, Hcolon in Hc0. discriminate.
    + pose proof (Hal (start l) (chr "/") ltac:(lia) Hc0). discriminate.
  - exists "http://"%string. split; [left; reflexivity|]. split; [exact Hbeg|].
    pose proof (Hpos_of 4 ltac:(vm_compute; split; congruence) eq_refl eq_refl) as Hp.
    change (strlen "http://") with 7. lia.
  - exists "https://"%string. split; [right; left; reflexivity|]. split; [exact Hbeg|].
    pose proof (Hpos_of 5 ltac:(vm_compute; split; congruence) eq_refl eq_refl) as Hp.
    change (strlen "https://") with 8. lia.
  - exists "ftp://"%string. split; [right; right; left; reflexivity|]. split; [exact Hbeg|].
    pose proof (Hpos_of 3 ltac:(vm_compute; split; congruence) eq_refl eq_refl) as Hp.
    change (strlen "ftp://") with 6. lia.
  - exfalso.
    pose proof (Hpos_of 6 ltac:(vm_compute; split; congruence) eq_refl eq_refl) as Hp6.
    rewrite byte_at_skipn in Hc by (try lia; vm_compute; discriminate).
    change (strlen "mailto:") with 7 in Hc.
    replace (start l + 7) with (pos + 1) in Hc by lia.
    rewrite Hs1 in Hc. injection Hc as <-. discriminate.
Qed.

Lemma url_scheme_witness :
  exists uri,
    In uri ["http://"; "https://"; "ftp://"]%string /\
    begins_nocase
      (skipn (Z.to_nat (start {| start := 3; end_ := 14 |})) (text "cf.FTP://a.b/c, d")) uri /\
    start {| start := 3; end_ := 14 |} + strlen uri = 6 + 3.
Proof.
  apply (url_scheme 1 no_link {| start := 3; end_ := 14 |} (text "cf.FTP://a.b/c, d") 6 17 0).
  - apply text_ok. reflexivity.
  - lia.
  - vm_compute. discriminate.
  - vm_compute. reflexivity.
Defined.

(** X7.  When the flag for short domains is not set, [autolink__url] finds
    a link only if a ['.'] follows the first byte of the host within the
    run of host-name bytes, and before the last byte of the buffer: a
    host whose only ['.'] ends the buffer does not count. *)
Theorem url_needs_dot
    (short_domains : Z) (link l : autolink_pos) (data : buffer) (pos size flags : Z) :
  buffer_ok data -> 0 <= pos < size -> size <= len data ->
  Z.land flags short_domains = 0 ->
  autolink__url short_domains link data pos size flags = Ret (true, l) ->
  exists d,
    pos + 4 <= d < size - 1 /\ byte_at data d = Some (chr ".") /\
    forall i c, pos + 4 <= i < d -> byte_at data i = Some c -> is_domain_byte c = true.
Proof.
  intros Hok Hpos Hsize Hflag H.
  destruct (url_success_facts short_domains link l data pos size flags Hok Hpos Hsize H)
    as [_ [H4 [_ [_ [c3 [e [e2 [_ [_ [[He [Hdom _]] [Hnp _]]]]]]]]]]].
  rewrite Hflag in Hnp. cbn in Hnp. apply Z.ltb_lt in Hnp.
  apply occurrences_slice_pos in Hnp; [| lia | lia].
  destruct Hnp as [d [Hd Hdd]]. exists d.
  split; [lia|]. split; [exact Hdd|].
  intros i c Hi. apply Hdom. lia.
Qed.

Lemma url_needs_dot_witness :
  exists d,
    4 + 4 <= d < 18 - 1 /\ byte_at (text "http://example.com") d = Some (chr ".") /\
    forall i c, 4 + 4 <= i < d -> byte_at (text "http://example.com") i = Some c ->
                is_domain_byte c = true.
Proof.
  apply (url_needs_dot 1 no_link {| start := 0; end_ := 18 |}
           (text "http://example.com") 4 18 0).
  - apply text_ok. reflexivity.
  - lia.
  - vm_compute. discriminate.
  - reflexivity.
  - vm_compute. reflexivity.
Defined.

(* ================================================================= *)
(** * Further properties of [autolink__email] *)

(** What the second loop of [autolink__email] has counted. *)
Lemma email_scan_counts (data : buffer) (pos size e nb np : Z) :
  buffer_ok data -> 0 <= pos <= size -> size <= len data ->
  email_scan data pos size = Ret (e, nb, np) ->
  nb = occurrences (chr "@") (slice data pos e) /\
  (0 < np -> exists d, pos <= d < e /\ d < size - 1 /\ byte_at data d = Some (chr ".")).
Proof.
  intros Hok Hpos Hsize H. unfold buffer_ok in Hok. unfold email_scan in H.
  revert H. match goal with |- context [loop _ ?b _] => set (body := b) end. intros H.
  set (P := fun st : Z * Z * Z =>
     let '(e, nb, np) := st in
     nb = occurrences (chr "@") (slice data pos e) /\
     (0 < np -> exists d, pos <= d < e /\ d < size - 1 /\ byte_at data d = Some (chr "."))).
  change (P (e, nb, np)).
  apply (loop_partial body
           (fun st => P st /\ pos <= fst (fst st) <= size /\ 0 <= snd st) P)
    with (fuel := bound data) (s := (pos, 0, 0)); [| | | exact H].
  - intros [[e0 nb0] np0] [[e1 nb1] np1] [[Hnb Hdot] [He0 Hnp]] Hstep. unfold body in Hstep.
    cbn [fst snd] in *.
    destruct (e0 <? size) eqn:Elt; [|discriminate].
    apply bind_Ret in Hstep. destruct Hstep as [c [Hc Hstep]]. apply read_Ret in Hc.
    assert (He1 : size_t (e0 + 1) = e0 + 1) by (apply size_t_small; lia).
    assert (Hs1 : size_t (size - 1) = size - 1) by (apply size_t_small; lia).
    rewrite He1, Hs1 in Hstep.
    pose proof (slice_snoc data pos e0 c ltac:(lia) Hc) as Hsn.
    assert (Hkeep : 0 < np0 -> exists d, pos <= d < e0 + 1 /\ d < size - 1 /\
                                         byte_at data d = Some (chr ".")).
    { intros Hp. destruct (Hdot Hp) as [d [Hd Hdd]]. exists d. split; [lia | exact Hdd]. }
    destruct (isalnum c) eqn:Ea.
    { injection Hstep as <- <- <-. split; [|lia]. split; [|exact Hkeep].
      rewrite Hsn, occurrences_snoc. replace (c =? chr "@") with false by ctype. lia. }
    destruct (c =? chr "@") eqn:Eat.
    { apply bind_Ret in Hstep. destruct Hstep as [nb' [Hnb' Hstep]].
      apply int_incr_Ret in Hnb'. injection Hstep as <- <- <-. split; [|lia].
      split; [|exact Hkeep]. rewrite Hsn, occurrences_snoc, Eat. lia. }
    destruct ((c =? chr ".") && (e0 <? size - 1)) eqn:Edot.
    { apply bind_Ret in Hstep. destruct Hstep as [np' [Hnp' Hstep]].
      apply int_incr_Ret in Hnp'. injection Hstep as <- <- <-. split; [|lia].
      split.
      - rewrite Hsn, occurrences_snoc, Eat. lia.
      - intros _. exists e0. split; [lia|]. split; [lia|]. rewrite Hc. f_equal. lia. }
    destruct (negb (c =? chr "-") && negb (c =? chr "_")) eqn:Estop; [discriminate|].
    injection Hstep as <- <- <-. split; [|lia]. split; [|exact Hkeep].
    rewrite Hsn, occurrences_snoc, Eat. lia.
  - intros [[e0 nb0] np0] [[e1 nb1] np1] [[Hnb Hdot] [He0 Hnp]] Hstep. unfold body in Hstep.
    cbn [fst snd] in *.
    destruct (e0 <? size) eqn:Elt.
    + apply bind_Ret in Hstep. destruct Hstep as [c [Hc Hstep]].
      destruct (isalnum c); [discriminate|].
      destruct (c =? chr "@").
      { apply bind_Ret in Hstep. destruct Hstep as [? [_ Hstep]]. discriminate. }
      destruct ((c =? chr ".") && (e0 <? size_t (size - 1))).
      { apply bind_Ret in Hstep. destruct Hstep as [? [_ Hstep]]. discriminate. }
      destruct (negb (c =? chr "-") && negb (c =? chr "_")); [|discriminate].
      injection Hstep as <- <- <-. split; assumption.
    + injection Hstep as <- <- <-. split; assumption.
  - cbn [fst snd]. split; [|lia]. split; [|lia].
    rewrite slice_empty by lia. reflexivity.
Qed.

Lemma email_scan_np_nonneg (data : buffer) (pos size e nb np : Z) :
  email_scan data pos size = Ret (e, nb, np) -> 0 <= np.
Proof.
  intros H. unfold email_scan in H.
  revert H. match goal with |- context [loop _ ?b _] => set (body := b) end. intros H.
  change (0 <= snd (e, nb, np)).
  apply (loop_partial body (fun st : Z * Z * Z => 0 <= snd st)
           (fun st : Z * Z * Z => 0 <= snd st))
    with (fuel := bound data) (s := (pos, 0, 0)); [| | | exact H].
  - intros [[e0 nb0] np0] [[e1 nb1] np1] Hnp Hstep. unfold body in Hstep. cbn [snd] in *.
    destruct (e0 <? size); [|discriminate].
    apply bind_Ret in Hstep. destruct Hstep as [c [_ Hstep]].
    destruct (isalnum c); [injection Hstep as <- <- <-; exact Hnp|].
    destruct (c =? chr "@").
    { apply bind_Ret in Hstep. destruct Hstep as [? [_ Hstep]].
      injection Hstep as <- <- <-. exact Hnp. }
    destruct ((c =? chr ".") && (e0 <? size_t (size - 1))).
    { apply bind_Ret in Hstep. destruct Hstep as [np' [Hnp' Hstep]].
      apply int_incr_Ret in Hnp'. injection Hstep as <- <- <-. lia. }
    destruct (negb (c =? chr "-") && negb (c =? chr "_")); [discriminate|].
    injection Hstep as <- <- <-. exact Hnp.
  - intros [[e0 nb0] np0] [[e1 nb1] np1] Hnp Hstep. unfold body in Hstep. cbn [snd] in *.
    destruct (e0 <? size).
    + apply bind_Ret in Hstep. destruct Hstep as [c [_ Hstep]].
      destruct (isalnum c); [discriminate|].
      destruct (c =? chr "@").
      { apply bind_Ret in Hstep. destruct Hstep as [? [_ Hstep]]. discriminate. }
      destruct ((c =? chr ".") && (e0 <? size_t (size - 1))).
      { apply bind_Ret in Hstep. destruct Hstep as [? [_ Hstep]]. discriminate. }
      destruct (negb (c =? chr "-") && negb (c =? chr "_")); [|discriminate].
      injection Hstep as <- <- <-. exact Hnp.
    + injection Hstep as <- <- <-. exact Hnp.
  - cbn [snd]. lia.
Qed.

Lemma is_local_byte_not_at (c : Z) : is_local_byte c = true -> c <> chr "@".
Proof. unfold is_local_byte. ctype. Qed.

(** All that a successful [autolink__email] has found. *)
Lemma email_success_facts (link l : autolink_pos) (data : buffer) (pos size flags : Z) :
  buffer_ok data -> 0 <= pos <= size -> size <= len data ->
  autolink__email link data pos size flags = Ret (true, l) ->
  0 <= start l < pos /\
  (forall i c, start l <= i < pos -> byte_at data i = Some c -> is_local_byte c = true) /\
  (start l = 0 \/ exists c, byte_at data (start l - 1) = Some c /\ is_local_byte c = false) /\
  exists e q d,
    pos + 2 <= e <= size /\
    (forall i c, pos <= i < e -> byte_at data i = Some c -> is_address_byte c = true) /\
    occurrences (chr "@") (slice data pos e) = 1 /\
    (pos <= q < e /\ byte_at data q = Some (chr "@")) /\
    (pos <= d < e /\ d < size - 1 /\ byte_at data d = Some (chr ".")) /\
    q + 1 <= end_ l <= e.
Proof.
  intros Hok Hpos Hsize H. pose proof Hok as Hok'. unfold buffer_ok in Hok'.
  unfold autolink__email in H.
  destruct (email_rewind_spec data pos Hok ltac:(lia)) as [s [Hrw [Hs [Hloc Hmax]]]].
  rewrite Hrw in H. cbn [bind start] in H.
  destruct (s =? pos) eqn:Esp; [discriminate|].
  apply bind_Ret in H. destruct H as [[[e nb] np] [Hscan H]].
  destruct (email_scan_spec data pos size e nb np Hok Hpos Hsize Hscan) as [He [Hadr Hat]].
  destruct (email_scan_counts data pos size e nb np Hok Hpos Hsize Hscan) as [Hnb Hdot].
  unfold set_end in H. cbn [start end_] in H.
  destruct ((size_t (e - pos) <? 2) || negb (nb =? 1) || (np =? 0)) eqn:Ebad; [discriminate|].
  rewrite size_t_small in Ebad by lia.
  pose proof (email_scan_np_nonneg data pos size e nb np Hscan) as Hnp0.
  assert (Hnp : 0 < np) by lia.
  destruct (Hat ltac:(lia)) as [q [Hq Hqa]].
  destruct (Hdot Hnp) as [d Hd].
  destruct (delim_anchored data s e (q + 1) q Hok) as [e' [Hdelim He']];
    [apply (email_anchored data pos s e q); auto; lia | lia |].
  rewrite Hdelim in H. injection H as <-. cbn [start end_].
  split; [lia|]. split; [exact Hloc|]. split; [exact Hmax|].
  exists e, q, d. split; [lia|]. split; [exact Hadr|]. split; [lia|].
  split; [split; assumption|]. split; [exact Hd | exact He'].
Qed.

(** X8.  The span of an address that [autolink__email] returns holds
    exactly one ['@']. *)
Theorem email_one_at (link l : autolink_pos) (data : buffer) (pos size flags : Z) :
  buffer_ok data -> 0 <= pos <= size -> size <= len data ->
  autolink__email link data pos size flags = Ret (true, l) ->
  occurrences (chr "@") (span_bytes data l) = 1.
Proof.
  intros Hok Hpos Hsize H.
  destruct (email_success_facts link l data pos size flags Hok Hpos Hsize H)
    as [Hs [Hloc [_ [e [q [d [He [_ [Hone [[Hq Hqa] [_ Hen]]]]]]]]]]].
  unfold span_bytes.
  rewrite (slice_app data (start l) pos (end_ l)) by lia.
  rewrite (slice_app data pos (end_ l) e) in Hone by lia.
  rewrite occurrences_app in *.
  pose proof (occurrences_bound (chr "@") (slice data (start l) pos)) as B1.
  pose proof (occurrences_bound (chr "@") (slice data (end_ l) e)) as B2.
  assert (Hleft : ~ 0 < occurrences (chr "@") (slice data (start l) pos)).
  { intros Hp. apply occurrences_slice_pos in Hp; [| lia | lia].
    destruct Hp as [i [Hi Hia]].
    apply (is_local_byte_not_at (chr "@")); [|reflexivity]. apply (Hloc i); [lia | exact Hia]. }
  assert (Hmid : 0 < occurrences (chr "@") (slice data pos (end_ l))).
  { apply occurrences_slice_pos; [lia | lia |]. exists q. split; [lia | exact Hqa]. }
  lia.
Qed.

Lemma email_one_at_witness :
  occurrences (chr "@")
    (span_bytes (text "mail a.b@example.com, or c@d.e") {| start := 5; end_ := 20 |}) = 1.
Proof.
  apply (email_one_at no_link {| start := 5; end_ := 20 |}
           (text "mail a.b@example.com, or c@d.e") 8 30 0).
  - apply text_ok. reflexivity.
  - lia.
  - vm_compute. discriminate.
  - vm_compute. reflexivity.
Defined.

(** X9.  [autolink__email] finds an address only if a ['.'] stands at
    [pos] or to its right, reached over address bytes alone, and not as
    the last byte of the buffer; and at least two bytes from [pos] on
    are address bytes. *)
Theorem email_needs_dot (link l : autolink_pos) (data : buffer) (pos size flags : Z) :
  buffer_ok data -> 0 <= pos <= size -> size <= len data ->
  autolink__email link data pos size flags = Ret (true, l) ->
  exists d,
    pos <= d < size - 1 /\ byte_at data d = Some (chr ".") /\
    (forall i c, pos <= i < d -> byte_at data i = Some c -> is_address_byte c = true) /\
    (forall i c, pos <= i < pos + 2 -> byte_at data i = Some c -> is_address_byte c = true).
Proof.
  intros Hok Hpos Hsize H.
  destruct (email_success_facts link l data pos size flags Hok Hpos Hsize H)
    as [_ [_ [_ [e [q [d [He [Hadr [_ [_ [[Hd [Hd1 Hdd]] _]]]]]]]]]]].
  exists d. split; [lia|]. split; [exact Hdd|]. split.
  - intros i c Hi. apply Hadr. lia.
  - intros i c Hi. apply Hadr. lia.
Qed.

Lemma email_needs_dot_witness :
  exists d,
    1 <= d < 5 - 1 /\ byte_at (text "a@b.c") d = Some (chr ".") /\
    (forall i c, 1 <= i < d -> byte_at (text "a@b.c") i = Some c -> is_address_byte c = true) /\
    (forall i c, 1 <= i < 1 + 2 -> byte_at (text "a@b.c") i = Some c ->
                 is_address_byte c = true).
Proof.
  apply (email_needs_dot no_link {| start := 0; end_ := 5 |} (text "a@b.c") 1 5 0).
  - apply text_ok. reflexivity.
  - lia.
  - vm_compute. discriminate.
  - vm_compute. reflexivity.
Defined.

(* ================================================================= *)
(** * Properties of all three matchers *)

(** All that a successful [autolink__www] has found. *)
Lemma www_success_facts (link l : autolink_pos) (data : buffer) (pos size flags : Z) :
  buffer_ok data -> 0 <= pos < size -> size <= len data ->
  autolink__www link data pos size flags = Ret (true, l) ->
  slice data pos (pos + 4) = bytes "www." /\
  exists e e2,
    domain_stop data size (pos + 1) e /\ nonspace_stop data size e e2 /\
    start l = pos /\ pos + 3 <= end_ l <= e2.
Proof.
  intros Hok Hpos Hsize H.
  destruct (free_standing_dec data pos Hok ltac:(lia)) as [Hfree | [H0 [c [Hc [Hp Hs]]]]].
  2:{ rewrite (www_glued link data pos size flags c Hok H0 Hc Hp Hs) in H. discriminate. }
  destruct (list_eq_dec Z.eq_dec (slice data pos (pos + 4)) (bytes "www.")) as [Hwww | Hno].
  2:{ rewrite (www_no_prefix link data pos size flags Hok ltac:(lia) Hsize) in H;
        [discriminate | right; exact Hno]. }
  destruct (Z_lt_le_dec (size - pos) 4) as [Hlt | Hge].
  { rewrite (www_no_prefix link data pos size flags Hok ltac:(lia) Hsize) in H;
      [discriminate | left; exact Hlt]. }
  destruct (Z.eq_dec (size - pos) 4) as [H4 | Hne].
  { rewrite (www_at_buffer_end link data pos size flags Hok Hpos Hsize Hfree H4 Hwww) in H.
    discriminate. }
  destruct (www_run link data pos size flags Hok Hpos Hsize Hfree ltac:(lia) Hwww)
    as [e [e2 [e' [Hstop [Hns [Hrun He']]]]]].
  rewrite Hrun in H. injection H as <-.
  split; [exact Hwww|]. exists e, e2. cbn [start end_].
  split; [exact Hstop|]. split; [exact Hns|]. split; [reflexivity | exact He'].
Qed.

Lemma is_domain_byte_not_space (c : Z) : is_domain_byte c = true -> isspace c = false.
Proof. unfold is_domain_byte. ctype. Qed.

Lemma is_local_byte_not_space (c : Z) : is_local_byte c = true -> isspace c = false.
Proof. unfold is_local_byte. ctype. Qed.

Lemma is_address_byte_not_space (c : Z) : is_address_byte c = true -> isspace c = false.
Proof. unfold is_address_byte. ctype. Qed.

Lemma isalpha_not_space (c : Z) : isalpha c = true -> isspace c = false.
Proof. ctype. Qed.

Lemma isalnum_not_space (c : Z) : isalnum c = true -> isspace c = false.
Proof. ctype. Qed.

(** X10.  No span that [autolink__www], [autolink__email] or
    [autolink__url] returns with success holds a byte of white space. *)
Theorem no_white_space_in_link
    (short_domains : Z) (link l : autolink_pos) (data : buffer) (pos size flags : Z) :
  buffer_ok data -> size <= len data -> 0 <= pos < size ->
  autolink__www link data pos size flags = Ret (true, l) \/
  autolink__email link data pos size flags = Ret (true, l) \/
  autolink__url short_domains link data pos size flags = Ret (true, l) ->
  forall i c, start l <= i < end_ l -> byte_at data i = Some c -> isspace c = false.
Proof.
  intros Hok Hsize Hpos [H | [H | H]] i c Hi Hc.
  - destruct (www_success_facts link l data pos size flags Hok Hpos Hsize H)
      as [Hwww [e [e2 [[He [Hdom _]] [[He2 [Hns _]] [Hst Hen]]]]]].
    destruct (slice_www data pos ltac:(lia) Hwww) as [H0 _].
    destruct (Z.eq_dec i pos) as [-> | Hne].
    + rewrite H0 in Hc. injection Hc as <-. reflexivity.
    + destruct (Z_lt_le_dec i e).
      * apply is_domain_byte_not_space. apply (Hdom i); [lia | exact Hc].
      * apply (Hns i); [lia | exact Hc].
  - destruct (email_success_facts link l data pos size flags Hok ltac:(lia) Hsize H)
      as [Hs [Hloc [_ [e [q [d [He [Hadr [_ [_ [_ Hen]]]]]]]]]]].
    destruct (Z_lt_le_dec i pos).
    + apply is_local_byte_not_space. apply (Hloc i); [lia | exact Hc].
    + apply is_address_byte_not_space. apply (Hadr i); [lia | exact Hc].
  - destruct (url_success_facts short_domains link l data pos size flags Hok Hpos Hsize H)
      as [Hcolon [H4 [Hs1 [Hs2 [c3 [e [e2 [Hc3 [Ha3 [[He [Hdom _]]
           [_ [[He2 [Hns _]] [[Hs [Hal _]] [_ Hen]]]]]]]]]]]]]].
    destruct (Z_lt_le_dec i pos).
    { apply isalpha_not_space. apply (Hal i); [lia | exact Hc]. }
    destruct (Z_lt_le_dec i (pos + 4)).
    { assert (i = pos \/ i = pos + 1 \/ i = pos + 2 \/ i = pos + 3)
        as [-> | [-> | [-> | ->]]] by lia; rewrite Hc in *.
      - injection Hcolon as ->. reflexivity.
      - injection Hs1 as ->. reflexivity.
      - injection Hs2 as ->. reflexivity.
      - injection Hc3 as ->. apply isalnum_not_space. exact Ha3. }
    destruct (Z_lt_le_dec i e).
    + apply is_domain_byte_not_space. apply (Hdom i); [lia | exact Hc].
    + apply (Hns i); [lia | exact Hc].
Qed.

Lemma no_white_space_in_link_witness : isspace (chr ".") = false.
Proof.
  apply (no_white_space_in_link 1 no_link {| start := 4; end_ := 19 |}
           (text "see www.example.com. Or not") 4 27 0
           (text_ok "see www.example.com. Or not" eq_refl)
           ltac:(vm_compute; discriminate)
           ltac:(lia)
           (or_introl eq_refl)
           7 (chr ".")).
  - simpl. lia.
  - reflexivity.
Defined.

(** X11.  On a position of the buffer no matcher reads outside the buffer:
    [autolink__www] returns; [autolink__email] returns, if the buffer is
    short enough for its two counters of type [int]; [autolink__url]
    returns if a [':'] stands at [pos], and stops at its [assert] if
    not. *)
Theorem matchers_stay_in_buffer
    (short_domains : Z) (link : autolink_pos) (data : buffer) (pos size flags : Z) :
  buffer_ok data -> size <= len data -> 0 <= pos < size ->
  (exists b l, autolink__www link data pos size flags = Ret (b, l)) /\
  (len data <= INT_MAX ->
   exists b l, autolink__email link data pos size flags = Ret (b, l)) /\
  (byte_at data pos = Some (chr ":") ->
   exists b l, autolink__url short_domains link data pos size flags = Ret (b, l)) /\
  (byte_at data pos <> Some (chr ":") ->
   autolink__url short_domains link data pos size flags = Abort).
Proof.
  intros Hok Hsize Hpos. split; [|split; [|split]].
  - apply www_returns; assumption.
  - intros Hint. apply email_returns; [assumption | lia | assumption | assumption].
  - intros Hcolon. apply url_returns; assumption.
  - intros Hno. unfold autolink__url.
    destruct (byte_at_in data pos ltac:(lia)) as [c Hc].
    rewrite (read_byte_at _ _ _ Hc). cbn [bind].
    destruct (c =? chr ":") eqn:E; [|reflexivity].
    exfalso. apply Hno. rewrite Hc. f_equal. lia.
Qed.

Lemma matchers_stay_in_buffer_witness :
  (exists b l, autolink__www no_link (text "<a href=x>www.a.b;") 10 18 0 = Ret (b, l)) /\
  (len (text "<a href=x>www.a.b;") <= INT_MAX ->
   exists b l, autolink__email no_link (text "<a href=x>www.a.b;") 10 18 0 = Ret (b, l)) /\
  (byte_at (text "<a href=x>www.a.b;") 10 = Some (chr ":") ->
   exists b l, autolink__url 1 no_link (text "<a href=x>www.a.b;") 10 18 0 = Ret (b, l)) /\
  (byte_at (text "<a href=x>www.a.b;") 10 <> Some (chr ":") ->
   autolink__url 1 no_link (text "<a href=x>www.a.b;") 10 18 0 = Abort).
Proof.
  apply (matchers_stay_in_buffer 1 no_link (text "<a href=x>www.a.b;") 10 18 0).
  - apply text_ok. reflexivity.
  - vm_compute. discriminate.
  - lia.
Defined.

(* ================================================================= *)
(** * Further properties of [autolink_issafe] *)

(** X12.  [autolink_issafe] takes no slice of less than two bytes for
    safe, and reads none of its bytes: the shortest prefix of the
    whitelist has one byte, and a byte has to follow it. *)
Theorem issafe_short (link : buffer) (link_len : Z) :
  link_len <= 1 -> autolink_issafe link link_len = Ret false.
Proof.
  intros H. unfold autolink_issafe, valid_uris. cbn [issafe_from]. cbv zeta.
  change (strlen "/") with 1. change (strlen "http://") with 7.
  change (strlen "https://") with 8. change (strlen "ftp://") with 6.
  change (strlen "mailto:") with 7.
  replace (1 <? link_len) with false by lia. replace (7 <? link_len) with false by lia.
  replace (8 <? link_len) with false by lia. replace (6 <? link_len) with false by lia.
  reflexivity.
Qed.

Lemma issafe_short_witness : autolink_issafe (text "/") 1 = Ret false.
Proof. apply (issafe_short (text "/") 1). lia. Defined.

(** X13.  For a slice that begins with ['/'], [autolink_issafe] answers
    whether its second byte is alphanumeric: a path such as ["/x"] is
    safe, and ["//x"], which names a host without a scheme, is not. *)
Theorem issafe_slash (link : buffer) (link_len c : Z) :
  2 <= link_len ->
  byte_at link 0 = Some (chr "/") -> byte_at link 1 = Some c ->
  autolink_issafe link link_len = Ret (isalnum c).
Proof.
  intros Hlen H0 H1. unfold autolink_issafe, valid_uris. cbn [issafe_from]. cbv zeta.
  change (strlen "/") with 1. change (strlen "http://") with 7.
  change (strlen "https://") with 8. change (strlen "ftp://") with 6.
  change (strlen "mailto:") with 7.
  replace (1 <? link_len) with true by lia.
  change (bytes "/") with [chr "/"]. cbn [strncasecmp_eq].
  rewrite (read_byte_at _ _ _ H0). cbn [bind].
  change (tolower (chr "/") =? tolower (chr "/")) with true.
  change (chr "/" =? 0) with false. cbv iota. cbn [bind].
  rewrite (read_byte_at _ _ _ H1). cbn [bind].
  destruct (isalnum c); [reflexivity|].
  destruct (7 <? link_len);
    [change (bytes "http://") with (chr "h" :: bytes "ttp://"); cbn [strncasecmp_eq];
     rewrite (read_byte_at _ _ _ H0); cbn [bind];
     change (tolower (chr "/") =? tolower (chr "h")) with false; cbv iota; cbn [bind] |];
  (destruct (8 <? link_len);
    [change (bytes "https://") with (chr "h" :: bytes "ttps://"); cbn [strncasecmp_eq];
     rewrite (read_byte_at _ _ _ H0); cbn [bind];
     change (tolower (chr "/") =? tolower (chr "h")) with false; cbv iota; cbn [bind] |]);
  (destruct (6 <? link_len);
    [change (bytes "ftp://") with (chr "f" :: bytes "tp://"); cbn [strncasecmp_eq];
     rewrite (read_byte_at _ _ _ H0); cbn [bind];
     change (tolower (chr "/") =? tolower (chr "f")) with false; cbv iota; cbn [bind] |]);
  try (change (bytes "mailto:") with (chr "m" :: bytes "ailto:"); cbn [strncasecmp_eq];
       rewrite (read_byte_at _ _ _ H0); cbn [bind];
       change (tolower (chr "/") =? tolower (chr "m")) with false; cbv iota; cbn [bind]);
  reflexivity.
Qed.

Lemma issafe_slash_witness : autolink_issafe (text "//host/x") 8 = Ret (isalnum (chr "/")).
Proof.
  apply (issafe_slash (text "//host/x") 8 (chr "/")).
  - lia.
  - reflexivity.
  - reflexivity.
Defined.

(** X14.  What is safe stays safe when more of the buffer is taken into
    the slice: the answer [true] of [autolink_issafe] for a length holds
    for every greater length within the buffer. *)
Theorem issafe_longer (link : buffer) (n m : Z) :
  n <= m -> m <= len link ->
  autolink_issafe link n = Ret true -> autolink_issafe link m = Ret true.
Proof.
  intros Hnm Hm H.
  destruct (issafe_from_spec valid_uris valid_uris_no_nul link n ltac:(lia)) as [b [Hb Hiff]].
  destruct (issafe_from_spec valid_uris valid_uris_no_nul link m Hm) as [b' [Hb' Hiff']].
  unfold autolink_issafe in *. rewrite H in Hb. injection Hb as <-.
  rewrite Hb'. f_equal. apply Hiff'.
  destruct (proj1 Hiff eq_refl) as [uri [Hin [Hbeg [Hlen Hc]]]].
  exists uri. split; [exact Hin|]. split; [exact Hbeg|]. split; [lia | exact Hc].
Qed.

Lemma issafe_longer_witness : autolink_issafe (text "https://a.b/c d") 13 = Ret true.
Proof.
  apply (issafe_longer (text "https://a.b/c d") 9 13).
  - lia.
  - vm_compute. discriminate.
  - vm_compute. reflexivity.
Defined.

(** X15.  [autolink__url] takes the scheme as a whole word: the span it
    returns starts the buffer or follows a byte that is no letter, and
    runs over letters up to the colon at [pos]. *)
Theorem url_scheme_whole_word
    (short_domains : Z) (link l : autolink_pos) (data : buffer) (pos size flags : Z) :
  buffer_ok data -> 0 <= pos < size -> size <= len data ->
  autolink__url short_domains link data pos size flags = Ret (true, l) ->
  0 <= start l < pos /\
  (forall i c, start l <= i < pos -> byte_at data i = Some c -> isalpha c = true) /\
  (start l = 0 \/ exists c, byte_at data (start l - 1) = Some c /\ isalpha c = false).
Proof.
  intros Hok Hpos Hsize H.
  destruct (url_success_facts short_domains link l data pos size flags Hok Hpos Hsize H)
    as [Hcolon [_ [_ [_ [c3 [e [e2 [_ [_ [_ [_ [_ [Hsch [Hsafe _]]]]]]]]]]]]]].
  destruct Hsch as [Hs [Hal Hmax]].
  split; [|split; [exact Hal | exact Hmax]].
  destruct (Z.eq_dec (start l) pos) as [Heq | Hne]; [exfalso | lia].
  assert (Hlen : size - start l <= len (skipn (Z.to_nat (start l)) data)).
  { unfold len in *. rewrite length_skipn. lia. }
  destruct (issafe_from_spec valid_uris valid_uris_no_nul _ _ Hlen) as [b [Hb Hiff]].
  unfold autolink_issafe in Hsafe. rewrite Hsafe in Hb. injection Hb as <-.
  destruct (proj1 Hiff eq_refl) as [uri [Hin [Hbeg _]]].
  assert (H0 : 0 < strlen uri).
  { unfold valid_uris in Hin. simpl in Hin.
    destruct Hin as [<- | [<- | [<- | [<- | [<- | []]]]]]; reflexivity. }
  destruct (begins_nocase_byte data (start l) uri 0 ltac:(lia) Hbeg ltac:(lia)) as [c [Hc Hl]].
  replace (start l + 0) with pos in Hc by lia. rewrite Hcolon in Hc. injection Hc as <-.
  unfold valid_uris in Hin. simpl in Hin.
  destruct Hin as [<- | [<- | [<- | [<- | [<- | []]]]]]; vm_compute in Hl; discriminate.
Qed.

Lemma url_scheme_whole_word_witness :
  0 <= start {| start := 1; end_ := 11 |} < 5 /\
  (forall i c, start {| start := 1; end_ := 11 |} <= i < 5 ->
     byte_at (text "(http://a.b)") i = Some c -> isalpha c = true) /\
  (start {| start := 1; end_ := 11 |} = 0 \/
   exists c, byte_at (text "(http://a.b)") (start {| start := 1; end_ := 11 |} - 1) = Some c /\
             isalpha c = false).
Proof.
  apply (url_scheme_whole_word 1 no_link {| start := 1; end_ := 11 |}
           (text "(http://a.b)") 5 12 0).
  - apply text_ok. reflexivity.
  - lia.
  - vm_compute. discriminate.
  - vm_compute. reflexivity.
Defined.
